(** * pypco: the managed request pipeline and the pagination iterator

  A shallow embedding of [pypco/pco.py]: the URL clean-up of
  [_do_url_managed_request], the retry loops of
  [_do_timeout_managed_request] and [_do_ratelimit_managed_request], the
  error classification of [request_response], and the generator [iterate].
  Python strings are [string], Python ints are [Z], JSON payloads are a
  small inductive type, and the loops written [while True] take a fuel
  argument that bounds the number of iterations that are unfolded. *)

From Stdlib Require Import ZArith Lia Bool List Ascii String.
From stdpp Require Import base option gmap strings pretty.

Import ListNotations.
Local Open Scope Z_scope.

(** ** Strings as Python uses them *)

Module PyStr.

Definition slash : ascii := "/"%char.
Definition colon : ascii := ":"%char.
Definition qmark : ascii := "?"%char.
(** The double quote, code point 34. *)
Definition dquote : string := String (ascii_of_nat 34) EmptyString.

(** [s.startswith(p)] *)
Definition startswith (s p : string) : bool := String.prefix p s.

(** [c * n] for a one-character string [c] *)
Fixpoint repeat_char (c : ascii) (n : nat) : string :=
  match n with
  | O => EmptyString
  | S k => String c (repeat_char c k)
  end.

Definition first_char (s : string) : option ascii :=
  match s with
  | EmptyString => None
  | String c _ => Some c
  end.

Fixpoint last_char (s : string) : option ascii :=
  match s with
  | EmptyString => None
  | String c EmptyString => Some c
  | String _ t => last_char t
  end.

(** [c in s] for a character [c] *)
Fixpoint has_char (c : ascii) (s : string) : bool :=
  match s with
  | EmptyString => false
  | String d t => Ascii.eqb d c || has_char c t
  end.

(** [sub in s] for strings *)
Fixpoint contains_str (s sub : string) : bool :=
  String.prefix sub s ||
  match s with
  | EmptyString => false
  | String _ t => contains_str t sub
  end.

(** What follows the first [?] of [s], if there is one:
    [s.split('?', 1)[1]]. *)
Fixpoint after_qmark (s : string) : option string :=
  match s with
  | EmptyString => None
  | String c t => if Ascii.eqb c qmark then Some t else after_qmark t
  end.

End PyStr.

(** ** URL clean-up: [_do_url_managed_request], lines 214-216 *)

Module Url.
Import PyStr.

(** Length of the run of slashes at the head of [s]: what the greedy
    [[/]{2,}] can consume from this position. *)
Fixpoint slash_run (s : string) : nat :=
  match s with
  | String c t => if Ascii.eqb c slash then S (slash_run t) else O
  | EmptyString => O
  end.

(** One attempt of the pattern [(?<!:)[/]{2,}] at a position of the
    subject: [prev] is the character just before the position ([None] at
    the start of the string) and [s] the text from the position on.  The
    result is the length of the match. *)
Definition match_at (prev : option ascii) (s : string) : option nat :=
  if match prev with Some p => Ascii.eqb p colon | None => false end
  then None
  else let n := slash_run s in
       if (2 <=? n)%nat then Some n else None.

(** [re.subn(r'(?<!:)[/]{2,}', '/', url)[0]]: the subject is scanned from
    left to right; where the pattern matches, the replacement is emitted
    and the scan resumes after the match, elsewhere the character is
    copied.  [skip] counts the characters of the current match that are
    still to be stepped over. *)
Fixpoint re_sub (skip : nat) (prev : option ascii) (s : string) : string :=
  match s with
  | EmptyString => EmptyString
  | String c t =>
      match skip with
      | S k => re_sub k (Some c) t
      | O =>
          match match_at prev s with
          | Some n => String slash (re_sub (n - 1) (Some c) t)
          | None => String c (re_sub O (Some c) t)
          end
      end
  end.

Definition collapse_slashes (url : string) : string := re_sub O None url.

(** [url if url.startswith(self.api_base) else f'{self.api_base}{url}'] *)
Definition absolute (api_base url : string) : string :=
  if startswith url api_base then url else api_base +:+ url.

(** The two assignments to [url] under [if not upload:]. *)
Definition clean_url (api_base url : string) : string :=
  collapse_slashes (absolute api_base url).

(** The default of the constructor's [api_base]. *)
Definition default_api_base : string := "https://api.planningcenteronline.com".

(** The same substitution as a one-pass filter: [budget] is the number of
    slashes that may still be copied from the current run (two after a
    colon, one otherwise). *)
Fixpoint squeeze (budget : nat) (s : string) : string :=
  match s with
  | EmptyString => EmptyString
  | String c t =>
      if Ascii.eqb c slash then
        match budget with
        | O => squeeze O t
        | S b => String c (squeeze b t)
        end
      else String c (squeeze (if Ascii.eqb c colon then 2 else 1) t)
  end.

Definition budget_after_char (prev : option ascii) : nat :=
  match prev with
  | Some p => if Ascii.eqb p colon then 2%nat else 1%nat
  | None => 1%nat
  end.

(** The budget left once the filter has read [a]. *)
Fixpoint budget_after (budget : nat) (a : string) : nat :=
  match a with
  | EmptyString => budget
  | String c t =>
      budget_after
        (if Ascii.eqb c slash then Nat.pred budget
         else if Ascii.eqb c colon then 2%nat else 1%nat) t
  end.

(** Two slashes in a row somewhere in [s]. *)
Fixpoint has_double_slash (s : string) : bool :=
  match s with
  | EmptyString => false
  | String c t =>
      (Ascii.eqb c slash && match t with
                            | String d _ => Ascii.eqb d slash
                            | EmptyString => false
                            end)
      || has_double_slash t
  end.

End Url.

(** ** Python values, exceptions and the operations the code applies to them *)

Module Py.
Import PyStr.

(** What [response.json()] can return.  Numbers are integers. *)
#[local] Unset Elimination Schemes.
Inductive json : Type :=
| JNull
| JBool (b : bool)
| JNum (n : Z)
| JStr (s : string)
| JList (l : list json)
| JDict (d : list (string * json)).
#[local] Set Elimination Schemes.

(** The exceptions that travel through the pipeline.  [Builtin cls msg]
    stands for an instance of a class of the standard library or of
    [requests] other than [Timeout] and [HTTPError], with its class name
    and [str()]; the last argument of the three classes of pypco is the
    cause given with [raise ... from]. *)
Inductive exn : Type :=
| Timeout (msg : string)
| HTTPError (msg : string)
| Builtin (cls msg : string)
| PCORequestTimeoutException (msg : string) (cause : exn)
| PCOUnexpectedRequestException (msg : string) (cause : exn)
| PCORequestException (status_code : Z) (msg response_body : string) (cause : exn).

(** Classes that derive from [BaseException] without deriving from
    [Exception]. *)
Definition base_only : list string :=
  ["BaseException"; "KeyboardInterrupt"; "SystemExit"; "GeneratorExit"].

(** Modelled from the spec: [pypco/exceptions.py] is not among the sources.
    Section 7 lists [RequestTimeoutExceeded], [RequestError] and
    [UnexpectedRequestError] as the error classes reported to the caller;
    they are taken to be ordinary exception classes, that is subclasses of
    [Exception], whose [str()] is the message they were built with.
    [isinstance(err, Exception)], the test of [except Exception]. *)
Definition is_Exception (e : exn) : bool :=
  match e with
  | Builtin cls _ => negb (existsb (String.eqb cls) base_only)
  | _ => true
  end.

(** [str(err)] *)
Definition str_exn (e : exn) : string :=
  match e with
  | Timeout msg | HTTPError msg | Builtin _ msg => msg
  | PCORequestTimeoutException msg _ => msg
  | PCOUnexpectedRequestException msg _ => msg
  | PCORequestException _ msg _ _ => msg
  end.

(** Straight-line code either yields a value or raises. *)
Inductive result (A : Type) : Type :=
| Ok (a : A)
| Err (e : exn).
Arguments Ok {A} a.
Arguments Err {A} e.

Definition bind {A B : Type} (r : result A) (k : A -> result B) : result B :=
  match r with
  | Ok a => k a
  | Err e => Err e
  end.

(** Two hexadecimal digits, in lower case, as [repr] writes them. *)
Definition hex_digit (n : nat) : ascii :=
  ascii_of_nat (if n <? 10 then 48 + n else 87 + n)%nat.

(** [str.isprintable()] on one of the first 256 code points. *)
Definition is_printable (c : ascii) : bool :=
  let n := nat_of_ascii c in
  negb ((n <? 32) || (127 <=? n) && (n <=? 160) || (n =? 173))%nat.

(** What [repr] writes for one character between the quotes [quote]. *)
Definition repr_char (quote c : ascii) : string :=
  let n := nat_of_ascii c in
  let backslash := ascii_of_nat 92 in
  if Ascii.eqb c quote || Ascii.eqb c backslash then String backslash (String c EmptyString)
  else if (n =? 9)%nat then String backslash "t"
  else if (n =? 10)%nat then String backslash "n"
  else if (n =? 13)%nat then String backslash "r"
  else if is_printable c then String c EmptyString
  else String backslash
         (String "x" (String (hex_digit (n / 16)%nat)
                         (String (hex_digit (n mod 16)%nat) EmptyString))).

Fixpoint repr_chars (quote : ascii) (s : string) : string :=
  match s with
  | EmptyString => EmptyString
  | String c t => repr_char quote c +:+ repr_chars quote t
  end.

(** [repr(s)] for a string of code points below 256: single quotes, unless
    the string holds a single quote and no double quote. *)
Definition py_repr (s : string) : string :=
  let single := "'"%char in
  let double := ascii_of_nat 34 in
  let quote := if has_char single s && negb (has_char double s) then double else single in
  String quote (repr_chars quote s +:+ String quote EmptyString).

(** The first [n] characters of [s], the precision of a [%.200R]. *)
Fixpoint take_chars (n : nat) (s : string) : string :=
  match n, s with
  | S k, String c t => String c (take_chars k t)
  | _, _ => EmptyString
  end.

(** [KeyError(key)] for a string key: its [str()] is the [repr] of the key. *)
Definition KeyError (key : string) : exn :=
  Builtin "KeyError" (py_repr key).
Definition TypeError (msg : string) : exn := Builtin "TypeError" msg.
Definition IndexError (msg : string) : exn := Builtin "IndexError" msg.
Definition ValueError (msg : string) : exn := Builtin "ValueError" msg.

(** Items of a dict by key. *)
Fixpoint dict_get {V : Type} (k : string) (d : list (string * V)) : option V :=
  match d with
  | [] => None
  | (k', v) :: rest => if String.eqb k' k then Some v else dict_get k rest
  end.

(** [a == b] on JSON values: [True == 1], lists compare element by
    element, dicts compare as mappings whatever the order of their items. *)
Fixpoint py_eq (a b : json) {struct a} : bool :=
  match a, b with
  | JNull, JNull => true
  | JBool x, JBool y => Bool.eqb x y
  | JBool x, JNum n => Z.eqb (if x then 1 else 0) n
  | JNum n, JBool x => Z.eqb n (if x then 1 else 0)
  | JNum n, JNum m => Z.eqb n m
  | JStr s, JStr t => String.eqb s t
  | JList l, JList m =>
      (fix all2 (l : list json) (m : list json) {struct l} : bool :=
         match l, m with
         | [], [] => true
         | x :: l', y :: m' => py_eq x y && all2 l' m'
         | _, _ => false
         end) l m
  | JDict d, JDict e =>
      Nat.eqb (List.length d) (List.length e) &&
      (fix all (d : list (string * json)) {struct d} : bool :=
         match d with
         | [] => true
         | (k, v) :: d' =>
             match dict_get k e with
             | Some w => py_eq v w
             | None => false
             end && all d'
         end) d
  | _, _ => false
  end.

Definition type_name (v : json) : string :=
  match v with
  | JNull => "NoneType"
  | JBool _ => "bool"
  | JNum _ => "int"
  | JStr _ => "str"
  | JList _ => "list"
  | JDict _ => "dict"
  end.

(** The position an index denotes in a sequence of [len] items. *)
Definition seq_index (i : Z) (len : nat) : option nat :=
  let i' := if i <? 0 then i + Z.of_nat len else i in
  if (0 <=? i') && (i' <? Z.of_nat len) then Some (Z.to_nat i') else None.

Definition chars (s : string) : list json :=
  map (fun c => JStr (String c EmptyString)) (list_ascii_of_string s).

(** An [int] (or a [bool], which is one) used as an index. *)
Definition as_index (k : json) : option Z :=
  match k with
  | JNum i => Some i
  | JBool b => Some (if b then 1 else 0)
  | _ => None
  end.

(** [c[k]] *)
Definition py_getitem (c k : json) : result json :=
  match c with
  | JDict d =>
      match k with
      | JStr key =>
          match dict_get key d with
          | Some v => Ok v
          | None => Err (KeyError key)
          end
      | JList _ | JDict _ => Err (TypeError ("unhashable type: '" +:+ type_name k +:+ "'"))
      | JNull => Err (Builtin "KeyError" "None")
      | JBool b => Err (Builtin "KeyError" (if b then "True" else "False"))
      | JNum n => Err (Builtin "KeyError" (pretty n))
      end
  | JList l =>
      match as_index k with
      | Some i =>
          match seq_index i (List.length l) with
          | Some n => match nth_error l n with
                      | Some v => Ok v
                      | None => Err (IndexError "list index out of range")
                      end
          | None => Err (IndexError "list index out of range")
          end
      | None => Err (TypeError ("list indices must be integers or slices, not "
                               +:+ type_name k))
      end
  | JStr s =>
      match as_index k with
      | Some i =>
          match seq_index i (String.length s) with
          | Some n => match nth_error (chars s) n with
                      | Some v => Ok v
                      | None => Err (IndexError "string index out of range")
                      end
          | None => Err (IndexError "string index out of range")
          end
      | None => Err (TypeError ("string indices must be integers, not '"
                               +:+ type_name k +:+ "'"))
      end
  | _ => Err (TypeError ("'" +:+ type_name c +:+ "' object is not subscriptable"))
  end.

(** [c['key']] with a literal key *)
Definition item (c : json) (key : string) : result json := py_getitem c (JStr key).

(** The items a [for] loop over [c] goes through. *)
Definition py_iter (c : json) : result (list json) :=
  match c with
  | JDict d => Ok (map (fun kv => JStr (fst kv)) d)
  | JList l => Ok l
  | JStr s => Ok (chars s)
  | _ => Err (TypeError ("'" +:+ type_name c +:+ "' object is not iterable"))
  end.

(** ['key' in c] *)
Definition py_in (key : string) (c : json) : result bool :=
  match c with
  | JDict d => Ok (match dict_get key d with Some _ => true | None => false end)
  | JList l => Ok (existsb (py_eq (JStr key)) l)
  | JStr s => Ok (contains_str s key)
  | _ => Err (TypeError ("argument of type '" +:+ type_name c +:+ "' is not iterable"))
  end.

(** Characters that [int()] skips around the literal: the white space of
    the C locale, and the two other code points below 256 that count as
    white space and lie above 127, which [int()] turns into blanks first. *)
Definition is_space (c : ascii) : bool :=
  let n := nat_of_ascii c in
  ((9 <=? n) && (n <=? 13) || (n =? 32) || (n =? 133) || (n =? 160))%nat.

Definition digit_value (c : ascii) : option Z :=
  let n := nat_of_ascii c in
  if ((48 <=? n) && (n <=? 57))%nat then Some (Z.of_nat n - 48) else None.

Fixpoint all_space (s : string) : bool :=
  match s with
  | EmptyString => true
  | String c t => is_space c && all_space t
  end.

Fixpoint strip_left (s : string) : string :=
  match s with
  | String c t => if is_space c then strip_left t else s
  | EmptyString => EmptyString
  end.

(** The digits of the literal, with single underscores between digits:
    the value read, the number of digits, and what follows them.
    [after_digit] tells that the character just read was a digit. *)
Fixpoint scan_digits (acc count : Z) (after_digit : bool) (s : string)
  : option (Z * Z * string) :=
  match s with
  | EmptyString => if after_digit then Some (acc, count, EmptyString) else None
  | String c t =>
      match digit_value c with
      | Some d => scan_digits (10 * acc + d) (count + 1) true t
      | None =>
          if Ascii.eqb c "_"%char then
            if after_digit then scan_digits acc count false t else None
          else if after_digit then Some (acc, count, s) else None
      end
  end.

(** The default of [sys.get_int_max_str_digits()]. *)
Definition int_max_str_digits : Z := 4300.

(** What [int(s)] makes of a string. *)
Inductive int_literal : Type :=
| Parsed (n : Z)
| TooManyDigits (digits : Z)
| Invalid.

Definition parse_int (s : string) : int_literal :=
  let read (negative : bool) (body : string) :=
    match scan_digits 0 0 false body with
    | None => Invalid
    | Some (n, digits, rest) =>
        if int_max_str_digits <? digits then TooManyDigits digits
        else if all_space rest then Parsed (if negative then - n else n)
        else Invalid
    end in
  match strip_left s with
  | String c t =>
      if Ascii.eqb c "-"%char then read true t
      else if Ascii.eqb c "+"%char then read false t
      else read false (String c t)
  | EmptyString => Invalid
  end.

(** [int(s)] for a string: [None] stands for [ValueError]. *)
Definition py_int (s : string) : option Z :=
  match parse_int s with
  | Parsed n => Some n
  | _ => None
  end.

(** [int(s)] with the [ValueError] it raises. *)
Definition int_of_str (s : string) : result Z :=
  match parse_int s with
  | Parsed n => Ok n
  | TooManyDigits digits =>
      Err (ValueError ("Exceeds the limit (" +:+ pretty int_max_str_digits
                       +:+ " digits) for integer string conversion: value has "
                       +:+ pretty digits
                       +:+ " digits; use sys.set_int_max_str_digits() to increase the limit"))
  | Invalid =>
      Err (ValueError ("invalid literal for int() with base 10: "
                       +:+ take_chars 200 (py_repr s)))
  end.

End Py.

(** ** The request pipeline of class [PCO] *)

Module Pco.
Import PyStr Py.

(** [requests.Response], as far as the pipeline reads it.  [headers] is
    the case-insensitive mapping of [requests], keyed by the lower-cased
    header name; [json] is what [.json()] returns, [None] when the body
    does not parse. *)
Record response : Type := {
  status_code : Z;
  headers : gmap string string;
  text : string;
  reason : string;
  resp_url : string;
  json_body : option json
}.

(** The arguments shared by the request methods.  [payload] is [None] or
    an object to send as JSON; [upload] is whatever the caller gave, [JNull]
    for [None]: the code only tests its truth and hands it to [open]. *)
Record call : Type := {
  method : string;
  url : string;
  payload : option json;
  upload : json;
  params : list (string * json)
}.

(** What [session.request] receives. *)
Record sent : Type := {
  s_method : string;
  s_url : string;
  s_headers : list (string * string);
  s_params : list (string * json);
  s_json : option json;
  s_timeout : Z;
  s_files : option json
}.

(** What has happened so far: the number of calls of [_do_request] and the
    arguments of the calls of [time.sleep], oldest first. *)
Record world : Type := {
  transport_calls : nat;
  slept : list Z
}.

Definition initial_world : world := {| transport_calls := O; slept := [] |}.

(** The world after [k] more calls of [_do_request]. *)
Definition advance (k : nat) (w : world) : world :=
  {| transport_calls := transport_calls w + k; slept := slept w |}.

(** The attributes of a [PCO] object.  The network, the file system and
    the clock of the operating system are oracles: [session n rq] is the
    outcome of the request [rq] when [n] calls of [_do_request] came before
    it; [open_error v] is the exception that [open(v, 'rb')] raises, [None]
    when the file opens; [sleep_error w secs] is the exception with which
    the operating system, or a signal handler, ends a sleep of [secs]
    seconds begun in the world [w], [None] when the sleep runs to its
    end. *)
Record PCO : Type := {
  auth_header : string;
  api_base : string;
  timeout : Z;
  upload_url : string;
  upload_timeout : Z;
  timeout_retries : Z;
  session : nat -> sent -> result response;
  open_error : json -> option exn;
  sleep_error : world -> Z -> option exn
}.

(** The outcome of code that loops: [Unfinished] when the loop is still
    running after the iterations that the fuel allows. *)
Inductive outcome (A : Type) : Type :=
| Return (a : A)
| Raise (e : exn)
| Unfinished.
Arguments Return {A} a.
Arguments Raise {A} e.
Arguments Unfinished {A}.

Definition finished {A : Type} (o : outcome A) : bool :=
  match o with
  | Unfinished => false
  | _ => true
  end.

(** Truth value of the [upload] argument, the test of [if upload:]:
    [None], [''], zero and the empty containers are false. *)
Definition truthy (upload : json) : bool :=
  match upload with
  | JNull => false
  | JBool b => b
  | JNum n => negb (n =? 0)
  | JStr s => negb (String.eqb s EmptyString)
  | JList l => match l with [] => false | _ => true end
  | JDict d => match d with [] => false | _ => true end
  end.

(** [_do_request], as the [n]-th call of it (counting from 0). *)
Definition _do_request (self : PCO) (n : nat) (c : call) : result response :=
  let headers := [("User-Agent", "pypco"); ("Authorization", auth_header self)] in
  let request_params files := {|
    s_method := method c;
    s_url := url c;
    s_headers := headers;
    s_params := params c;
    s_json := payload c;
    s_timeout := if truthy (upload c) then upload_timeout self else timeout self;
    s_files := files
  |} in
  if truthy (upload c) then
    match open_error self (upload c) with
    | Some e => Err e
    | None => session self n (request_params (Some (upload c)))
    end
  else session self n (request_params None).

(** The message of [PCORequestTimeoutException]: the format of line 155
    filled with [url], between double quotes, and [timeout_count] in
    decimal. *)
Definition timeout_message (url : string) (timeout_count : Z) : string :=
  "The request to " +:+ dquote +:+ url +:+ dquote +:+ " timed out after "
  +:+ pretty timeout_count +:+ " tries.".

(** The loop of [_do_timeout_managed_request], entered with the current
    value of [timeout_count]. *)
Fixpoint timeout_loop (self : PCO) (fuel : nat) (timeout_count : Z)
         (c : call) (w : world) : outcome response * world :=
  match fuel with
  | O => (Unfinished, w)
  | S fuel' =>
      let w1 := {| transport_calls := S (transport_calls w); slept := slept w |} in
      match _do_request self (transport_calls w) c with
      | Ok response => (Return response, w1)
      | Err (Timeout m) =>
          let timeout_count := timeout_count + 1 in
          if timeout_count =? timeout_retries self
          then (Raise (PCORequestTimeoutException
                         (timeout_message (url c) timeout_count) (Timeout m)), w1)
          else timeout_loop self fuel' timeout_count c w1
      | Err e => (Raise e, w1)
      end
  end.

Definition _do_timeout_managed_request (self : PCO) (fuel : nat)
           (c : call) (w : world) : outcome response * world :=
  timeout_loop self fuel 0 c w.

(** [int(response.headers['Retry-After'])] *)
Definition retry_after (r : response) : result Z :=
  match headers r !! "retry-after" with
  | None => Err (KeyError "retry-after")
  | Some v => int_of_str v
  end.

(** The longest sleep that [time.sleep] takes, in seconds: it counts in
    nanoseconds on 63 bits. *)
Definition sleep_limit : Z := 9223372036.

(** [time.sleep(secs)] for an [int]: a number of seconds that does not fit
    the clock raises [OverflowError], a negative one [ValueError]; any
    other is handed to the operating system. *)
Definition sleep (self : PCO) (secs : Z) (w : world) : result world :=
  if (secs <? - sleep_limit) || (sleep_limit <? secs)
  then Err (Builtin "OverflowError" "timestamp too large to convert to C _PyTime_t")
  else if secs <? 0 then Err (ValueError "sleep length must be non-negative")
  else match sleep_error self w secs with
       | Some e => Err e
       | None => Ok {| transport_calls := transport_calls w;
                       slept := slept w ++ [secs] |}
       end.

(** The loop of [_do_ratelimit_managed_request]; [inner] is the fuel given
    to each call of the timeout wrapper. *)
Fixpoint ratelimit_loop (self : PCO) (inner fuel : nat)
         (c : call) (w : world) : outcome response * world :=
  match fuel with
  | O => (Unfinished, w)
  | S fuel' =>
      match _do_timeout_managed_request self inner c w with
      | (Return response, w1) =>
          if status_code response =? 429 then
            match retry_after response with
            | Err e => (Raise e, w1)
            | Ok secs =>
                match sleep self secs w1 with
                | Err e => (Raise e, w1)
                | Ok w2 => ratelimit_loop self inner fuel' c w2
                end
            end
          else (Return response, w1)
      | other => other
      end
  end.

Definition _do_ratelimit_managed_request (self : PCO) (fuel : nat)
           (c : call) (w : world) : outcome response * world :=
  ratelimit_loop self fuel fuel c w.

Definition with_url (c : call) (u : string) : call :=
  {| method := method c; url := u; payload := payload c;
     upload := upload c; params := params c |}.

Definition _do_url_managed_request (self : PCO) (fuel : nat)
           (c : call) (w : world) : outcome response * world :=
  let url :=
    if negb (truthy (upload c))
    then Url.clean_url (api_base self) (url c)
    else url c in
  _do_ratelimit_managed_request self fuel (with_url c url) w.

(** [response.raise_for_status()] of [requests]: the [HTTPError] it
    raises, if any. *)
Definition raise_for_status (r : response) : option exn :=
  let describe kind :=
    pretty (status_code r) +:+ " " +:+ kind +:+ " Error: " +:+ reason r
    +:+ " for url: " +:+ resp_url r in
  if (400 <=? status_code r) && (status_code r <? 500)
  then Some (HTTPError (describe "Client"))
  else if (500 <=? status_code r) && (status_code r <? 600)
  then Some (HTTPError (describe "Server"))
  else None.

Definition request_response (self : PCO) (fuel : nat)
           (c : call) (w : world) : outcome response * world :=
  match _do_url_managed_request self fuel c w with
  | (Raise err, w1) =>
      if is_Exception err
      then (Raise (PCOUnexpectedRequestException (str_exn err) err), w1)
      else (Raise err, w1)
  | (Unfinished, w1) => (Unfinished, w1)
  | (Return response, w1) =>
      match raise_for_status response with
      | Some err =>
          (Raise (PCORequestException (status_code response) (str_exn err)
                                      (text response) err), w1)
      | None => (Return response, w1)
      end
  end.

Definition request_json (self : PCO) (fuel : nat)
           (c : call) (w : world) : outcome json * world :=
  match request_response self fuel c w with
  | (Return response, w1) =>
      match json_body response with
      | Some v => (Return v, w1)
      | None => (Raise (Builtin "JSONDecodeError" "Expecting value"), w1)
      end
  | (Raise e, w1) => (Raise e, w1)
  | (Unfinished, w1) => (Unfinished, w1)
  end.

(** A payload given by keyword: [None] is no payload. *)
Definition payload_of (v : json) : option json :=
  match v with
  | JNull => None
  | _ => Some v
  end.

(** The key of [kv] is one of [names]. *)
Definition named (names : list string) (kv : string * json) : bool :=
  existsb (String.eqb (fst kv)) names.

(** A call [callee(method, url, ..., **kwargs)] of a method with the
    parameters [(self, method, url, payload=None, upload=None, **params)].
    [taken] names the parameters that the call gives itself, [payload] and
    [upload] are what it gives for these two or their defaults.  The first
    key of [kwargs] that names a parameter already given raises
    [TypeError]; the keys [payload] and [upload] are bound to these
    parameters; the other keys make up [params]. *)
Definition bind_keywords (callee : string) (taken : list string)
           (method url : string) (payload : option json) (upload : json)
           (kwargs : list (string * json)) : result call :=
  match List.find (named taken) kwargs with
  | Some (k, _) =>
      Err (TypeError (callee +:+ "() got multiple values for argument '" +:+ k +:+ "'"))
  | None =>
      Ok {| method := method; url := url;
            payload := match dict_get "payload" kwargs with
                       | Some v => payload_of v
                       | None => payload
                       end;
            upload := match dict_get "upload" kwargs with
                      | Some v => v
                      | None => upload
                      end;
            params := List.filter (fun kv => negb (named ["payload"; "upload"] kv))
                                  kwargs |}
  end.

(** [get(url, **params)]: [self.request_json('GET', url, **params)] *)
Definition get (self : PCO) (fuel : nat) (url : string)
           (params : list (string * json)) (w : world) : outcome json * world :=
  match bind_keywords "PCO.request_json" ["self"; "method"; "url"]
                      "GET" url None JNull params with
  | Err e => (Raise e, w)
  | Ok c => request_json self fuel c w
  end.

End Pco.

(** ** The generator [iterate] *)

Module Iterate.
Import PyStr Py Pco.

(** The dict that [iterate] yields. *)
Record record : Type := {
  data : json;
  included : list json;
  meta : list (string * json)
}.

(** An annotated target without a value, as in
    [record['meta']['can_include']: response['meta']['can_include']]:
    inside a function the annotation is not evaluated, the target is
    evaluated up to its last subscript, and nothing is stored. *)
Definition annotate_meta (r : record) (key : string) : record :=
  let _ := meta r in r.

(** [record['included'].append(include)] *)
Definition append_included (r : record) (include : json) : record :=
  {| data := data r; included := included r ++ [include]; meta := meta r |}.

(** The loop [for include in ...] with its test on type and id, for one
    reference. *)
Fixpoint scan_includes (reference : json) (includes : list json)
         (r : record) : result record :=
  match includes with
  | [] => Ok r
  | include :: rest =>
      bind (item include "type") (fun t1 =>
      bind (item reference "type") (fun t2 =>
      if py_eq t1 t2 then
        bind (item include "id") (fun i1 =>
        bind (item reference "id") (fun i2 =>
        if py_eq i1 i2
        then scan_includes reference rest (append_included r include)
        else scan_includes reference rest r))
      else scan_includes reference rest r))
  end.

(** [for include in response['included']: ...] *)
Definition resolve (response reference : json) (r : record) : result record :=
  bind (item response "included") (fun incs =>
  bind (py_iter incs) (fun l =>
  scan_includes reference l r)).

(** [for relationship in relationships: ...] *)
Fixpoint resolve_all (response : json) (references : list json)
         (r : record) : result record :=
  match references with
  | [] => Ok r
  | relationship :: rest =>
      bind (resolve response relationship r) (resolve_all response rest)
  end.

(** The body of [for key in cur['relationships']]. *)
Definition relationship_step (response cur key : json) (r : record) : result record :=
  bind (item cur "relationships") (fun rels =>
  bind (py_getitem rels key) (fun entry =>
  bind (item entry "data") (fun relationships =>
  match relationships with
  | JNull => Ok r
  | JDict _ => resolve response relationships r
  | JList l => resolve_all response l r
  | _ => Ok r
  end))).

Fixpoint relationship_loop (response cur : json) (keys : list json)
         (r : record) : result record :=
  match keys with
  | [] => Ok r
  | key :: rest =>
      bind (relationship_step response cur key r)
           (relationship_loop response cur rest)
  end.

(** The body of [for cur in response['data']], up to the [yield]. *)
Definition build_record (response cur : json) : result record :=
  let record := {| data := cur; included := []; meta := [] |} in
  bind (item response "meta") (fun m =>
  bind (py_in "can_include" m) (fun has_can_include =>
  let record := if has_can_include then annotate_meta record "can_include" else record in
  bind (item response "meta") (fun m =>
  bind (py_in "parent" m) (fun has_parent =>
  let record := if has_parent then annotate_meta record "parent" else record in
  bind (py_in "relationships" cur) (fun has_relationships =>
  if has_relationships then
    bind (item cur "relationships") (fun rels =>
    bind (py_iter rels) (fun keys =>
    relationship_loop response cur keys record))
  else Ok record))))).

(** The records yielded from one page, in order, and the exception that
    ends the loop early, if any. *)
Fixpoint emit (response : json) (items : list json) : list record * option exn :=
  match items with
  | [] => ([], None)
  | cur :: rest =>
      match build_record response cur with
      | Err e => ([], Some e)
      | Ok r => let (rs, e) := emit response rest in (r :: rs, e)
      end
  end.

(** What a consumer that exhausts the generator observes. *)
Inductive event : Type :=
| Fetch (offset per_page : Z)
| Yield (r : record).

Definition page_params (offset per_page : Z) (params : list (string * json))
  : list (string * json) :=
  ("offset", JNum offset) :: ("per_page", JNum per_page) :: params.

(** What was observed so far, put in front of what comes next. *)
Definition prepend {A : Type} (evs : list event)
           (rest : list event * outcome A * world) : list event * outcome A * world :=
  let '(evs', out, w) := rest in (evs ++ evs', out, w).

(** [iterate]: [inner] is the fuel of each call of [get], [fuel] bounds
    the number of pages. *)
Fixpoint iterate (self : PCO) (inner fuel : nat) (url : string)
         (offset per_page : Z) (params : list (string * json)) (w : world)
  : list event * outcome unit * world :=
  match fuel with
  | O => ([], Unfinished, w)
  | S fuel' =>
      match get self inner url (page_params offset per_page params) w with
      | (Return response, w1) =>
          match bind (item response "data") py_iter with
          | Err e => ([Fetch offset per_page], Raise e, w1)
          | Ok items =>
              match emit response items with
              | (rs, Some e) => (Fetch offset per_page :: map Yield rs, Raise e, w1)
              | (rs, None) =>
                  let offset' := offset + per_page in
                  match bind (item response "links") (py_in "next") with
                  | Err e => (Fetch offset per_page :: map Yield rs, Raise e, w1)
                  | Ok true =>
                      prepend (Fetch offset per_page :: map Yield rs)
                              (iterate self inner fuel' url offset' per_page params w1)
                  | Ok false =>
                      (Fetch offset per_page :: map Yield rs, Return tt, w1)
                  end
              end
          end
      | (Raise e, w1) => ([Fetch offset per_page], Raise e, w1)
      | (Unfinished, w1) => ([Fetch offset per_page], Unfinished, w1)
      end
  end.

(** *** The included list, said the way the specification says it *)

(** The primary data of the item's relationships, in declaration order. *)
Definition relationship_data (cur : json) : list json :=
  match py_in "relationships" cur with
  | Ok true =>
      match bind (item cur "relationships") py_iter with
      | Ok keys =>
          flat_map (fun key =>
                      match bind (item cur "relationships") (fun rels =>
                            bind (py_getitem rels key) (fun entry =>
                            item entry "data")) with
                      | Ok d => [d]
                      | Err _ => []
                      end) keys
      | Err _ => []
      end
  | _ => []
  end.

(** The references a relationship holds: one for the single shape, the
    items of the list for the list shape. *)
Definition references_of (relationships : json) : list json :=
  match relationships with
  | JDict _ => [relationships]
  | JList l => l
  | _ => []
  end.

Definition references (cur : json) : list json :=
  flat_map references_of (relationship_data cur).

(** Same type and same id. *)
Definition same_type_id (include reference : json) : bool :=
  match item include "type", item reference "type" with
  | Ok t1, Ok t2 =>
      py_eq t1 t2 &&
      match item include "id", item reference "id" with
      | Ok i1, Ok i2 => py_eq i1 i2
      | _, _ => false
      end
  | _, _ => false
  end.

(** The page's top-level [included] sequence. *)
Definition page_included (response : json) : list json :=
  match bind (item response "included") py_iter with
  | Ok l => l
  | Err _ => []
  end.

Definition resolved (response cur : json) : list json :=
  flat_map (fun reference =>
              List.filter (fun include => same_type_id include reference)
                     (page_included response))
           (references cur).

(** What a step that only appends to [included] does to a record. *)
Definition extends (r r' : record) (added : list json) : Prop :=
  data r' = data r /\ meta r' = meta r /\ included r' = included r ++ added.

(** The data reached through one key of the relationships. *)
Definition key_data (cur key : json) : list json :=
  match bind (item cur "relationships") (fun rels =>
        bind (py_getitem rels key) (fun entry => item entry "data")) with
  | Ok d => [d]
  | Err _ => []
  end.

(** *** Pages of the shape the service sends *)

(** A dict with a [type] and an [id]. *)
Definition has_type_id (v : json) : bool :=
  match v with
  | JDict d =>
      match dict_get "type" d, dict_get "id" d with
      | Some _, Some _ => true
      | _, _ => false
      end
  | _ => false
  end.

(** The [data] of a relationship: nothing, one reference or a list of
    references. *)
Definition well_formed_data (d : json) : bool :=
  match d with
  | JDict _ => has_type_id d
  | JList l => forallb has_type_id l
  | _ => true
  end.

Definition well_formed_relationship (v : json) : bool :=
  match v with
  | JDict e =>
      match dict_get "data" e with
      | Some d => well_formed_data d
      | None => false
      end
  | _ => false
  end.

(** A resource object: a dict whose [relationships], when it has some,
    map names to relationships. *)
Definition well_formed_item (cur : json) : bool :=
  match cur with
  | JDict d =>
      match dict_get "relationships" d with
      | None => true
      | Some (JDict rels) =>
          forallb (fun kv => well_formed_relationship (snd kv)) rels
      | Some _ => false
      end
  | _ => false
  end.

(** A page: [data] and [included] are lists of resource objects, [meta]
    and [links] are dicts. *)
Definition well_formed_page (page : json) : bool :=
  match page with
  | JDict p =>
      match dict_get "meta" p, dict_get "included" p,
            dict_get "data" p, dict_get "links" p with
      | Some (JDict _), Some (JList incs), Some (JList items), Some (JDict _) =>
          forallb has_type_id incs && forallb well_formed_item items
      | _, _, _, _ => false
      end
  | _ => false
  end.

(** [response['data']] as the loop goes through it, the records built
    from it, and whether the links hold [next]. *)
Definition page_items (page : json) : list json :=
  match bind (item page "data") py_iter with
  | Ok l => l
  | Err _ => []
  end.

Definition page_records (page : json) : list record :=
  fst (emit page (page_items page)).

Definition has_next (page : json) : bool :=
  match bind (item page "links") (py_in "next") with
  | Ok b => b
  | Err _ => false
  end.

End Iterate.

(** ** Concrete clients, responses and pages used in the examples *)

Module Fixtures.
Import PyStr Py Pco Iterate.

Definition respond (status : Z) (hdrs : gmap string string) (body : string)
           (parsed : option json) : response :=
  {| status_code := status; headers := hdrs; text := body;
     reason := ""; resp_url := ""; json_body := parsed |}.

Definition ok_response : response := respond 200 ∅ "{}" (Some (JDict [])).

(** A 429 with [Retry-After: v]. *)
Definition throttled (v : string) : response :=
  respond 429 {[ "retry-after" := v ]} "" None.

(** A 429 without a [Retry-After] header. *)
Definition throttled_bare : response := respond 429 ∅ "" None.

Definition not_found : response :=
  {| status_code := 404; headers := ∅; text := "{errors: []}";
     reason := "Not Found"; resp_url := "https://api.planningcenteronline.com/nope";
     json_body := None |}.

(** A client with the defaults of the constructor, a ceiling and a
    network; every file opens and every sleep runs to its end. *)
Definition client (retries : Z) (net : nat -> sent -> result response) : PCO :=
  {| auth_header := "Basic dXNlcjpwdw==";
     api_base := Url.default_api_base;
     timeout := 60;
     upload_url := "https://upload.planningcenteronline.com/v2/files";
     upload_timeout := 300;
     timeout_retries := retries;
     session := net;
     open_error := fun _ => None;
     sleep_error := fun _ _ => None |}.

Definition always_timeout : nat -> sent -> result response :=
  fun _ _ => Err (Timeout "read timed out").

(** [k] timeouts, then 200. *)
Definition timeouts_then_ok (k : nat) : nat -> sent -> result response :=
  fun n _ => if (n <? k)%nat then Err (Timeout "read timed out") else Ok ok_response.

(** The responses of [l] in turn, then 200. *)
Definition replay (l : list response) : nat -> sent -> result response :=
  fun n _ => Ok (nth n l ok_response).

Definition people : call :=
  {| method := "GET"; url := "/people/v2/people"; payload := None;
     upload := JNull; params := [] |}.

End Fixtures.

(** ** Pages used in the examples *)

Module Pages.
Import Py Iterate.

Definition reference (type id : string) : json :=
  JDict [("type", JStr type); ("id", JStr id)].

Definition resource (type id name : string) : json :=
  JDict [("type", JStr type); ("id", JStr id);
         ("attributes", JDict [("name", JStr name)])].

Definition campus : json := resource "Campus" "10" "North".
Definition email_a : json := resource "Email" "100" "a@example.com".
Definition email_b : json := resource "Email" "101" "b@example.com".

Definition person (id : string) (relationships : list (string * json)) : json :=
  JDict [("type", JStr "Person"); ("id", JStr id);
         ("attributes", JDict []);
         ("relationships", JDict relationships)].

(** A single reference first, a list of two references second. *)
Definition alice : json :=
  person "1"
    [("emails", JDict [("data", JList [reference "Email" "101";
                                       reference "Email" "100"])]);
     ("primary_campus", JDict [("data", reference "Campus" "10")])].

(** No campus, one email. *)
Definition bob : json :=
  person "2"
    [("primary_campus", JDict [("data", JNull)]);
     ("emails", JDict [("data", JList [reference "Email" "101"])])].

Definition carol : json := person "3" [].

Definition page_meta : json :=
  JDict [("total_count", JNum 3);
         ("can_include", JList [JStr "emails"; JStr "primary_campus"]);
         ("parent", reference "Organization" "1")].

(** Two items, three included objects, a [next] link. *)
Definition page_one : json :=
  JDict [("links", JDict [("self", JStr "/people/v2/people?offset=0");
                          ("next", JStr "/people/v2/people?offset=2")]);
         ("data", JList [alice; bob]);
         ("included", JList [campus; email_a; email_b]);
         ("meta", page_meta)].

(** One item, no [next] link. *)
Definition page_two : json :=
  JDict [("links", JDict [("self", JStr "/people/v2/people?offset=2")]);
         ("data", JList [carol]);
         ("included", JList []);
         ("meta", page_meta)].

Definition page_response (page : json) : Pco.response :=
  Fixtures.respond 200 ∅ "" (Some page).

(** A person whose relationship comes with links only, without [data]. *)
Definition dave : json :=
  person "4"
    [("emails", JDict [("links", JDict [("related",
                                         JStr "/people/v2/people/4/emails")])])].

(** Like [page_one] without its [next] link, with [dave] after [alice]. *)
Definition page_links_only : json :=
  JDict [("links", JDict [("self", JStr "/people/v2/people?offset=0")]);
         ("data", JList [alice; dave]);
         ("included", JList [campus; email_a; email_b]);
         ("meta", page_meta)].

(** A person whose relationship is the reference itself, not wrapped in
    a mapping with a [data] member. *)
Definition erin : json :=
  person "5" [("primary_campus", reference "Campus" "10")].

(** A page that holds [erin] alone. *)
Definition page_bare_reference : json :=
  JDict [("links", JDict [("self", JStr "/people/v2/people?offset=0")]);
         ("data", JList [erin]);
         ("included", JList [campus]);
         ("meta", page_meta)].

(** A first page with a [next] link and no [meta]. *)
Definition page_without_meta : json :=
  JDict [("links", JDict [("self", JStr "/people/v2/people?offset=0");
                          ("next", JStr "/people/v2/people?offset=2")]);
         ("data", JList [carol]);
         ("included", JList [])].

(** A server that answers by the offset asked for and nothing else:
    [page_one] at 0, [page_two] at 2, 404 for any other request. *)
Definition by_offset : nat -> Pco.sent -> Py.result Pco.response :=
  fun _ rq =>
    match dict_get "offset" (Pco.s_params rq), dict_get "per_page" (Pco.s_params rq) with
    | Some (JNum 0), Some (JNum 2) => Ok (page_response page_one)
    | Some (JNum 2), Some (JNum 2) => Ok (page_response page_two)
    | _, _ => Ok Fixtures.not_found
    end.

End Pages.

(** ** More about URLs *)

Module UrlAux.
Import PyStr.

(** [s.replace('/', '')] *)
Fixpoint strip_slashes (s : string) : string :=
  match s with
  | EmptyString => EmptyString
  | String c t =>
      if Ascii.eqb c slash then strip_slashes t else String c (strip_slashes t)
  end.

End UrlAux.

(** ** The verb methods, [upload] and [template] *)

Module Verbs.
Import PyStr Py Pco.

(** [post(url, payload=None, **params)]:
    [self.request_json('POST', url, payload, **params)] *)
Definition post (self : PCO) (fuel : nat) (url : string) (payload : option json)
           (params : list (string * json)) (w : world) : outcome json * world :=
  match bind_keywords "PCO.request_json" ["self"; "method"; "url"; "payload"]
                      "POST" url payload JNull params with
  | Err e => (Raise e, w)
  | Ok c => request_json self fuel c w
  end.

(** [patch(url, payload=None, **params)] *)
Definition patch (self : PCO) (fuel : nat) (url : string) (payload : option json)
           (params : list (string * json)) (w : world) : outcome json * world :=
  match bind_keywords "PCO.request_json" ["self"; "method"; "url"; "payload"]
                      "PATCH" url payload JNull params with
  | Err e => (Raise e, w)
  | Ok c => request_json self fuel c w
  end.

(** [delete(url, **params)]: the response object, not its payload. *)
Definition delete (self : PCO) (fuel : nat) (url : string)
           (params : list (string * json)) (w : world) : outcome response * world :=
  match bind_keywords "PCO.request_response" ["self"; "method"; "url"]
                      "DELETE" url None JNull params with
  | Err e => (Raise e, w)
  | Ok c => request_response self fuel c w
  end.

(** [upload(file_path, **params)]:
    [self.request_json('POST', self.upload_url, upload=file_path, **params)].
    A key [upload] among the params clashes with the keyword already
    written in the call. *)
Definition upload (self : PCO) (fuel : nat) (file_path : string)
           (params : list (string * json)) (w : world) : outcome json * world :=
  match dict_get "upload" params with
  | Some _ =>
      (Raise (TypeError ("pypco.pco.PCO.request_json() got multiple values for "
                         +:+ "keyword argument 'upload'")), w)
  | None =>
      match bind_keywords "PCO.request_json" ["self"; "method"; "url"; "upload"]
                          "POST" (upload_url self) None (JStr file_path) params with
      | Err e => (Raise e, w)
      | Ok c => request_json self fuel c w
      end
  end.

(** [template(object_type, attributes=None)] *)
Definition template (object_type : string) (attributes : option json) : json :=
  JDict [("data",
          JDict [("type", JStr object_type);
                 ("attributes", match attributes with
                                | None => JDict []
                                | Some a => a
                                end)])].

(** The headers that every request carries. *)
Definition standard_headers (self : PCO) : list (string * string) :=
  [("User-Agent", "pypco"); ("Authorization", auth_header self)].

(** A request without a file, as [session.request] is to receive it. *)
Definition plain_request (self : PCO) (method url : string)
           (payload : option json) (params : list (string * json)) : sent :=
  {| s_method := method; s_url := url; s_headers := standard_headers self;
     s_params := params; s_json := payload; s_timeout := timeout self;
     s_files := None |}.

(** A status that [raise_for_status] lets through. *)
Definition passes (r : response) : bool :=
  negb ((400 <=? status_code r) && (status_code r <? 600)).

Definition is_timeout (e : exn) : bool :=
  match e with
  | Timeout _ => true
  | _ => false
  end.

End Verbs.

(** ** Runs of [iterate] over several pages *)

Module Paging.
Import Py Pco Iterate.

(** The offset of the request for page [i], counting from 0. *)
Definition page_offset (offset per_page : Z) (i : nat) : Z :=
  offset + Z.of_nat i * per_page.

(** What is observed of page [i]: its request, then its records. *)
Definition page_events (offset per_page : Z) (pages : nat -> json) (i : nat)
  : list event :=
  Fetch (page_offset offset per_page i) per_page
    :: map Yield (page_records (pages i)).

(** The records among the events. *)
Definition yields (evs : list event) : list record :=
  flat_map (fun ev => match ev with Yield r => [r] | Fetch _ _ => [] end) evs.

End Paging.

(** ** The list, person, team and group helpers *)

Module Helpers.
Import PyStr Py Pco Iterate.

Definition NameError (name : string) : exn :=
  Builtin "NameError" ("name '" +:+ name +:+ "' is not defined").

(** [bool(v)], the test of [if v:] *)
Definition py_truthy (v : json) : bool :=
  match v with
  | JNull => false
  | JBool b => b
  | JNum n => negb (n =? 0)
  | JStr s => negb (String.eqb s EmptyString)
  | JList l => match l with [] => false | _ => true end
  | JDict d => match d with [] => false | _ => true end
  end.

(** [str.lower()] on one of the first 256 code points: the letters A to Z
    and the capital letters from 192 to 222, the multiplication sign at 215
    apart. *)
Definition lower_char (c : ascii) : ascii :=
  let n := nat_of_ascii c in
  if ((65 <=? n) && (n <=? 90)
      || (192 <=? n) && (n <=? 222) && negb (n =? 215))%nat
  then ascii_of_nat (n + 32)
  else c.

Fixpoint py_lower (s : string) : string :=
  match s with
  | EmptyString => EmptyString
  | String c t => String (lower_char c) (py_lower t)
  end.

(** [v.lower()] *)
Definition lower_method (v : json) : result json :=
  match v with
  | JStr s => Ok (JStr (py_lower s))
  | _ => Err (Builtin "AttributeError"
                      ("'" +:+ type_name v +:+ "' object has no attribute 'lower'"))
  end.

(** What [\d] matches. *)
Definition is_digit (c : ascii) : bool :=
  match digit_value c with
  | Some _ => true
  | None => false
  end.

(** The matches of [\d+] in [s], each as long as it can be; [run] holds the
    digits of the match under way. *)
Fixpoint digit_runs (run : string) (s : string) : list string :=
  match s with
  | EmptyString =>
      match run with
      | EmptyString => []
      | _ => [run]
      end
  | String c t =>
      if is_digit c then digit_runs (run +:+ String c EmptyString) t
      else match run with
           | EmptyString => digit_runs EmptyString t
           | _ => run :: digit_runs EmptyString t
           end
  end.

(** [re.findall(r'\d+', v)] *)
Definition findall_digits (v : json) : result (list string) :=
  match v with
  | JStr s => Ok (digit_runs EmptyString s)
  | _ => Err (TypeError ("expected string or bytes-like object, got '"
                         +:+ type_name v +:+ "'"))
  end.

(** [''.join(l)] *)
Definition join (l : list string) : string :=
  fold_right String.append EmptyString l.

(** The digits of [s], in order. *)
Fixpoint keep_digits (s : string) : string :=
  match s with
  | EmptyString => EmptyString
  | String c t => if is_digit c then String c (keep_digits t) else keep_digits t
  end.

(** The part of a [for i in self.iterate(...)] loop that one page feeds:
    each record is built when the loop asks for it and handed to the body
    before the next one is built. *)
Fixpoint consume_items {A : Type} (response : json) (items : list json)
         (body : A -> record -> result A) (acc : A) : result A :=
  match items with
  | [] => Ok acc
  | cur :: rest =>
      bind (build_record response cur) (fun r =>
      bind (body acc r) (consume_items response rest body))
  end.

(** [for i in self.iterate(url, offset, per_page, **params): body], the
    body working on the state [acc]. *)
Fixpoint for_each {A : Type} (self : PCO) (inner fuel : nat) (url : string)
         (offset per_page : Z) (params : list (string * json))
         (body : A -> record -> result A) (acc : A) (w : world)
  : outcome A * world :=
  match fuel with
  | O => (Unfinished, w)
  | S fuel' =>
      match get self inner url (page_params offset per_page params) w with
      | (Return response, w1) =>
          match bind (item response "data") py_iter with
          | Err e => (Raise e, w1)
          | Ok items =>
              match consume_items response items body acc with
              | Err e => (Raise e, w1)
              | Ok acc' =>
                  match bind (item response "links") (py_in "next") with
                  | Err e => (Raise e, w1)
                  | Ok true =>
                      for_each self inner fuel' url (offset + per_page) per_page
                               params body acc' w1
                  | Ok false => (Return acc', w1)
                  end
              end
          end
      | (Raise e, w1) => (Raise e, w1)
      | (Unfinished, w1) => (Unfinished, w1)
      end
  end.

(** The body run on records one after the other. *)
Fixpoint run_body {A : Type} (body : A -> record -> result A) (acc : A)
         (rs : list record) : result A :=
  match rs with
  | [] => Ok acc
  | r :: rest => bind (body acc r) (fun acc' => run_body body acc' rest)
  end.

(** [get_list_attr(pco_list_id)]; [JNull] stands for the [None] that a
    function returns when it falls off its end. *)
Definition get_list_attr (self : PCO) (inner : nat) (pco_list_id : Z) (w : world)
  : outcome json * world :=
  let e := "/people/v2/lists/" +:+ pretty pco_list_id in
  match get self inner e [] w with
  | (Return d, w1) =>
      match bind (item d "data") (fun x => item x "type") with
      | Err ex => (Raise ex, w1)
      | Ok t =>
          if py_eq t (JStr "List") then
            match bind (item d "data") (fun x => item x "attributes") with
            | Ok a => (Return a, w1)
            | Err ex => (Raise ex, w1)
            end
          else (Return JNull, w1)
      end
  | other => other
  end.

(** The body of the loop of [get_team_members] and [get_group_members]. *)
Definition collect_person (l : list json) (i : record) : result (list json) :=
  bind (item (data i) "type") (fun t =>
  if py_eq t (JStr "Person")
  then bind (item (data i) "id") (fun x => Ok (l ++ [x]))
  else Ok l).

(** [get_team_members(pco_team_id)]: a generator object is always true, so
    [if d:] is no test. *)
Definition get_team_members (self : PCO) (inner fuel : nat) (pco_team_id : Z)
           (w : world) : outcome (list json) * world :=
  for_each self inner fuel
           ("/services/v2/teams/" +:+ pretty pco_team_id +:+ "/people")
           0 100 [] collect_person [] w.

(** [get_group_members(pco_group_id)] *)
Definition get_group_members (self : PCO) (inner fuel : nat) (pco_group_id : Z)
           (w : world) : outcome (list json) * world :=
  for_each self inner fuel
           ("/groups/v2/groups/" +:+ pretty pco_group_id +:+ "/people")
           0 100 [] collect_person [] w.

(** The body of the loop of [get_list_members]: the dict to append is built
    key after key, and [get_person_email] is a name that the module does not
    define (the method would be [self.get_person_email]). *)
Definition list_member_step (l : list json) (i : record) : result (list json) :=
  bind (item (data i) "type") (fun t =>
  if py_eq t (JStr "Person") then
    bind (item (data i) "id") (fun _ =>
    bind (bind (item (data i) "attributes") (fun a => item a "name")) (fun _ =>
    Err (NameError "get_person_email")))
  else Ok l).

Definition get_list_members (self : PCO) (inner fuel : nat) (pco_list_id : Z)
           (w : world) : outcome (list json) * world :=
  for_each self inner fuel
           ("/people/v2/lists/" +:+ pretty pco_list_id +:+ "/people")
           0 100 [] list_member_step [] w.

(** The body of the loops of [get_teams] and [get_groups]: the name called
    for a record of the wanted type is not defined either. *)
Definition members_step (type missing : string) (l : list json) (i : record)
  : result (list json) :=
  bind (item (data i) "type") (fun t =>
  if py_eq t (JStr type) then Err (NameError missing) else Ok l).

Definition get_teams (self : PCO) (inner fuel : nat) (w : world)
  : outcome (list json) * world :=
  for_each self inner fuel "/services/v2/teams" 0 100 []
           (members_step "Team" "get_pco_team_members") [] w.

Definition get_groups (self : PCO) (inner fuel : nat) (w : world)
  : outcome (list json) * world :=
  for_each self inner fuel "/groups/v2/groups" 0 100 []
           (members_step "Group" "get_pco_group_members") [] w.

(** The loop of [get_person_email] and of [get_person_phone_number]: the
    first item of the wanted type whose [primary] attribute is true gives
    the result, made by [finish] from its attribute [field]; [JNull] when
    the loop ends without one. *)
Fixpoint first_primary (type field : string) (finish : json -> result json)
         (items : list json) : result json :=
  match items with
  | [] => Ok JNull
  | i :: rest =>
      bind (item i "type") (fun t =>
      if py_eq t (JStr type) then
        bind (bind (item i "attributes") (fun a => item a "primary")) (fun p =>
        if py_truthy p
        then bind (bind (item i "attributes") (fun a => item a field)) finish
        else first_primary type field finish rest)
      else first_primary type field finish rest)
  end.

(** [d = self.get(e)], then [if d:] and the loop over [d['data']]. *)
Definition primary_of (self : PCO) (inner : nat) (url type field : string)
           (finish : json -> result json) (w : world) : outcome json * world :=
  match get self inner url [] w with
  | (Return d, w1) =>
      if py_truthy d then
        match bind (bind (item d "data") py_iter)
                   (first_primary type field finish) with
        | Ok v => (Return v, w1)
        | Err ex => (Raise ex, w1)
        end
      else (Return JNull, w1)
  | other => other
  end.

(** [get_person_email(pco_person_id)] *)
Definition get_person_email (self : PCO) (inner : nat) (pco_person_id : Z)
           (w : world) : outcome json * world :=
  primary_of self inner ("/people/v2/people/" +:+ pretty pco_person_id +:+ "/emails")
             "Email" "address" lower_method w.

(** [get_person_phone_number(pco_person_id)] *)
Definition get_person_phone_number (self : PCO) (inner : nat) (pco_person_id : Z)
           (w : world) : outcome json * world :=
  primary_of self inner
             ("/people/v2/people/" +:+ pretty pco_person_id +:+ "/phone_numbers")
             "PhoneNumber" "number"
             (fun number => bind (findall_digits number)
                                 (fun l => Ok (JStr (join l)))) w.

(** The ids of the records of type [Person], in order. *)
Definition person_ids (rs : list record) : list json :=
  flat_map (fun r => match item (data r) "type", item (data r) "id" with
                     | Ok t, Ok x => if py_eq t (JStr "Person") then [x] else []
                     | _, _ => []
                     end) rs.

(** An item that the loop of [first_primary] passes over. *)
Definition passed_over (type : string) (i : json) : bool :=
  match item i "type" with
  | Ok t =>
      if py_eq t (JStr type) then
        match bind (item i "attributes") (fun a => item a "primary") with
        | Ok p => negb (py_truthy p)
        | Err _ => false
        end
      else true
  | Err _ => false
  end.

(** An item of the wanted type, marked primary, whose [field] is [v]. *)
Definition primary_with (type field : string) (v i : json) : Prop :=
  (exists t, item i "type" = Ok t /\ py_eq t (JStr type) = true) /\
  (exists p, bind (item i "attributes") (fun a => item a "primary") = Ok p /\
             py_truthy p = true) /\
  bind (item i "attributes") (fun a => item a field) = Ok v.

(** Items of answers used in the examples. *)
Definition email_item (address : string) (primary : bool) : json :=
  JDict [("type", JStr "Email"); ("id", JStr "9");
         ("attributes", JDict [("address", JStr address);
                               ("primary", JBool primary)])].

Definition phone_item (number : string) (primary : bool) : json :=
  JDict [("type", JStr "PhoneNumber"); ("id", JStr "7");
         ("attributes", JDict [("number", JStr number);
                               ("primary", JBool primary)])].

End Helpers.

Module UrlFacts.
Import PyStr Url.

Lemma app_cons (x : ascii) (a b : string) :
  String x a +:+ b = String x (a +:+ b).
Proof. reflexivity. Qed.

Lemma app_nil_l (b : string) : EmptyString +:+ b = b.
Proof. reflexivity. Qed.

Lemma app_assoc_str (a b c : string) : (a +:+ b) +:+ c = a +:+ (b +:+ c).
Proof.
  induction a as [|x a IH]; [reflexivity|].
  rewrite !app_cons. now rewrite IH.
Qed.

Lemma prefix_app (p r : string) : String.prefix p (p +:+ r) = true.
Proof.
  induction p as [|x p IH].
  - now destruct r.
  - rewrite app_cons. simpl.
    destruct (ascii_dec x x) as [_|n]; [exact IH | now destruct n].
Qed.

Lemma prefix_inv (p s : string) :
  String.prefix p s = true -> exists r, s = p +:+ r.
Proof.
  revert s; induction p as [|x p IH]; intros s H.
  - now exists s.
  - destruct s as [|y s]; simpl in H; [discriminate|].
    destruct (ascii_dec x y) as [->|]; [|discriminate].
    destruct (IH s H) as [r ->]. now exists r.
Qed.

Lemma squeeze_no_slash_head (b b' : nat) (s : string) :
  first_char s <> Some slash -> squeeze b s = squeeze b' s.
Proof.
  destruct s as [|c t]; simpl; [reflexivity|].
  intros H. destruct (Ascii.eqb_spec c slash) as [->|]; [now destruct H | reflexivity].
Qed.

Lemma slash_run_0 (s : string) :
  slash_run s = O -> first_char s <> Some slash.
Proof.
  destruct s as [|c t]; simpl; [discriminate|].
  destruct (Ascii.eqb_spec c slash); [discriminate | congruence].
Qed.

Lemma match_at_slash (prev : option ascii) (t : string) :
  match_at prev (String slash t)
  = if match prev with Some p => Ascii.eqb p colon | None => false end
    then None
    else match slash_run t with
         | O => None
         | S k => Some (S (S k))
         end.
Proof.
  unfold match_at. cbn [slash_run]. rewrite Ascii.eqb_refl.
  destruct (match prev with Some p => Ascii.eqb p colon | None => false end);
    [reflexivity|].
  now destruct (slash_run t).
Qed.

Lemma match_at_other (prev : option ascii) (c : ascii) (t : string) :
  Ascii.eqb c slash = false -> match_at prev (String c t) = None.
Proof.
  intros Hc. unfold match_at. cbn [slash_run]. rewrite Hc.
  now destruct (match prev with Some p => Ascii.eqb p colon | None => false end).
Qed.

(** The scanning substitution and the one-pass filter agree. *)
Lemma re_sub_squeeze (s : string) :
  (forall prev, re_sub O prev s = squeeze (budget_after_char prev) s) /\
  (forall prev, re_sub (slash_run s) prev s = squeeze O s).
Proof.
  induction s as [|c t [IH1 IH2]]; [now split|].
  destruct (Ascii.eqb c slash) eqn:Hc.
  - apply Ascii.eqb_eq in Hc; subst c. split; intros prev.
    + cbn [re_sub squeeze]. rewrite match_at_slash, Ascii.eqb_refl.
      unfold budget_after_char.
      assert (Hone : String slash (re_sub (slash_run t) (Some slash) t)
                     = String slash (squeeze O t)) by now rewrite IH2.
      assert (Hrun : forall k, slash_run t = S k ->
                String slash (re_sub (S (S k) - 1) (Some slash) t)
                = String slash (squeeze O t)).
      { intros k Hk. replace (S (S k) - 1)%nat with (slash_run t) by lia.
        exact Hone. }
      assert (Hlone : slash_run t = O ->
                String slash (re_sub O (Some slash) t)
                = String slash (squeeze O t)).
      { intros Hk. rewrite IH1. f_equal.
        apply squeeze_no_slash_head, slash_run_0, Hk. }
      destruct prev as [p|]; [destruct (Ascii.eqb p colon)|].
      * now rewrite IH1.
      * destruct (slash_run t) as [|k] eqn:Hk; [now apply Hlone | now apply Hrun].
      * destruct (slash_run t) as [|k] eqn:Hk; [now apply Hlone | now apply Hrun].
    + cbn [slash_run]. rewrite Ascii.eqb_refl.
      cbn [re_sub squeeze]. rewrite Ascii.eqb_refl. apply IH2.
  - assert (Hcopy : forall prev, re_sub O prev (String c t)
              = String c (squeeze (if Ascii.eqb c colon then 2 else 1) t)).
    { intros prev. cbn [re_sub]. rewrite (match_at_other prev c t Hc).
      now rewrite IH1. }
    split; intros prev.
    + rewrite Hcopy. cbn [squeeze]. now rewrite Hc.
    + cbn [slash_run]. rewrite Hc, Hcopy. cbn [squeeze]. now rewrite Hc.
Qed.

Lemma collapse_squeeze (s : string) : collapse_slashes s = squeeze 1 s.
Proof. apply (proj1 (re_sub_squeeze s) None). Qed.

Lemma squeeze_idem (s : string) :
  forall b, squeeze b (squeeze b s) = squeeze b s.
Proof.
  induction s as [|c t IH]; intros b; [reflexivity|].
  cbn [squeeze]. destruct (Ascii.eqb c slash) eqn:Hc.
  - destruct b as [|b]; [apply IH|].
    cbn [squeeze]. rewrite Hc. now rewrite IH.
  - cbn [squeeze]. rewrite Hc. now rewrite IH.
Qed.

Lemma squeeze_length (s : string) :
  forall b, (String.length (squeeze b s) <= String.length s)%nat.
Proof.
  induction s as [|c t IH]; intros b; [reflexivity|].
  cbn [squeeze]. destruct (Ascii.eqb c slash).
  - destruct b as [|b]; cbn [String.length].
    + specialize (IH O). lia.
    + specialize (IH b). lia.
  - cbn [String.length]. specialize (IH (if Ascii.eqb c colon then 2 else 1)%nat). lia.
Qed.

Lemma squeeze_app (a s : string) :
  forall b, squeeze b (a +:+ s) = squeeze b a +:+ squeeze (budget_after b a) s.
Proof.
  induction a as [|c t IH]; intros b; [reflexivity|].
  rewrite app_cons. cbn [squeeze budget_after].
  destruct (Ascii.eqb c slash).
  - destruct b as [|b]; cbn [Nat.pred]; [apply IH|].
    rewrite app_cons. now rewrite IH.
  - rewrite app_cons. now rewrite IH.
Qed.

Lemma budget_after_last (a : string) (x : ascii) :
  last_char a = Some x -> x <> slash -> x <> colon ->
  forall b, budget_after b a = 1%nat.
Proof.
  intros Hl Hs Hc. induction a as [|c t IH]; [discriminate|].
  intros b. cbn [budget_after]. destruct t as [|d t'].
  - cbn in Hl. injection Hl as ->. cbn [budget_after].
    destruct (Ascii.eqb_spec x slash); [contradiction|].
    now destruct (Ascii.eqb_spec x colon).
  - apply IH. exact Hl.
Qed.

Lemma squeeze_run (n : nat) (post : string) :
  squeeze 1 (repeat_char slash (S n) +:+ post) = String slash (squeeze O post).
Proof.
  cbn [repeat_char]. rewrite app_cons. cbn [squeeze]. rewrite Ascii.eqb_refl.
  f_equal. induction n as [|n IH]; [reflexivity|].
  cbn [repeat_char]. rewrite app_cons. cbn [squeeze]. now rewrite Ascii.eqb_refl.
Qed.

(** A string that the filter leaves alone stays a prefix of what the
    filter makes of any extension of it. *)
Lemma squeeze_fixed_app (base r : string) :
  forall b, squeeze b base = base ->
            squeeze b (base +:+ r) = base +:+ squeeze (budget_after b base) r.
Proof.
  intros b H. rewrite squeeze_app. now rewrite H.
Qed.

Lemma squeeze_no_double (s : string) :
  has_double_slash s = false ->
  forall b, (1 <= b)%nat \/ first_char s <> Some slash -> squeeze b s = s.
Proof.
  induction s as [|c t IH]; intros Hd b Hb; [reflexivity|].
  cbn [has_double_slash] in Hd. apply orb_false_iff in Hd as [Hh Ht].
  cbn [squeeze]. destruct (Ascii.eqb c slash) eqn:Hc.
  - apply Ascii.eqb_eq in Hc; subst c.
    destruct Hb as [Hb|Hb]; [|now destruct Hb].
    destruct b as [|b]; [lia|]. f_equal. apply IH; [exact Ht|].
    right. destruct t as [|d t']; [discriminate|].
    cbn in Hh |- *. intros [= ->]. now rewrite Ascii.eqb_refl in Hh.
  - f_equal. apply IH; [exact Ht|]. left. destruct (Ascii.eqb c colon); lia.
Qed.

Lemma after_qmark_squeeze (s q : string) :
  after_qmark s = Some q ->
  forall b, after_qmark (squeeze b s) = Some (squeeze 1 q).
Proof.
  induction s as [|c t IH]; intros Hq b; [discriminate|].
  cbn [after_qmark] in Hq. cbn [squeeze].
  destruct (Ascii.eqb c qmark) eqn:Hc.
  - apply Ascii.eqb_eq in Hc; subst c. injection Hq as <-. reflexivity.
  - destruct (Ascii.eqb c slash).
    + destruct b as [|b]; [now apply IH|].
      cbn [after_qmark]. rewrite Hc. now apply IH.
    + cbn [after_qmark]. rewrite Hc. now apply IH.
Qed.

Lemma after_qmark_app (a s : string) :
  has_char qmark a = false -> after_qmark (a +:+ s) = after_qmark s.
Proof.
  induction a as [|c t IH]; intros H; [reflexivity|].
  cbn [has_char] in H. apply orb_false_iff in H as [Hc Ht].
  rewrite app_cons. cbn [after_qmark]. rewrite Hc. now apply IH.
Qed.

(** Once the base URL is itself free of collapsible runs, cleaning keeps
    it in front and cleans the rest with the budget the base leaves. *)
Lemma clean_url_shape (api_base u : string) :
  collapse_slashes api_base = api_base ->
  exists rest,
    clean_url api_base u
    = api_base +:+ squeeze (budget_after 1 api_base) rest /\
    absolute api_base u = api_base +:+ rest.
Proof.
  intros Hb. rewrite collapse_squeeze in Hb.
  unfold clean_url, absolute, startswith.
  destruct (String.prefix api_base u) eqn:Hp.
  - destruct (prefix_inv _ _ Hp) as [r ->]. exists r.
    now rewrite collapse_squeeze, squeeze_fixed_app.
  - exists u. now rewrite collapse_squeeze, squeeze_fixed_app.
Qed.

Lemma clean_url_idempotent (api_base u : string) :
  collapse_slashes api_base = api_base ->
  clean_url api_base (clean_url api_base u) = clean_url api_base u.
Proof.
  intros Hb. destruct (clean_url_shape api_base u Hb) as (rest & -> & _).
  unfold clean_url at 1, absolute, startswith. rewrite prefix_app.
  rewrite collapse_squeeze in *.
  rewrite squeeze_fixed_app by exact Hb. now rewrite squeeze_idem.
Qed.

Lemma budget_after_boundary (pre : string) :
  last_char pre <> Some colon -> last_char pre <> Some slash ->
  budget_after 1 pre = 1%nat.
Proof.
  intros Hc Hs. destruct (last_char pre) as [x|] eqn:Hl.
  - apply (budget_after_last pre x Hl); congruence.
  - destruct pre as [|c t]; [reflexivity|]. exfalso.
    clear Hc Hs. revert c Hl. induction t as [|d t IH]; intros c Hl.
    + discriminate.
    + apply (IH d). exact Hl.
Qed.

(** C7, as the code has it.  Cleaning a URL puts the base URL in front of
    it exactly when it does not start with the base URL already; every run
    of [n >= 2] slashes of the absolute URL that follows neither a colon nor
    a slash comes out as exactly one slash, the text before and after it
    being cleaned on its own; and the cleaned URL starts with the base URL
    provided that the base URL is itself left unchanged by the slash
    substitution. *)
Theorem clean_url_prefix_and_runs (api_base u : string) :
  (startswith u api_base = true -> absolute api_base u = u) /\
  (startswith u api_base = false -> absolute api_base u = api_base +:+ u) /\
  (forall (pre post : string) (n : nat),
      (2 <= n)%nat ->
      absolute api_base u = pre +:+ repeat_char slash n +:+ post ->
      last_char pre <> Some colon ->
      last_char pre <> Some slash ->
      first_char post <> Some slash ->
      clean_url api_base u
      = collapse_slashes pre +:+ String slash (collapse_slashes post)) /\
  (collapse_slashes api_base = api_base ->
   startswith (clean_url api_base u) api_base = true).
Proof.
  split; [|split; [|split]].
  - intros H. unfold absolute. now rewrite H.
  - intros H. unfold absolute. now rewrite H.
  - intros pre post n Hn Habs Hc Hs Hp.
    unfold clean_url. rewrite Habs, !collapse_squeeze, squeeze_app.
    rewrite (budget_after_boundary pre Hc Hs).
    destruct n as [|n]; [lia|]. rewrite squeeze_run.
    now rewrite (squeeze_no_slash_head O 1 post Hp).
  - intros Hb. destruct (clean_url_shape api_base u Hb) as (rest & -> & _).
    apply prefix_app.
Qed.

Lemma clean_url_prefix_and_runs_witness :
  collapse_slashes default_api_base = default_api_base /\
  startswith (clean_url default_api_base "/people///v2") default_api_base = true /\
  clean_url default_api_base "/people///v2"
  = collapse_slashes (default_api_base +:+ "/people")
    +:+ String slash (collapse_slashes "v2").
Proof.
  pose proof (clean_url_prefix_and_runs default_api_base "/people///v2")
    as (_ & _ & Hrun & Hpre).
  split; [reflexivity|]. split; [apply Hpre; reflexivity|].
  apply (Hrun (default_api_base +:+ "/people") "v2" 3%nat);
    [lia | reflexivity | discriminate | discriminate | discriminate].
Defined.

(** The run of the example comes out as one slash. *)
Example clean_url_example :
  clean_url default_api_base "/people///v2"
  = "https://api.planningcenteronline.com/people/v2" /\
  clean_url default_api_base "https://api.planningcenteronline.com//people/v2/"
  = "https://api.planningcenteronline.com/people/v2/".
Proof. split; reflexivity. Qed.

(** C7 as stated fails for a base URL that itself holds a run of slashes:
    the run inside the base is collapsed too, and the cleaned URL no longer
    starts with the base. *)
Lemma clean_url_loses_prefix :
  clean_url "https://example.com//api" "/people" = "https://example.com/api/people" /\
  startswith (clean_url "https://example.com//api" "/people")
             "https://example.com//api" = false.
Proof. split; reflexivity. Qed.

(** C8, as the code has it.  When the base URL holds no question mark,
    what follows the first question mark of the cleaned URL is the slash
    substitution applied to what followed the first question mark of the
    URL given; it is the same text whenever that text has no two slashes
    in a row. *)
Theorem clean_url_query (api_base u q : string) :
  has_char qmark api_base = false ->
  after_qmark u = Some q ->
  after_qmark (clean_url api_base u) = Some (collapse_slashes q) /\
  (has_double_slash q = false -> after_qmark (clean_url api_base u) = Some q).
Proof.
  intros Hb Hq.
  assert (Habs : after_qmark (absolute api_base u) = Some q).
  { unfold absolute. destruct (startswith u api_base); [exact Hq|].
    now rewrite after_qmark_app. }
  assert (H : after_qmark (clean_url api_base u) = Some (collapse_slashes q)).
  { unfold clean_url. rewrite !collapse_squeeze.
    now apply after_qmark_squeeze. }
  split; [exact H|].
  intros Hd. rewrite H, collapse_squeeze.
  rewrite (squeeze_no_double q Hd 1%nat); [reflexivity | left; lia].
Qed.

Lemma clean_url_query_witness :
  has_char qmark default_api_base = false /\
  after_qmark "/people/v2//people?where[name]=a/b" = Some "where[name]=a/b" /\
  after_qmark (clean_url default_api_base "/people/v2//people?where[name]=a/b")
  = Some "where[name]=a/b".
Proof.
  split; [reflexivity|]. split; [reflexivity|].
  apply (clean_url_query default_api_base
           "/people/v2//people?where[name]=a/b" "where[name]=a/b");
    reflexivity.
Defined.

(** C8 as stated fails: slashes are collapsed inside the query string as
    anywhere else. *)
Lemma clean_url_alters_query :
  after_qmark "/people?next=a//b" = Some "next=a//b" /\
  after_qmark (clean_url default_api_base "/people?next=a//b") = Some "next=a/b".
Proof. split; reflexivity. Qed.

(** C9.  With the default base URL, cleaning a cleaned URL changes
    nothing, and a URL that already starts with the base URL only has its
    slashes collapsed. *)
Theorem clean_url_default_idempotent (u : string) :
  clean_url default_api_base (clean_url default_api_base u)
  = clean_url default_api_base u /\
  clean_url default_api_base (default_api_base +:+ u)
  = collapse_slashes (default_api_base +:+ u).
Proof.
  split.
  - apply clean_url_idempotent. reflexivity.
  - unfold clean_url, absolute, startswith. now rewrite prefix_app.
Qed.

End UrlFacts.

Module PcoFacts.
Import PyStr Py Pco Verbs.

Lemma advance_0 (w : world) : advance 0 w = w.
Proof. destruct w as [n l]. unfold advance. cbn. f_equal. lia. Qed.

Lemma advance_S (k : nat) (w : world) :
  advance k {| transport_calls := S (transport_calls w); slept := slept w |}
  = advance (S k) w.
Proof. unfold advance. cbn. f_equal. lia. Qed.

(** One iteration of the timeout loop, by the outcome of the attempt. *)
Lemma timeout_loop_ok (self : PCO) (fuel : nat) (tc : Z) (c : call)
      (w : world) (r : response) :
  _do_request self (transport_calls w) c = Ok r ->
  timeout_loop self (S fuel) tc c w = (Return r, advance 1 w).
Proof.
  intros H. cbn [timeout_loop]. rewrite H. unfold advance.
  do 2 f_equal. lia.
Qed.

Lemma timeout_loop_again (self : PCO) (fuel : nat) (tc : Z) (c : call)
      (w : world) (m : string) :
  _do_request self (transport_calls w) c = Err (Timeout m) ->
  tc + 1 <> timeout_retries self ->
  timeout_loop self (S fuel) tc c w
  = timeout_loop self fuel (tc + 1) c (advance 1 w).
Proof.
  intros H Hne. cbn [timeout_loop]. rewrite H.
  destruct (Z.eqb_spec (tc + 1) (timeout_retries self)); [contradiction|].
  unfold advance. do 2 f_equal. lia.
Qed.

Lemma timeout_loop_ceiling (self : PCO) (fuel : nat) (tc : Z) (c : call)
      (w : world) (m : string) :
  _do_request self (transport_calls w) c = Err (Timeout m) ->
  tc + 1 = timeout_retries self ->
  timeout_loop self (S fuel) tc c w
  = (Raise (PCORequestTimeoutException
              (timeout_message (url c) (timeout_retries self)) (Timeout m)),
     advance 1 w).
Proof.
  intros H He. cbn [timeout_loop]. rewrite H, He, Z.eqb_refl.
  unfold advance. do 2 f_equal. lia.
Qed.

Lemma advance_advance (j k : nat) (w : world) :
  advance j (advance k w) = advance (k + j) w.
Proof. unfold advance. cbn. f_equal. lia. Qed.

(** [k] timeouts in a row that stay clear of the ceiling cost [k]
    iterations and [k] attempts. *)
Lemma timeout_loop_skip (self : PCO) (c : call) (k : nat) :
  forall (fuel : nat) (tc : Z) (w : world),
    (forall i, (i < k)%nat ->
               exists m, _do_request self (transport_calls w + i) c = Err (Timeout m)) ->
    (forall i, (i < k)%nat -> tc + Z.of_nat i + 1 <> timeout_retries self) ->
    timeout_loop self (k + fuel) tc c w
    = timeout_loop self fuel (tc + Z.of_nat k) c (advance k w).
Proof.
  induction k as [|k IH]; intros fuel tc w Hto Hne.
  - cbn [Nat.add]. now rewrite advance_0, Z.add_0_r.
  - destruct (Hto O ltac:(lia)) as [m Hm]. rewrite Nat.add_0_r in Hm.
    cbn [Nat.add]. rewrite (timeout_loop_again self _ tc c w m Hm).
    2:{ specialize (Hne O ltac:(lia)). cbn in Hne. lia. }
    rewrite IH.
    + rewrite advance_advance.
      replace (tc + 1 + Z.of_nat k) with (tc + Z.of_nat (S k)) by lia.
      reflexivity.
    + intros i Hi. destruct (Hto (S i) ltac:(lia)) as [m' Hm'].
      exists m'. cbn. rewrite <- Hm'. f_equal. lia.
    + intros i Hi. specialize (Hne (S i) ltac:(lia)). lia.
Qed.

Lemma timeout_loop_recovers (self : PCO) (c : call) (w : world)
      (k fuel : nat) (r : response) :
  Z.of_nat k < timeout_retries self ->
  (forall i, (i < k)%nat ->
             exists m, _do_request self (transport_calls w + i) c = Err (Timeout m)) ->
  _do_request self (transport_calls w + k) c = Ok r ->
  (k < fuel)%nat ->
  _do_timeout_managed_request self fuel c w = (Return r, advance (S k) w).
Proof.
  intros Hk Hto Hok Hfuel. unfold _do_timeout_managed_request.
  replace fuel with (k + S (fuel - S k))%nat by lia.
  rewrite timeout_loop_skip; [|exact Hto|intros i Hi; lia].
  rewrite (timeout_loop_ok self _ _ c (advance k w) r Hok).
  rewrite advance_advance. do 2 f_equal. lia.
Qed.

Lemma timeout_loop_gives_up (self : PCO) (c : call) (w : world) (fuel : nat) :
  1 <= timeout_retries self ->
  (forall i, Z.of_nat i < timeout_retries self ->
             exists m, _do_request self (transport_calls w + i) c = Err (Timeout m)) ->
  Z.of_nat fuel >= timeout_retries self ->
  exists m,
    _do_request self (transport_calls w + Z.to_nat (timeout_retries self - 1)) c
    = Err (Timeout m) /\
    _do_timeout_managed_request self fuel c w
    = (Raise (PCORequestTimeoutException
                (timeout_message (url c) (timeout_retries self)) (Timeout m)),
       advance (Z.to_nat (timeout_retries self)) w).
Proof.
  intros Hpos Hto Hfuel. unfold _do_timeout_managed_request.
  set (k := Z.to_nat (timeout_retries self - 1)).
  destruct (Hto k ltac:(lia)) as [m Hm]. exists m. split; [exact Hm|].
  replace fuel with (k + S (fuel - S k))%nat by lia.
  rewrite timeout_loop_skip;
    [|intros i Hi; apply Hto; lia|intros i Hi; lia].
  rewrite (timeout_loop_ceiling self _ _ c (advance k w) m Hm) by lia.
  rewrite advance_advance. do 2 f_equal. lia.
Qed.

Lemma timeout_loop_never_ends (self : PCO) (c : call) (w : world) (fuel : nat) :
  timeout_retries self <= 0 ->
  (forall i, exists m, _do_request self (transport_calls w + i) c = Err (Timeout m)) ->
  _do_timeout_managed_request self fuel c w = (Unfinished, advance fuel w).
Proof.
  intros Hle Hto. unfold _do_timeout_managed_request.
  replace fuel with (fuel + 0)%nat at 1 by lia.
  rewrite timeout_loop_skip; [reflexivity|intros i _; apply Hto|intros i _; lia].
Qed.

(** C2.  With a ceiling of at least one: when the first [k] attempts time
    out, [k] being below the ceiling, and the next attempt returns a
    response, the wrapper returns that response after [k + 1] calls of the
    transport, that is after [k] retries; when as many attempts as the
    ceiling time out, the wrapper raises [PCORequestTimeoutException] after
    exactly that many calls of the transport and no more.  The message of
    the exception is the text of line 155 with the URL between double quotes
    and the ceiling in decimal; its cause is the timeout of the last
    attempt. *)
Theorem timeout_wrapper_retries (self : PCO) (c : call) (w : world) (fuel : nat) :
  1 <= timeout_retries self ->
  (forall (k : nat) (r : response),
      Z.of_nat k < timeout_retries self ->
      (forall i, (i < k)%nat ->
                 exists m, _do_request self (transport_calls w + i) c = Err (Timeout m)) ->
      _do_request self (transport_calls w + k) c = Ok r ->
      (k < fuel)%nat ->
      _do_timeout_managed_request self fuel c w = (Return r, advance (S k) w)) /\
  ((forall i, Z.of_nat i < timeout_retries self ->
              exists m, _do_request self (transport_calls w + i) c = Err (Timeout m)) ->
   Z.of_nat fuel >= timeout_retries self ->
   exists m,
     _do_request self (transport_calls w + Z.to_nat (timeout_retries self - 1)) c
     = Err (Timeout m) /\
     _do_timeout_managed_request self fuel c w
     = (Raise (PCORequestTimeoutException
                 ("The request to " +:+ String (ascii_of_nat 34) (url c)
                  +:+ String (ascii_of_nat 34) " timed out after "
                  +:+ pretty (timeout_retries self) +:+ " tries.")
                 (Timeout m)),
        advance (Z.to_nat (timeout_retries self)) w)).
Proof.
  intros Hpos. split.
  - intros k r. apply timeout_loop_recovers.
  - intros Hto Hfuel.
    destruct (timeout_loop_gives_up self c w fuel Hpos Hto Hfuel) as (m & Hlast & Hrun).
    exists m. split; [exact Hlast|]. rewrite Hrun. reflexivity.
Qed.

Lemma timeout_wrapper_retries_witness :
  1 <= timeout_retries (Fixtures.client 3 (Fixtures.timeouts_then_ok 2)) /\
  _do_timeout_managed_request (Fixtures.client 3 (Fixtures.timeouts_then_ok 2))
                              5 Fixtures.people initial_world
  = (Return Fixtures.ok_response, advance 3 initial_world) /\
  exists m,
    _do_request (Fixtures.client 3 Fixtures.always_timeout)
                (transport_calls initial_world + Z.to_nat (3 - 1)) Fixtures.people
    = Err (Timeout m) /\
    _do_timeout_managed_request (Fixtures.client 3 Fixtures.always_timeout)
                                5 Fixtures.people initial_world
    = (Raise (PCORequestTimeoutException
                ("The request to " +:+ String (ascii_of_nat 34) "/people/v2/people"
                 +:+ String (ascii_of_nat 34) " timed out after " +:+ "3" +:+ " tries.")
                (Timeout m)),
       advance 3 initial_world).
Proof.
  split; [cbn; lia|]. split.
  - refine (proj1 (timeout_wrapper_retries
                     (Fixtures.client 3 (Fixtures.timeouts_then_ok 2))
                     Fixtures.people initial_world 5 _) 2%nat _ _ _ _ _).
    + cbn; lia.
    + cbn; lia.
    + intros i Hi. exists "read timed out".
      destruct i as [|[|i]]; [reflexivity | reflexivity | lia].
    + reflexivity.
    + lia.
  - refine (proj2 (timeout_wrapper_retries
                     (Fixtures.client 3 Fixtures.always_timeout)
                     Fixtures.people initial_world 5 _) _ _).
    + cbn; lia.
    + intros i Hi. exists "read timed out". reflexivity.
    + cbn; lia.
Defined.

(** The message at the default ceiling, piece by piece. *)
Example timeout_message_example :
  timeout_message "https://api.planningcenteronline.com/people/v2/people" 3
  = String.concat EmptyString
      ["The request to "; String (ascii_of_nat 34) EmptyString;
       "https://api.planningcenteronline.com/people/v2/people";
       String (ascii_of_nat 34) EmptyString; " timed out after 3 tries."].
Proof. reflexivity. Qed.

Lemma timeout_loop_raises_from_transport (self : PCO) (c : call) (fuel : nat) :
  timeout_retries self <= 0 ->
  forall (tc : Z) (w w' : world) (e : exn),
    0 <= tc ->
    timeout_loop self fuel tc c w = (Raise e, w') ->
    exists n, _do_request self n c = Err e.
Proof.
  intros Hle. induction fuel as [|fuel IH]; intros tc w w' e Htc H; [discriminate|].
  cbn [timeout_loop] in H.
  destruct (_do_request self (transport_calls w) c) as [r|e0] eqn:Hreq;
    [discriminate|].
  destruct e0 as [m| m | cls m | m cause | m cause | st m body cause];
    try (injection H as <- _; now exists (transport_calls w)).
  destruct (Z.eqb_spec (tc + 1) (timeout_retries self)); [lia|].
  eapply IH; [|exact H]. lia.
Qed.

(** C10.  With a ceiling of zero or less the wrapper builds no exception
    of its own: whatever it raises, the transport raised.  When moreover
    every attempt times out, it is still looping after any number of
    iterations, one call of the transport per iteration; and on such a
    sequence of timeouts the loop ends for some number of iterations exactly
    when the ceiling is at least one. *)
Theorem timeout_wrapper_unbounded (self : PCO) (c : call) (w : world) :
  (timeout_retries self <= 0 ->
   forall (fuel : nat) (e : exn) (w' : world),
     _do_timeout_managed_request self fuel c w = (Raise e, w') ->
     exists n, _do_request self n c = Err e) /\
  ((forall i, exists m, _do_request self (transport_calls w + i) c = Err (Timeout m)) ->
   (timeout_retries self <= 0 ->
    forall fuel,
      _do_timeout_managed_request self fuel c w = (Unfinished, advance fuel w)) /\
   ((exists fuel, finished (fst (_do_timeout_managed_request self fuel c w)) = true)
    <-> 1 <= timeout_retries self)).
Proof.
  split.
  - intros Hle fuel e w' H.
    apply (timeout_loop_raises_from_transport self c fuel Hle 0 w w' e); [lia | exact H].
  - intros Hto. split.
    + intros Hle fuel. now apply timeout_loop_never_ends.
    + split.
      * intros [fuel Hf].
        destruct (Z_le_gt_dec (timeout_retries self) 0) as [Hle|Hgt]; [|lia].
        rewrite (timeout_loop_never_ends self c w fuel Hle Hto) in Hf.
        discriminate.
      * intros Hpos. exists (Z.to_nat (timeout_retries self)).
        destruct (timeout_loop_gives_up self c w (Z.to_nat (timeout_retries self)) Hpos)
          as (m & _ & ->); [intros i _; apply Hto | lia | reflexivity].
Qed.

Lemma timeout_wrapper_unbounded_witness :
  _do_timeout_managed_request (Fixtures.client 0 Fixtures.always_timeout)
                              7 Fixtures.people initial_world
  = (Unfinished, advance 7 initial_world).
Proof.
  refine (proj1 (proj2 (timeout_wrapper_unbounded
                   (Fixtures.client 0 Fixtures.always_timeout)
                   Fixtures.people initial_world) _) _ 7%nat).
  - intros i. exists "read timed out". reflexivity.
  - cbn; lia.
Defined.

(** The same with a negative ceiling. *)
Example timeout_wrapper_negative_ceiling :
  _do_timeout_managed_request (Fixtures.client (-1) Fixtures.always_timeout)
                              9 Fixtures.people initial_world
  = (Unfinished, advance 9 initial_world).
Proof. reflexivity. Qed.

(** One iteration of the rate-limit loop, by what the layer below gives. *)
Lemma ratelimit_loop_pass (self : PCO) (inner fuel : nat) (c : call)
      (w w1 : world) (r : response) :
  _do_timeout_managed_request self inner c w = (Return r, w1) ->
  status_code r <> 429 ->
  ratelimit_loop self inner (S fuel) c w = (Return r, w1).
Proof.
  intros H Hs. cbn [ratelimit_loop]. rewrite H.
  now destruct (Z.eqb_spec (status_code r) 429).
Qed.

Lemma sleep_within (self : PCO) (secs : Z) (w : world) :
  0 <= secs <= sleep_limit ->
  sleep_error self w secs = None ->
  sleep self secs w
  = Ok {| transport_calls := transport_calls w; slept := slept w ++ [secs] |}.
Proof.
  intros [Hlo Hhi] Hos. unfold sleep.
  destruct (Z.ltb_spec secs (- sleep_limit)); [unfold sleep_limit in *; lia|].
  destruct (Z.ltb_spec sleep_limit secs); [lia|]. cbn [orb].
  destruct (Z.ltb_spec secs 0); [lia|]. now rewrite Hos.
Qed.

Lemma sleep_inv (self : PCO) (secs : Z) (w w' : world) :
  sleep self secs w = Ok w' ->
  0 <= secs <= sleep_limit /\
  w' = {| transport_calls := transport_calls w; slept := slept w ++ [secs] |}.
Proof.
  unfold sleep.
  destruct (Z.ltb_spec secs (- sleep_limit)); [discriminate|].
  destruct (Z.ltb_spec sleep_limit secs); [discriminate|]. cbn [orb].
  destruct (Z.ltb_spec secs 0); [discriminate|].
  destruct (sleep_error self w secs); [discriminate|].
  intros [= <-]. split; [lia | reflexivity].
Qed.

Lemma sleep_negative (self : PCO) (secs : Z) (w : world) :
  - sleep_limit <= secs < 0 ->
  sleep self secs w = Err (ValueError "sleep length must be non-negative").
Proof.
  intros [Hlo Hhi]. unfold sleep.
  destruct (Z.ltb_spec secs (- sleep_limit)); [lia|].
  destruct (Z.ltb_spec sleep_limit secs); [unfold sleep_limit in *; lia|]. cbn [orb].
  destruct (Z.ltb_spec secs 0); [reflexivity | lia].
Qed.

Lemma sleep_overflow (self : PCO) (secs : Z) (w : world) :
  secs < - sleep_limit \/ sleep_limit < secs ->
  exists msg, sleep self secs w = Err (Builtin "OverflowError" msg).
Proof.
  intros H. unfold sleep.
  destruct (Z.ltb_spec secs (- sleep_limit));
    destruct (Z.ltb_spec sleep_limit secs); cbn [orb]; first [lia | now eexists].
Qed.

(** What [retry_after] returns is what [int()] makes of the header. *)
Lemma retry_after_reads (r : response) (v : string) (n : Z) :
  headers r !! "retry-after" = Some v ->
  py_int v = Some n ->
  retry_after r = Ok n.
Proof.
  unfold retry_after, int_of_str, py_int. intros ->.
  destruct (parse_int v); [now intros [= ->] | discriminate..].
Qed.

Lemma ratelimit_loop_sleep (self : PCO) (inner fuel : nat) (c : call)
      (w w1 : world) (r : response) (secs : Z) :
  _do_timeout_managed_request self inner c w = (Return r, w1) ->
  status_code r = 429 ->
  retry_after r = Ok secs ->
  0 <= secs <= sleep_limit ->
  sleep_error self w1 secs = None ->
  ratelimit_loop self inner (S fuel) c w
  = ratelimit_loop self inner fuel c
      {| transport_calls := transport_calls w1; slept := slept w1 ++ [secs] |}.
Proof.
  intros H Hs Hr Hn Hos. cbn [ratelimit_loop]. rewrite H, Hs, Z.eqb_refl, Hr.
  now rewrite sleep_within.
Qed.

Lemma ratelimit_loop_raise (self : PCO) (inner fuel : nat) (c : call)
      (w w1 : world) (e : exn) :
  _do_timeout_managed_request self inner c w = (Raise e, w1) ->
  ratelimit_loop self inner (S fuel) c w = (Raise e, w1).
Proof. intros H. cbn [ratelimit_loop]. now rewrite H. Qed.

Lemma timeout_loop_world (self : PCO) (c : call) (fuel : nat) :
  forall (tc : Z) (w w' : world) (o : outcome response),
    timeout_loop self fuel tc c w = (o, w') ->
    slept w' = slept w /\ (transport_calls w <= transport_calls w')%nat.
Proof.
  induction fuel as [|fuel IH]; intros tc w w' o H.
  - injection H as <- <-. split; [reflexivity | lia].
  - cbn [timeout_loop] in H. cbv zeta in H.
    destruct (_do_request self (transport_calls w) c) as [r|e].
    + injection H as <- <-. cbn. split; [reflexivity | lia].
    + destruct e as [m| m | cls m | m cause | m cause | st m body cause];
        try (injection H as <- <-; cbn; split; [reflexivity | lia]).
      destruct (tc + 1 =? timeout_retries self).
      * injection H as <- <-. cbn. split; [reflexivity | lia].
      * apply IH in H as [Hs Ht]. cbn in Hs, Ht. split; [exact Hs | lia].
Qed.

(** A chain of calls of the layer below: call [i] is made in the world
    [before i] and leaves the world [after i]; the first [k] return a 429
    that can be slept for, and the world before the next call is the world
    after the call with the sleep added. *)
Lemma ratelimit_loop_chain (self : PCO) (c : call) (inner : nat) (k : nat) :
  forall (fuel : nat) (rs : nat -> response) (secs : nat -> Z)
         (before after : nat -> world),
    (forall i, (i <= k)%nat ->
               _do_timeout_managed_request self inner c (before i)
               = (Return (rs i), after i)) ->
    (forall i, (i < k)%nat ->
               status_code (rs i) = 429 /\
               retry_after (rs i) = Ok (secs i) /\
               0 <= secs i <= sleep_limit /\
               sleep_error self (after i) (secs i) = None /\
               before (S i) = {| transport_calls := transport_calls (after i);
                                 slept := slept (after i) ++ [secs i] |}) ->
    status_code (rs k) <> 429 ->
    (k < fuel)%nat ->
    ratelimit_loop self inner fuel c (before O) = (Return (rs k), after k) /\
    slept (after k) = slept (before O) ++ map secs (seq 0 k).
Proof.
  induction k as [|k IH]; intros fuel rs secs before after Hlow H429 Hlast Hfuel;
    (destruct fuel as [|fuel]; [lia|]);
    pose proof (Hlow O ltac:(lia)) as H0;
    pose proof (timeout_loop_world self c inner 0 _ _ _ H0) as [Hslept _].
  - split.
    + now apply ratelimit_loop_pass.
    + cbn [seq map]. now rewrite app_nil_r.
  - destruct (H429 O ltac:(lia)) as (Hs & Hr & Hn & Hos & Hnext).
    rewrite (ratelimit_loop_sleep self inner fuel c _ _ _ _ H0 Hs Hr Hn Hos).
    rewrite <- Hnext.
    destruct (IH fuel (fun i => rs (S i)) (fun i => secs (S i))
                 (fun i => before (S i)) (fun i => after (S i))) as [Hrun Hsl].
    + intros i Hi. apply Hlow. lia.
    + intros i Hi. apply (H429 (S i)). lia.
    + exact Hlast.
    + lia.
    + split; [exact Hrun|]. cbn beta in Hsl. rewrite Hsl, Hnext. cbn [slept].
      rewrite Hslept. cbn [seq map]. rewrite <- seq_shift, map_map, <- app_assoc.
      reflexivity.
Qed.

(** [int()] reads back the decimal numeral of an integer. *)
Lemma digit_value_pretty_N_char (d : N) :
  (d < 10)%N -> digit_value (pretty_N_char d) = Some (Z.of_N d).
Proof.
  intros Hd.
  assert (H : d = 0%N \/ d = 1%N \/ d = 2%N \/ d = 3%N \/ d = 4%N \/ d = 5%N \/
              d = 6%N \/ d = 7%N \/ d = 8%N \/ d = 9%N) by lia.
  destruct H as [->|[->|[->|[->|[->|[->|[->|[->|[->| ->]]]]]]]]]; reflexivity.
Qed.

Lemma digit_is_plain (c : ascii) (d : Z) :
  digit_value c = Some d ->
  is_space c = false /\ Ascii.eqb c "-" = false /\ Ascii.eqb c "+" = false.
Proof.
  destruct c as [[] [] [] [] [] [] [] []]; cbn; intros H;
    first [discriminate H | repeat split].
Qed.

Lemma scan_digits_pretty_go (x : N) :
  forall (s : string) (count : Z) (b : bool) (k : nat),
    (0 < x)%N ->
    (x < 10 ^ N.of_nat k)%N ->
    exists digits,
      digits <= count + Z.of_nat k /\
      scan_digits 0 count b (pretty_N_go x s)
      = scan_digits (Z.of_N x) digits true s.
Proof.
  induction (N.lt_wf_0 x) as [x _ IH]. intros s count b k Hx Hk.
  rewrite pretty_N_go_step by exact Hx.
  assert (Hm : (x `mod` 10 < 10)%N) by (apply N.mod_lt; lia).
  pose proof (N.div_mod x 10 ltac:(lia)) as Hdm.
  assert (Hc : forall acc cnt bb t,
             scan_digits acc cnt bb (String (pretty_N_char (x `mod` 10)%N) t)
             = scan_digits (10 * acc + Z.of_N (x `mod` 10)%N) (cnt + 1) true t).
  { intros acc cnt bb t. cbn [scan_digits].
    now rewrite (digit_value_pretty_N_char _ Hm). }
  destruct k as [|k]; [cbn in Hk; lia|].
  assert (Hk' : (x `div` 10 < 10 ^ N.of_nat k)%N).
  { apply N.Div0.div_lt_upper_bound.
    rewrite Nat2N.inj_succ, N.pow_succ_r' in Hk. exact Hk. }
  destruct (N.eq_dec (x `div` 10)%N 0%N) as [Hz|Hnz].
  - rewrite Hz, pretty_N_go_0, Hc. exists (count + 1). split; [lia|].
    f_equal. rewrite Hz in Hdm. lia.
  - destruct (IH (x `div` 10)%N ltac:(apply N.div_lt; lia)
                 (String (pretty_N_char (x `mod` 10)%N) s) count b k ltac:(lia) Hk')
      as (digits & Hdig & Hscan).
    rewrite Hscan, Hc. exists (digits + 1). split; [lia|].
    f_equal. lia.
Qed.

Lemma pretty_N_go_head (x : N) :
  forall (s : string),
    (0 < x)%N ->
    exists c t d, pretty_N_go x s = String c t /\ digit_value c = Some d.
Proof.
  induction (N.lt_wf_0 x) as [x _ IH]. intros s Hx.
  rewrite pretty_N_go_step by exact Hx.
  assert (Hm : (x `mod` 10 < 10)%N) by (apply N.mod_lt; lia).
  destruct (N.eq_dec (x `div` 10)%N 0%N) as [Hz|Hnz].
  - rewrite Hz, pretty_N_go_0. eexists _, _, _. split; [reflexivity|].
    now apply digit_value_pretty_N_char.
  - apply IH; [apply N.div_lt; lia | now apply N.neq_0_lt_0].
Qed.

Lemma parse_int_pretty_pos (p : positive) (negative : bool) :
  Z.pos p < 10 ^ int_max_str_digits ->
  match scan_digits 0 0 false (pretty (N.pos p)) with
  | None => Invalid
  | Some (n, digits, rest) =>
      if int_max_str_digits <? digits then TooManyDigits digits
      else if all_space rest then Parsed (if negative then - n else n)
      else Invalid
  end = Parsed (if negative then Z.neg p else Z.pos p).
Proof.
  intros Hp. unfold pretty, pretty_N. cbn [decide]. 
  destruct (decide (N.pos p = 0%N)) as [Hz|_]; [discriminate Hz|].
  destruct (scan_digits_pretty_go (N.pos p) EmptyString 0 false
              (Z.to_nat int_max_str_digits) ltac:(lia)) as (digits & Hd & ->).
  - apply N2Z.inj_lt. rewrite N2Z.inj_pow. cbn [Z.of_N].
    rewrite nat_N_Z, Z2Nat.id by (unfold int_max_str_digits; lia). exact Hp.
  - cbn [scan_digits].
    rewrite Z2Nat.id in Hd by (unfold int_max_str_digits; lia).
    destruct (Z.ltb_spec int_max_str_digits digits); [lia|].
    cbn [all_space Z.of_N]. now destruct negative.
Qed.

Lemma py_int_pretty (n : Z) :
  Z.abs n < 10 ^ int_max_str_digits -> py_int (pretty n) = Some n.
Proof.
  intros Hn. destruct n as [|p|p].
  - reflexivity.
  - unfold py_int, parse_int.
    change (pretty (Z.pos p)) with (pretty (N.pos p)).
    pose proof (parse_int_pretty_pos p false Hn) as Hparse.
    unfold pretty at 1, pretty_N at 1.
    unfold pretty, pretty_N in Hparse.
    destruct (decide (N.pos p = 0%N)) as [Hz|_]; [discriminate Hz|].
    destruct (pretty_N_go_head (N.pos p) EmptyString ltac:(lia))
      as (c & t & d & Heq & Hd).
    rewrite Heq in *. destruct (digit_is_plain c d Hd) as (Hsp & Hminus & Hplus).
    cbn [strip_left]. rewrite Hsp, Hminus, Hplus. now rewrite Hparse.
  - unfold py_int, parse_int.
    change (pretty (Z.neg p)) with ("-" +:+ pretty (N.pos p)).
    change ("-" +:+ pretty (N.pos p)) with (String "-" (pretty (N.pos p))).
    cbn [strip_left]. change (is_space "-") with false. cbv iota.
    change (Ascii.eqb "-" "-") with true. cbv iota.
    now rewrite (parse_int_pretty_pos p true Hn).
Qed.

(** C3, as the code has it.  The calls of the layer below (the timeout
    wrapper, with whatever timeouts it absorbs) return [k] responses of
    status 429 and then a response of another status; each 429 carries a
    [Retry-After] header that [int()] reads as a number of seconds from 0
    to 9223372036, the longest that [time.sleep] takes, and the operating
    system lets each sleep run to its end.  Then the wrapper sleeps for
    each of those numbers of seconds in turn, between the calls, and
    returns the last response unchanged, whatever [k] is.  A header that
    holds the decimal numeral of such a number is read as that number. *)
Theorem ratelimit_wrapper_recovers (self : PCO) (c : call) (fuel k : nat)
        (rs : nat -> response) (secs : nat -> Z) (before after : nat -> world) :
  (forall i, (i <= k)%nat ->
             _do_timeout_managed_request self fuel c (before i)
             = (Return (rs i), after i)) ->
  (forall i, (i < k)%nat ->
             status_code (rs i) = 429 /\
             (exists v, headers (rs i) !! "retry-after" = Some v /\
                        py_int v = Some (secs i)) /\
             0 <= secs i <= 9223372036 /\
             sleep_error self (after i) (secs i) = None /\
             before (S i) = {| transport_calls := transport_calls (after i);
                               slept := slept (after i) ++ [secs i] |}) ->
  status_code (rs k) <> 429 ->
  (k < fuel)%nat ->
  _do_ratelimit_managed_request self fuel c (before O) = (Return (rs k), after k) /\
  slept (after k) = slept (before O) ++ map secs (seq 0 k) /\
  (forall n, 0 <= n <= 9223372036 -> py_int (pretty n) = Some n).
Proof.
  intros Hlow H429 Hlast Hfuel.
  destruct (ratelimit_loop_chain self c fuel k fuel rs secs before after)
    as [Hrun Hslept]; [exact Hlow | | exact Hlast | exact Hfuel |].
  { intros i Hi. destruct (H429 i Hi) as (Hs & (v & Hv & Hint) & Hn & Hos & Hnext).
    split; [exact Hs|]. split; [now apply retry_after_reads with (v := v)|].
    split; [exact Hn|]. split; [exact Hos | exact Hnext]. }
  split; [exact Hrun|]. split; [exact Hslept|].
  - intros n Hn. apply py_int_pretty. unfold int_max_str_digits.
    apply Z.lt_le_trans with (10 ^ 10); [lia|].
    apply Z.pow_le_mono_r; lia.
Qed.

Lemma ratelimit_wrapper_recovers_witness :
  _do_ratelimit_managed_request
    (Fixtures.client 3
       (fun n _ => match n with
                   | 1%nat => Ok (Fixtures.throttled "2")
                   | 4%nat => Ok (Fixtures.throttled " 07 ")
                   | 5%nat => Ok Fixtures.ok_response
                   | _ => Err (Timeout "read timed out")
                   end))
    4 Fixtures.people initial_world
  = (Return Fixtures.ok_response, {| transport_calls := 6; slept := [2; 7] |}) /\
  slept {| transport_calls := 6; slept := [2; 7] |} = slept initial_world ++ [2; 7] /\
  (forall n, 0 <= n <= 9223372036 -> py_int (pretty n) = Some n).
Proof.
  refine (ratelimit_wrapper_recovers
            (Fixtures.client 3
               (fun n _ => match n with
                           | 1%nat => Ok (Fixtures.throttled "2")
                           | 4%nat => Ok (Fixtures.throttled " 07 ")
                           | 5%nat => Ok Fixtures.ok_response
                           | _ => Err (Timeout "read timed out")
                           end))
            Fixtures.people 4 2
            (fun i => nth i [Fixtures.throttled "2"; Fixtures.throttled " 07 "]
                          Fixtures.ok_response)
            (fun i => nth i [2; 7] 0)
            (fun i => nth i [initial_world;
                             {| transport_calls := 2; slept := [2] |}]
                          {| transport_calls := 5; slept := [2; 7] |})
            (fun i => nth i [{| transport_calls := 2; slept := [] |};
                             {| transport_calls := 5; slept := [2] |}]
                          {| transport_calls := 6; slept := [2; 7] |})
            _ _ _ _).
  - intros i Hi. destruct i as [|[|[|i]]]; [reflexivity.. | lia].
  - intros i Hi. destruct i as [|[|i]]; [| | lia].
    + split; [reflexivity|]. split; [exists "2"; split; reflexivity|].
      split; [cbn; lia|]. split; reflexivity.
    + split; [reflexivity|]. split; [exists " 07 "; split; reflexivity|].
      split; [cbn; lia|]. split; reflexivity.
  - cbn. lia.
  - lia.
Defined.

(** C3 as stated fails: a 429 without a [Retry-After] header makes the
    wrapper raise [KeyError] on that response. *)
Lemma ratelimit_wrapper_raises_on_bare_429 :
  _do_ratelimit_managed_request
    (Fixtures.client 3 (Fixtures.replay [Fixtures.throttled_bare]))
    4 Fixtures.people initial_world
  = (Raise (KeyError "retry-after"), advance 1 initial_world).
Proof. reflexivity. Qed.

(** A [Retry-After] that holds a date makes it raise [ValueError], and one
    that asks for more than the clock can count [OverflowError]. *)
Example ratelimit_wrapper_raises_on_date :
  fst (_do_ratelimit_managed_request
         (Fixtures.client 3 (Fixtures.replay
            [Fixtures.throttled "Wed, 21 Oct 2015 07:28:00 GMT"]))
         4 Fixtures.people initial_world)
  = Raise (ValueError
             "invalid literal for int() with base 10: 'Wed, 21 Oct 2015 07:28:00 GMT'") /\
  exists msg,
    fst (_do_ratelimit_managed_request
           (Fixtures.client 3 (Fixtures.replay [Fixtures.throttled "9223372037"]))
           4 Fixtures.people initial_world)
    = Raise (Builtin "OverflowError" msg).
Proof. split; [reflexivity | eexists; reflexivity]. Qed.

(** [int()] on header values. *)
Example py_int_examples :
  py_int "2" = Some 2 /\ py_int " 30 " = Some 30 /\ py_int "-5" = Some (-5) /\
  py_int "1_000" = Some 1000 /\ py_int "007" = Some 7 /\
  py_int "2.5" = None /\ py_int "" = None /\ py_int "1__0" = None /\
  py_int "+ 1" = None /\ py_int "12abc" = None /\
  py_int (String (ascii_of_nat 28) "5") = None /\
  py_int (String (ascii_of_nat 160) "5") = Some 5.
Proof. repeat split. Qed.

(** [request_response] wraps whatever [Exception] the layers below raise,
    the exception of the timeout wrapper included. *)
Lemma request_response_wraps (self : PCO) (fuel : nat) (c : call)
      (w w1 : world) (err : exn) :
  _do_url_managed_request self fuel c w = (Raise err, w1) ->
  is_Exception err = true ->
  request_response self fuel c w
  = (Raise (PCOUnexpectedRequestException (str_exn err) err), w1).
Proof. intros H He. unfold request_response. now rewrite H, He. Qed.

(** A response of status 400 to 599 becomes [PCORequestException] with
    the status, the message of the [HTTPError] and the body. *)
Lemma request_response_http_error (self : PCO) (fuel : nat) (c : call)
      (w w1 : world) (r : response) :
  _do_url_managed_request self fuel c w = (Return r, w1) ->
  400 <= status_code r < 600 ->
  exists msg,
    raise_for_status r = Some (HTTPError msg) /\
    request_response self fuel c w
    = (Raise (PCORequestException (status_code r) msg (text r) (HTTPError msg)), w1).
Proof.
  intros H Hs. unfold request_response. rewrite H. unfold raise_for_status.
  destruct (Z.leb_spec 400 (status_code r)); [|lia].
  destruct (Z.ltb_spec (status_code r) 500); cbn [andb].
  - eexists. split; reflexivity.
  - destruct (Z.leb_spec 500 (status_code r)); [|lia].
    destruct (Z.ltb_spec (status_code r) 600); [|lia]. cbn [andb].
    eexists. split; reflexivity.
Qed.

Example request_response_404 :
  fst (request_response (Fixtures.client 3 (Fixtures.replay [Fixtures.not_found]))
                        4 Fixtures.people initial_world)
  = Raise (PCORequestException 404
             "404 Client Error: Not Found for url: https://api.planningcenteronline.com/nope"
             "{errors: []}"
             (HTTPError
                "404 Client Error: Not Found for url: https://api.planningcenteronline.com/nope")).
Proof. reflexivity. Qed.

(** C1, at the input where the code departs from it.  With the ceiling at
    three and a network that always times out, the timeout wrapper raises
    [PCORequestTimeoutException] after three attempts, and
    [request_response] hands the caller a
    [PCOUnexpectedRequestException] built from it instead of the
    exception itself. *)
Theorem request_response_wraps_timeout_exceeded :
  _do_url_managed_request (Fixtures.client 3 Fixtures.always_timeout)
                          5 Fixtures.people initial_world
  = (Raise (PCORequestTimeoutException
              (timeout_message "https://api.planningcenteronline.com/people/v2/people" 3)
              (Timeout "read timed out")),
     advance 3 initial_world) /\
  request_response (Fixtures.client 3 Fixtures.always_timeout)
                   5 Fixtures.people initial_world
  = (Raise (PCOUnexpectedRequestException
              (timeout_message "https://api.planningcenteronline.com/people/v2/people" 3)
              (PCORequestTimeoutException
                 (timeout_message "https://api.planningcenteronline.com/people/v2/people" 3)
                 (Timeout "read timed out"))),
     advance 3 initial_world).
Proof. split; reflexivity. Qed.

(** An exception of the transport that is not a timeout ends the loop. *)
Lemma timeout_loop_other (self : PCO) (fuel : nat) (tc : Z) (c : call)
      (w : world) (e : exn) :
  _do_request self (transport_calls w) c = Err e ->
  is_timeout e = false ->
  timeout_loop self (S fuel) tc c w = (Raise e, advance 1 w).
Proof.
  intros H He. cbn [timeout_loop]. rewrite H. unfold advance.
  replace (transport_calls w + 1)%nat with (S (transport_calls w)) by lia.
  now destruct e.
Qed.

Lemma raise_for_status_passes (r : response) :
  (passes r = true -> raise_for_status r = None) /\
  (passes r = false ->
   400 <= status_code r < 600 /\ exists msg, raise_for_status r = Some (HTTPError msg)).
Proof.
  unfold passes, raise_for_status.
  destruct (Z.leb_spec 400 (status_code r)) as [A|A];
    destruct (Z.ltb_spec (status_code r) 600) as [C|C];
    destruct (Z.ltb_spec (status_code r) 500) as [B|B];
    destruct (Z.leb_spec 500 (status_code r)) as [D|D];
    cbn [andb negb]; split; intros Hx;
    try discriminate; try reflexivity; try lia;
    (split; [lia | eexists; reflexivity]).
Qed.

(** What [_do_request] hands to the session. *)
Lemma _do_request_plain (self : PCO) (n : nat) (c : call) :
  truthy (Pco.upload c) = false ->
  _do_request self n c
  = session self n (plain_request self (method c) (url c) (payload c) (params c)).
Proof.
  intros H. unfold _do_request, plain_request, standard_headers. now rewrite H.
Qed.

Lemma _do_request_upload (self : PCO) (n : nat) (c : call) :
  truthy (Pco.upload c) = true ->
  _do_request self n c
  = match open_error self (Pco.upload c) with
    | Some e => Err e
    | None =>
        session self n
          {| s_method := method c; s_url := url c;
             s_headers := standard_headers self; s_params := params c;
             s_json := payload c; s_timeout := upload_timeout self;
             s_files := Some (Pco.upload c) |}
    end.
Proof.
  intros Ht. unfold _do_request, standard_headers. now rewrite Ht.
Qed.

(** A request answered at once. *)
Lemma ratelimit_single (self : PCO) (fuel : nat) (c : call) (w : world) (r : response) :
  (1 <= fuel)%nat ->
  _do_request self (transport_calls w) c = Ok r ->
  (status_code r =? 429) = false ->
  _do_ratelimit_managed_request self fuel c w = (Return r, advance 1 w).
Proof.
  intros Hf Hreq Hs. destruct fuel as [|fuel]; [lia|].
  unfold _do_ratelimit_managed_request.
  apply ratelimit_loop_pass.
  - unfold _do_timeout_managed_request. now apply timeout_loop_ok.
  - intros Heq. rewrite Heq in Hs. discriminate.
Qed.

Lemma passes_not_429 (r : response) : passes r = true -> (status_code r =? 429) = false.
Proof.
  unfold passes. destruct (Z.eqb_spec (status_code r) 429) as [->|]; [|reflexivity].
  discriminate.
Qed.

Lemma request_response_plain (self : PCO) (fuel : nat) (c : call) (w : world)
      (r : response) :
  (1 <= fuel)%nat ->
  truthy (Pco.upload c) = false ->
  session self (transport_calls w)
          (plain_request self (method c) (Url.clean_url (api_base self) (url c))
                         (payload c) (params c)) = Ok r ->
  passes r = true ->
  request_response self fuel c w = (Return r, advance 1 w).
Proof.
  intros Hf Hu Hs Hp. unfold request_response, _do_url_managed_request.
  rewrite Hu. cbn [negb].
  rewrite (ratelimit_single self fuel _ w r Hf).
  - now rewrite (proj1 (raise_for_status_passes r) Hp).
  - rewrite _do_request_plain by exact Hu. exact Hs.
  - now apply passes_not_429.
Qed.

Lemma request_json_plain (self : PCO) (fuel : nat) (c : call) (w : world)
      (r : response) (v : json) :
  (1 <= fuel)%nat ->
  truthy (Pco.upload c) = false ->
  session self (transport_calls w)
          (plain_request self (method c) (Url.clean_url (api_base self) (url c))
                         (payload c) (params c)) = Ok r ->
  passes r = true ->
  json_body r = Some v ->
  request_json self fuel c w = (Return v, advance 1 w).
Proof.
  intros Hf Hu Hs Hp Hv. unfold request_json.
  rewrite (request_response_plain self fuel c w r Hf Hu Hs Hp). now rewrite Hv.
Qed.

(** *** Keywords that are only query parameters *)

Lemma named_absent (names : list string) (k : string) (v : json) :
  ~ In k names -> named names (k, v) = false.
Proof.
  unfold named. cbn [fst]. induction names as [|n names IH]; intros H; [reflexivity|].
  cbn [existsb]. destruct (String.eqb_spec k n) as [->|_].
  - destruct H. now left.
  - apply IH. intros Hin. apply H. now right.
Qed.

Lemma find_absent {A : Type} (f : A -> bool) (l : list A) :
  (forall x, In x l -> f x = false) -> List.find f l = None.
Proof.
  induction l as [|x l IH]; intros H; [reflexivity|].
  cbn [List.find]. rewrite (H x (or_introl eq_refl)).
  apply IH. intros y Hy. apply H. now right.
Qed.

Lemma filter_all {A : Type} (f : A -> bool) (l : list A) :
  (forall x, In x l -> f x = true) -> List.filter f l = l.
Proof.
  induction l as [|x l IH]; intros H; [reflexivity|].
  cbn [List.filter]. rewrite (H x (or_introl eq_refl)). f_equal.
  apply IH. intros y Hy. apply H. now right.
Qed.

Lemma dict_get_absent {V : Type} (k : string) (d : list (string * V)) :
  (forall v, ~ In (k, v) d) -> dict_get k d = None.
Proof.
  induction d as [|[k' v'] d IH]; intros H; [reflexivity|].
  cbn [dict_get]. destruct (String.eqb_spec k' k) as [->|_].
  - destruct (H v'). now left.
  - apply IH. intros v Hv. apply (H v). now right.
Qed.

Lemma find_app_absent {A : Type} (f : A -> bool) (l tail : list A) :
  (forall x, In x l -> f x = false) -> List.find f (l ++ tail) = List.find f tail.
Proof.
  induction l as [|x l IH]; intros H; [reflexivity|].
  cbn [app List.find]. rewrite (H x (or_introl eq_refl)).
  apply IH. intros y Hy. apply H. now right.
Qed.

Lemma dict_get_app_absent {V : Type} (k : string) (d tail : list (string * V)) :
  (forall v, ~ In (k, v) d) -> dict_get k (d ++ tail) = dict_get k tail.
Proof.
  induction d as [|[k' v'] d IH]; intros H; [reflexivity|].
  cbn [app dict_get]. destruct (String.eqb_spec k' k) as [->|_].
  - destruct (H v'). now left.
  - apply IH. intros v Hv. apply (H v). now right.
Qed.

(** When no key of [kwargs] names a parameter of the request methods, the
    whole of [kwargs] becomes the query parameters. *)
Lemma bind_keywords_plain (callee : string) (taken : list string)
      (method url : string) (payload : option json) (upload : json)
      (kwargs : list (string * json)) :
  (forall k v, In (k, v) kwargs ->
               ~ In k ["self"; "method"; "url"; "payload"; "upload"]) ->
  incl taken ["self"; "method"; "url"; "payload"; "upload"] ->
  bind_keywords callee taken method url payload upload kwargs
  = Ok {| method := method; url := url; payload := payload; Pco.upload := upload;
          params := kwargs |}.
Proof.
  intros Hfree Htaken. unfold bind_keywords.
  rewrite find_absent.
  2:{ intros [k v] Hin. apply named_absent. intros Hk.
      exact (Hfree k v Hin (Htaken k Hk)). }
  rewrite !dict_get_absent.
  2:{ intros v Hin. apply (Hfree _ _ Hin). cbn. tauto. }
  2:{ intros v Hin. apply (Hfree _ _ Hin). cbn. tauto. }
  rewrite filter_all; [reflexivity|].
  intros [k v] Hin. apply negb_true_iff, named_absent. intros Hk.
  apply (Hfree k v Hin). cbn in Hk |- *. tauto.
Qed.

(** [get] answered at once by a response that passes and parses. *)
Lemma get_answered (self : PCO) (fuel : nat) (url : string)
      (params : list (string * json)) (w : world) (r : response) (v : json) :
  (1 <= fuel)%nat ->
  (forall k x, In (k, x) params ->
               ~ In k ["self"; "method"; "url"; "payload"; "upload"]) ->
  session self (transport_calls w)
    (plain_request self "GET" (Url.clean_url (api_base self) url) None params) = Ok r ->
  passes r = true ->
  json_body r = Some v ->
  get self fuel url params w = (Return v, advance 1 w).
Proof.
  intros Hf Hfree Hs Hp Hv. unfold get.
  rewrite bind_keywords_plain by (first [exact Hfree | intros k Hk; cbn in Hk |- *; tauto]).
  now apply request_json_plain with (r := r).
Qed.

End PcoFacts.

Module IterateFacts.
Import PyStr Py Pco Iterate Paging Verbs PcoFacts.

Lemma flat_map_flat_map {A B C : Type} (f : B -> list C) (g : A -> list B)
      (l : list A) :
  flat_map f (flat_map g l) = flat_map (fun x => flat_map f (g x)) l.
Proof.
  induction l as [|x l IH]; [reflexivity|].
  cbn [flat_map]. now rewrite flat_map_app, IH.
Qed.

Lemma extends_nil (r : record) : extends r r [].
Proof. unfold extends. now rewrite app_nil_r. Qed.

Lemma extends_trans (r r' r'' : record) (a b : list json) :
  extends r r' a -> extends r' r'' b -> extends r r'' (a ++ b).
Proof.
  intros (Hd & Hm & Hi) (Hd' & Hm' & Hi'). unfold extends.
  rewrite Hd', Hm', Hi', Hi, Hd, Hm. now rewrite app_assoc.
Qed.

Ltac bind_ok H x Hx :=
  match type of H with
  | bind ?m _ = Ok _ => destruct m as [x|] eqn:Hx; [cbn [bind] in H | discriminate H]
  end.

Lemma scan_includes_extends (reference : json) (l : list json) :
  forall r r',
    scan_includes reference l r = Ok r' ->
    extends r r' (List.filter (fun include => same_type_id include reference) l).
Proof.
  induction l as [|include rest IH]; intros r r' H.
  - cbn in H. injection H as <-. apply extends_nil.
  - cbn [scan_includes] in H. cbn [List.filter].
    bind_ok H t1 Ht1. bind_ok H t2 Ht2.
    destruct (py_eq t1 t2) eqn:Ht.
    + bind_ok H i1 Hi1. bind_ok H i2 Hi2.
      replace (same_type_id include reference) with (py_eq i1 i2)
        by (unfold same_type_id; now rewrite Ht1, Ht2, Ht, Hi1, Hi2).
      destruct (py_eq i1 i2).
      * apply IH in H. destruct H as (Hd & Hm & Hi).
        unfold extends. rewrite Hd, Hm, Hi.
        cbn [append_included data meta included].
        now rewrite <- app_assoc.
      * now apply IH.
    + replace (same_type_id include reference) with false
        by (unfold same_type_id; now rewrite Ht1, Ht2, Ht).
      now apply IH.
Qed.

Lemma resolve_extends (response reference : json) (r r' : record) :
  resolve response reference r = Ok r' ->
  extends r r' (List.filter (fun include => same_type_id include reference)
                            (page_included response)).
Proof.
  unfold resolve. intros H.
  bind_ok H incs Hincs. bind_ok H l Hl.
  replace (page_included response) with l
    by (unfold page_included; rewrite Hincs; cbn [bind]; now rewrite Hl).
  now apply scan_includes_extends.
Qed.

Lemma resolve_all_extends (response : json) (refs : list json) :
  forall r r',
    resolve_all response refs r = Ok r' ->
    extends r r'
      (flat_map (fun reference =>
                   List.filter (fun include => same_type_id include reference)
                               (page_included response)) refs).
Proof.
  induction refs as [|ref rest IH]; intros r r' H.
  - cbn in H. injection H as <-. apply extends_nil.
  - cbn [resolve_all] in H. bind_ok H r1 Hr1.
    cbn [flat_map]. eapply extends_trans.
    + apply resolve_extends, Hr1.
    + now apply IH.
Qed.

Lemma relationship_step_extends (response cur key : json) (r r' : record) :
  relationship_step response cur key r = Ok r' ->
  extends r r'
    (flat_map (fun reference =>
                 List.filter (fun include => same_type_id include reference)
                             (page_included response))
              (flat_map references_of (key_data cur key))).
Proof.
  unfold relationship_step. intros H.
  bind_ok H rels Hrels. bind_ok H entry Hentry. bind_ok H d Hd.
  replace (key_data cur key) with [d]
    by (unfold key_data; rewrite Hrels; cbn [bind]; rewrite Hentry; cbn [bind];
        now rewrite Hd).
  cbn [flat_map]. rewrite app_nil_r.
  destruct d as [| b | n | s | l | dd]; cbn [references_of flat_map];
    try (injection H as <-; apply extends_nil).
  - now apply resolve_all_extends.
  - rewrite app_nil_r. now apply resolve_extends.
Qed.

Lemma relationship_loop_extends (response cur : json) (keys : list json) :
  forall r r',
    relationship_loop response cur keys r = Ok r' ->
    extends r r'
      (flat_map (fun reference =>
                   List.filter (fun include => same_type_id include reference)
                               (page_included response))
                (flat_map references_of (flat_map (key_data cur) keys))).
Proof.
  induction keys as [|key rest IH]; intros r r' H.
  - cbn in H. injection H as <-. apply extends_nil.
  - cbn [relationship_loop] in H. bind_ok H r1 Hr1.
    cbn [flat_map]. rewrite !flat_map_app. eapply extends_trans.
    + apply relationship_step_extends, Hr1.
    + now apply IH.
Qed.

(** A record that is built holds the item, an empty [meta], and the
    matches of the item's references. *)
Lemma build_record_fields (response cur : json) (r : record) :
  build_record response cur = Ok r ->
  data r = cur /\ meta r = [] /\ included r = resolved response cur.
Proof.
  unfold build_record. intros H.
  bind_ok H m Hm. bind_ok H b1 Hb1. bind_ok H b2 Hb2.
  bind_ok H b3 Hb3.
  assert (Hrec : forall (b : bool) rec key,
             (if b then annotate_meta rec key else rec) = rec)
    by (now intros []).
  rewrite !Hrec in H. destruct b3.
  - bind_ok H rels Hrels. bind_ok H keys Hkeys.
    replace (resolved response cur)
      with (flat_map (fun reference =>
                        List.filter (fun include => same_type_id include reference)
                                    (page_included response))
                     (flat_map references_of (flat_map (key_data cur) keys)))
      by (unfold resolved, references, relationship_data, key_data;
          rewrite Hb3, Hrels; cbn [bind]; now rewrite Hkeys).
    apply relationship_loop_extends in H. destruct H as (Hd & Hme & Hi).
    cbn in Hd, Hme, Hi. repeat split; assumption.
  - injection H as <-.
    unfold resolved, references, relationship_data. rewrite Hb3.
    repeat split.
Qed.

(** **** Well-formed pages always give their records *)

Lemma has_type_id_items (v : json) :
  has_type_id v = true ->
  exists t i, item v "type" = Ok t /\ item v "id" = Ok i.
Proof.
  destruct v as [| | | | |d]; try discriminate. cbn.
  destruct (dict_get "type" d) as [t|]; [|discriminate].
  destruct (dict_get "id" d) as [i|]; [|discriminate]. now exists t, i.
Qed.

Lemma scan_includes_total (reference : json) (l : list json) :
  has_type_id reference = true ->
  forallb has_type_id l = true ->
  forall r, exists r', scan_includes reference l r = Ok r'.
Proof.
  intros Href. destruct (has_type_id_items _ Href) as (t2 & i2 & Ht2 & Hi2).
  induction l as [|include rest IH]; intros Hl r; [now exists r|].
  cbn [forallb] in Hl. apply andb_prop in Hl as [Hinc Hrest].
  destruct (has_type_id_items _ Hinc) as (t1 & i1 & Ht1 & Hi1).
  cbn [scan_includes]. rewrite Ht1, Ht2. cbn [bind].
  destruct (py_eq t1 t2); [|now apply IH].
  rewrite Hi1, Hi2. cbn [bind]. destruct (py_eq i1 i2); now apply IH.
Qed.

Lemma resolve_total (response reference : json) (incs : list json) :
  item response "included" = Ok (JList incs) ->
  forallb has_type_id incs = true ->
  has_type_id reference = true ->
  forall r, exists r', resolve response reference r = Ok r'.
Proof.
  intros Hi Hincs Href r. unfold resolve. rewrite Hi. cbn [bind py_iter].
  now apply scan_includes_total.
Qed.

Lemma resolve_all_total (response : json) (incs refs : list json) :
  item response "included" = Ok (JList incs) ->
  forallb has_type_id incs = true ->
  forallb has_type_id refs = true ->
  forall r, exists r', resolve_all response refs r = Ok r'.
Proof.
  intros Hi Hincs. induction refs as [|ref rest IH]; intros Hrefs r; [now exists r|].
  cbn [forallb] in Hrefs. apply andb_prop in Hrefs as [Href Hrest].
  cbn [resolve_all].
  destruct (resolve_total response ref incs Hi Hincs Href r) as [r1 ->].
  cbn [bind]. now apply IH.
Qed.

Lemma dict_get_In {V : Type} (k : string) (d : list (string * V)) (v : V) :
  dict_get k d = Some v -> In (k, v) d.
Proof.
  induction d as [|[k' v'] d IH]; [discriminate|]. cbn [dict_get].
  destruct (String.eqb_spec k' k) as [->|].
  - intros [= ->]. now left.
  - intros H. right. now apply IH.
Qed.

Lemma dict_get_key {V : Type} (k : string) (v : V) (d : list (string * V)) :
  In (k, v) d -> exists v', dict_get k d = Some v'.
Proof.
  induction d as [|[k' v'] d IH]; [intros []|]. cbn [dict_get].
  destruct (String.eqb_spec k' k) as [->|Hne].
  - intros _. now exists v'.
  - intros [[= -> ->]|H]; [now destruct Hne | now apply IH].
Qed.

Lemma relationship_step_total (response cur : json) (incs : list json)
      (d : list (string * json)) (rels : list (string * json)) (k : string) (v : json) :
  item response "included" = Ok (JList incs) ->
  forallb has_type_id incs = true ->
  cur = JDict d ->
  dict_get "relationships" d = Some (JDict rels) ->
  forallb (fun kv => well_formed_relationship (snd kv)) rels = true ->
  In (k, v) rels ->
  forall r, exists r', relationship_step response cur (JStr k) r = Ok r'.
Proof.
  intros Hi Hincs -> Hrels Hwf Hin r.
  destruct (dict_get_key k v rels Hin) as [v' Hv'].
  pose proof (dict_get_In _ _ _ Hv') as Hin'.
  rewrite forallb_forall in Hwf. specialize (Hwf _ Hin'). cbn [snd] in Hwf.
  unfold relationship_step, item. cbn [py_getitem]. rewrite Hrels. cbn [bind py_getitem].
  rewrite Hv'. cbn [bind].
  destruct v' as [| | | | |e]; try discriminate. cbn in Hwf. cbn [py_getitem].
  destruct (dict_get "data" e) as [dd|]; [|discriminate]. cbn [bind].
  destruct dd as [| | | |l|dd]; try (now exists r).
  - now apply (resolve_all_total response incs).
  - now apply (resolve_total response _ incs).
Qed.

Lemma relationship_loop_total (response cur : json) (incs : list json)
      (d : list (string * json)) (rels : list (string * json)) :
  item response "included" = Ok (JList incs) ->
  forallb has_type_id incs = true ->
  cur = JDict d ->
  dict_get "relationships" d = Some (JDict rels) ->
  forallb (fun kv => well_formed_relationship (snd kv)) rels = true ->
  forall (some : list (string * json)),
    incl some rels ->
    forall r, exists r',
      relationship_loop response cur (map (fun kv => JStr (fst kv)) some) r = Ok r'.
Proof.
  intros Hi Hincs Hcur Hrels Hwf some.
  induction some as [|[k v] rest IH]; intros Hsub r; [now exists r|].
  cbn [map relationship_loop fst].
  destruct (relationship_step_total response cur incs d rels k v
              Hi Hincs Hcur Hrels Hwf (Hsub _ (or_introl eq_refl)) r) as [r1 ->].
  cbn [bind]. apply IH. intros x Hx. apply Hsub. now right.
Qed.

Lemma build_record_total (response cur : json) (incs : list json)
      (m : list (string * json)) :
  item response "meta" = Ok (JDict m) ->
  item response "included" = Ok (JList incs) ->
  forallb has_type_id incs = true ->
  well_formed_item cur = true ->
  exists r, build_record response cur = Ok r.
Proof.
  intros Hm Hi Hincs Hcur. unfold build_record.
  rewrite Hm. cbn [bind py_in].
  assert (Hrec : forall (b : bool) rec key,
             (if b then annotate_meta rec key else rec) = rec)
    by (now intros []).
  rewrite !Hrec.
  destruct cur as [| | | | |d]; try discriminate. cbn in Hcur. cbn [py_in bind].
  destruct (dict_get "relationships" d) as [rels|] eqn:Hrels; [|now eexists].
  destruct rels as [| | | | |rels]; try discriminate.
  unfold item. cbn [py_getitem]. rewrite Hrels. cbn [bind py_iter].
  apply (relationship_loop_total response (JDict d) incs d rels Hi Hincs eq_refl
           Hrels Hcur rels (incl_refl rels)).
Qed.

Lemma emit_total (response : json) (incs : list json)
      (m : list (string * json)) (items : list json) :
  item response "meta" = Ok (JDict m) ->
  item response "included" = Ok (JList incs) ->
  forallb has_type_id incs = true ->
  forallb well_formed_item items = true ->
  exists rs, emit response items = (rs, None).
Proof.
  intros Hm Hi Hincs. induction items as [|cur rest IH]; intros Hitems; [now exists []|].
  cbn [forallb] in Hitems. apply andb_prop in Hitems as [Hcur Hrest].
  destruct (build_record_total response cur incs m Hm Hi Hincs Hcur) as [r Hr].
  destruct (IH Hrest) as [rs Hrs]. exists (r :: rs).
  cbn [emit]. now rewrite Hr, Hrs.
Qed.

(** What a well-formed page gives to one round of [iterate]. *)
Lemma well_formed_page_round (page : json) :
  well_formed_page page = true ->
  bind (item page "data") py_iter = Ok (page_items page) /\
  emit page (page_items page) = (page_records page, None) /\
  bind (item page "links") (py_in "next") = Ok (has_next page).
Proof.
  intros Hwf. destruct page as [| | | | |p]; try discriminate.
  cbn in Hwf.
  destruct (dict_get "meta" p) as [[| | | | |m]|] eqn:Hm; try discriminate.
  destruct (dict_get "included" p) as [[| | | |incs|]|] eqn:Hi; try discriminate.
  destruct (dict_get "data" p) as [[| | | |items|]|] eqn:Hd; try discriminate.
  destruct (dict_get "links" p) as [[| | | | |links]|] eqn:Hl; try discriminate.
  apply andb_prop in Hwf as [Hincs Hitems].
  assert (Hitems' : page_items (JDict p) = items)
    by (unfold page_items, item; cbn [py_getitem]; now rewrite Hd).
  assert (Hnext : bind (item (JDict p) "links") (py_in "next")
                  = Ok (has_next (JDict p)))
    by (unfold has_next, item; cbn [py_getitem]; now rewrite Hl).
  split; [|split; [|exact Hnext]].
  - rewrite Hitems'. unfold item. cbn [py_getitem]. now rewrite Hd.
  - unfold page_records. rewrite Hitems'.
    destruct (emit_total (JDict p) incs m items) as [rs Hrs];
      try assumption;
      try (unfold item; cbn [py_getitem]; now rewrite ?Hm, ?Hi).
    now rewrite Hrs.
Qed.

Lemma emit_nth (response : json) (items : list json) :
  forall (rs : list record) (e : option exn),
    emit response items = (rs, e) ->
    forall (i : nat) (r : record),
      nth_error rs i = Some r ->
      exists cur, nth_error items i = Some cur /\ build_record response cur = Ok r.
Proof.
  induction items as [|cur rest IH]; intros rs e H i r Hi.
  - cbn in H. injection H as <- <-. now destruct i.
  - cbn [emit] in H. destruct (build_record response cur) as [r0|e0] eqn:Hb.
    + destruct (emit response rest) as [rs' e'] eqn:Hrest.
      injection H as <- <-. destruct i as [|i].
      * cbn in Hi. injection Hi as <-. exists cur. now split.
      * cbn in Hi. destruct (IH rs' e' eq_refl i r Hi) as (cur' & Hc & Hr).
        exists cur'. now split.
    + injection H as <- <-. now destruct i.
Qed.

Lemma emit_all_data (response : json) (items : list json) :
  forall (rs : list record),
    emit response items = (rs, None) -> map data rs = items.
Proof.
  induction items as [|cur rest IH]; intros rs H.
  - cbn in H. now injection H as <-.
  - cbn [emit] in H. destruct (build_record response cur) as [r0|e0] eqn:Hb;
      [|discriminate].
    destruct (emit response rest) as [rs' e'] eqn:Hrest.
    injection H as <- ->. cbn [map].
    rewrite (IH rs' eq_refl).
    now destruct (build_record_fields _ _ _ Hb) as (-> & _).
Qed.

(** C4, at an input where the code departs from it.  The page holds
    [can_include] and [parent] in its [meta]; the record built for its
    first item has an empty [meta]. *)
Theorem build_record_drops_page_meta :
  bind (item Pages.page_one "meta") (py_in "can_include") = Ok true /\
  bind (item Pages.page_one "meta") (py_in "parent") = Ok true /\
  build_record Pages.page_one Pages.alice
  = Ok {| data := Pages.alice;
          included := [Pages.email_b; Pages.email_a; Pages.campus];
          meta := [] |}.
Proof. repeat split. Qed.

Lemma emit_all_included (response : json) (items : list json) :
  forall (rs : list record),
    emit response items = (rs, None) ->
    map included rs = map (resolved response) items.
Proof.
  induction items as [|cur rest IH]; intros rs H.
  - cbn in H. now injection H as <-.
  - cbn [emit] in H. destruct (build_record response cur) as [r0|e0] eqn:Hb;
      [|discriminate].
    destruct (emit response rest) as [rs' e'] eqn:Hrest.
    injection H as <- ->. cbn [map].
    rewrite (IH rs' eq_refl).
    now destruct (build_record_fields _ _ _ Hb) as (_ & _ & ->).
Qed.

Lemma emit_In (response : json) (items : list json) (rs : list record)
      (e : option exn) (r : record) :
  emit response items = (rs, e) ->
  In r rs ->
  exists cur, In cur items /\ build_record response cur = Ok r.
Proof.
  intros H Hr. apply In_nth_error in Hr as [i Hi].
  destruct (emit_nth response items rs e H i r Hi) as (cur & Hc & Hb).
  exists cur. split; [now apply nth_error_In with (n := i) | exact Hb].
Qed.

Lemma yields_app (a b : list event) : yields (a ++ b) = yields a ++ yields b.
Proof. unfold yields. apply flat_map_app. Qed.

Lemma yields_map_Yield (rs : list record) : yields (map Yield rs) = rs.
Proof. induction rs as [|r rs IH]; [reflexivity|]. cbn. f_equal. exact IH. Qed.

(** One page of [iterate], by whether its links hold [next]. *)
Lemma iterate_continue (self : PCO) (inner fuel : nat) (url : string)
      (offset per_page : Z) (params : list (string * json)) (w0 w1 : world)
      (page : json) (items : list json) (rs : list record) :
  get self inner url (page_params offset per_page params) w0 = (Return page, w1) ->
  bind (item page "data") py_iter = Ok items ->
  emit page items = (rs, None) ->
  bind (item page "links") (py_in "next") = Ok true ->
  iterate self inner (S fuel) url offset per_page params w0
  = prepend (Fetch offset per_page :: map Yield rs)
            (iterate self inner fuel url (offset + per_page) per_page params w1).
Proof.
  intros Hget Hdata Hemit Hnext. cbn [iterate].
  now rewrite Hget, Hdata, Hemit, Hnext.
Qed.

Lemma iterate_stop (self : PCO) (inner fuel : nat) (url : string)
      (offset per_page : Z) (params : list (string * json)) (w0 w1 : world)
      (page : json) (items : list json) (rs : list record) :
  get self inner url (page_params offset per_page params) w0 = (Return page, w1) ->
  bind (item page "data") py_iter = Ok items ->
  emit page items = (rs, None) ->
  bind (item page "links") (py_in "next") = Ok false ->
  iterate self inner (S fuel) url offset per_page params w0
  = (Fetch offset per_page :: map Yield rs, Return tt, w1).
Proof.
  intros Hget Hdata Hemit Hnext. cbn [iterate].
  now rewrite Hget, Hdata, Hemit, Hnext.
Qed.

(** Every record that a run of [iterate] yields was built from an item
    of a page that [get] returned during the run. *)
Lemma iterate_yields_built (self : PCO) (inner : nat) (url : string)
      (per_page : Z) (params : list (string * json)) (fuel : nat) :
  forall (offset : Z) (w w' : world) (evs : list event) (o : outcome unit) (r : record),
    iterate self inner fuel url offset per_page params w = (evs, o, w') ->
    In r (yields evs) ->
    exists page cur,
      (exists off w0 w1,
          get self inner url (page_params off per_page params) w0 = (Return page, w1)) /\
      In cur (page_items page) /\
      build_record page cur = Ok r.
Proof.
  induction fuel as [|fuel IH]; intros offset w w' evs o r H Hr.
  - injection H as <- _ _. destruct Hr.
  - cbn [iterate] in H.
    destruct (get self inner url (page_params offset per_page params) w)
      as [[response|e|] w1] eqn:Hget; try (injection H as <- _ _; destruct Hr).
    destruct (bind (item response "data") py_iter) as [items|e] eqn:Hdata;
      [|injection H as <- _ _; destruct Hr].
    assert (Hitems : page_items response = items)
      by (unfold page_items; now rewrite Hdata).
    destruct (emit response items) as [rs oe] eqn:Hemit.
    assert (Hhere : In r (yields (Fetch offset per_page :: map Yield rs)) ->
                    exists page cur,
                      (exists off w0 w1,
                          get self inner url (page_params off per_page params) w0
                          = (Return page, w1)) /\
                      In cur (page_items page) /\
                      build_record page cur = Ok r).
    { intros Hin.
      change (yields (Fetch offset per_page :: map Yield rs))
        with (yields (map Yield rs)) in Hin.
      rewrite yields_map_Yield in Hin.
      destruct (emit_In response items rs oe r Hemit Hin) as (cur & Hc & Hb).
      exists response, cur. split; [now exists offset, w, w1|].
      split; [now rewrite Hitems | exact Hb]. }
    destruct oe as [e|]; [injection H as <- _ _; now apply Hhere|].
    destruct (bind (item response "links") (py_in "next")) as [[|]|e];
      try (injection H as <- _ _; now apply Hhere).
    destruct (iterate self inner fuel url (offset + per_page) per_page params w1)
      as [[evs' o'] w2] eqn:Hrest.
    cbn [prepend] in H. injection H as <- _ _.
    change (In r (yields ((Fetch offset per_page :: map Yield rs) ++ evs'))) in Hr.
    rewrite yields_app in Hr. apply in_app_or in Hr as [Hr|Hr].
    + now apply Hhere.
    + now apply (IH _ _ _ _ _ _ Hrest).
Qed.

(** C5, as the code has it.  Every record that [iterate] yields, whatever
    the pages and however the run ends, holds an item of the data of a page
    that [get] returned and, as its included list, the objects of that
    page's included sequence that have the type and id of a reference of
    the item: relationship after relationship in declaration order,
    reference after reference within a list, and for each reference in the
    order of the included sequence.  An object is in the list exactly when
    it is in the included sequence and matches a reference.  When the page
    is well formed, [iterate] yields one such record for each of its items,
    in the order of the data, right after the request for the page. *)
Theorem iterate_included_resolved (self : PCO) (inner fuel : nat) (url : string)
        (offset per_page : Z) (params : list (string * json)) (w : world) :
  (forall (evs : list event) (o : outcome unit) (w' : world) (r : record),
      iterate self inner fuel url offset per_page params w = (evs, o, w') ->
      In r (yields evs) ->
      exists page cur,
        (exists off w0 w1,
            get self inner url (page_params off per_page params) w0
            = (Return page, w1)) /\
        In cur (page_items page) /\
        data r = cur /\
        included r = resolved page cur /\
        (forall x, In x (included r) <->
                   In x (page_included page) /\
                   exists reference,
                     In reference (references cur) /\
                     same_type_id x reference = true)) /\
  (forall (page : json) (w1 : world),
      get self inner url (page_params offset per_page params) w = (Return page, w1) ->
      well_formed_page page = true ->
      (1 <= fuel)%nat ->
      exists rest,
        fst (fst (iterate self inner fuel url offset per_page params w))
        = Fetch offset per_page :: map Yield (page_records page) ++ rest /\
        map data (page_records page) = page_items page /\
        map included (page_records page) = map (resolved page) (page_items page)).
Proof.
  split.
  - intros evs o w' r H Hr.
    destruct (iterate_yields_built self inner url per_page params fuel
                offset w w' evs o r H Hr) as (page & cur & Hpage & Hcur & Hb).
    exists page, cur. destruct (build_record_fields _ _ _ Hb) as (Hd & _ & Hinc).
    split; [exact Hpage|]. split; [exact Hcur|]. split; [exact Hd|].
    split; [exact Hinc|].
    intros x. rewrite Hinc. unfold resolved. rewrite in_flat_map. split.
    + intros (reference & Href & Hx). apply filter_In in Hx as [Hx Hm].
      split; [exact Hx|]. now exists reference.
    + intros (Hx & reference & Href & Hm). exists reference.
      split; [exact Href|]. apply filter_In. now split.
  - intros page w1 Hget Hwf Hfuel. destruct fuel as [|fuel]; [lia|].
    destruct (well_formed_page_round page Hwf) as (Hdata & Hemit & Hnext).
    assert (Hmaps : map data (page_records page) = page_items page /\
                    map included (page_records page)
                    = map (resolved page) (page_items page)).
    { split; [now apply emit_all_data with (response := page)
             | now apply emit_all_included]. }
    destruct (has_next page) eqn:Hn.
    + rewrite (iterate_continue self inner fuel url offset per_page params w w1
                 page _ _ Hget Hdata Hemit Hnext).
      destruct (iterate self inner fuel url (offset + per_page) per_page params w1)
        as [[evs' o'] w2].
      exists evs'. split; [reflexivity | exact Hmaps].
    + rewrite (iterate_stop self inner fuel url offset per_page params w w1
                 page _ _ Hget Hdata Hemit Hnext).
      exists []. split; [cbn [fst]; now rewrite app_nil_r | exact Hmaps].
Qed.

Lemma iterate_included_resolved_witness :
  exists page cur,
    (exists off w0 w1,
        get (Fixtures.client 3 Pages.by_offset) 4 "/people/v2/people"
            (page_params off 2 [("include", JStr "emails")]) w0
        = (Return page, w1)) /\
    In cur (page_items page) /\
    data {| data := Pages.bob; included := [Pages.email_b]; meta := [] |} = cur /\
    included {| data := Pages.bob; included := [Pages.email_b]; meta := [] |}
    = resolved page cur /\
    (forall x,
        In x (included {| data := Pages.bob; included := [Pages.email_b]; meta := [] |})
        <-> In x (page_included page) /\
            exists reference,
              In reference (references cur) /\ same_type_id x reference = true).
Proof.
  refine (proj1 (iterate_included_resolved
                   (Fixtures.client 3 Pages.by_offset) 4 5 "/people/v2/people" 0 2
                   [("include", JStr "emails")] initial_world)
                (Fetch 0 2 :: map Yield (page_records Pages.page_one)
                   ++ Fetch (0 + 2) 2 :: map Yield (page_records Pages.page_two))
                (Return tt) (advance 2 initial_world)
                {| data := Pages.bob; included := [Pages.email_b]; meta := [] |} _ _).
  - reflexivity.
  - right. left. reflexivity.
Defined.

(** C5 as stated fails: an item whose relationship comes with links and
    without [data] gets no record.  The page holds [alice] and [dave];
    [iterate] yields the record of [alice] and raises [KeyError] at
    [dave].  So does an item whose relationship maps the name to the
    reference itself: the page holds [erin] and the object she refers to,
    and [iterate] raises [KeyError] without a record. *)
Lemma iterate_no_record_without_data :
  page_items Pages.page_links_only = [Pages.alice; Pages.dave] /\
  iterate (Fixtures.client 3 (Fixtures.replay
             [Pages.page_response Pages.page_links_only]))
          4 5 "/people/v2/people" 0 2 [] initial_world
  = ([Fetch 0 2;
      Yield {| data := Pages.alice;
               included := [Pages.email_b; Pages.email_a; Pages.campus];
               meta := [] |}],
     Raise (KeyError "data"), advance 1 initial_world) /\
  page_items Pages.page_bare_reference = [Pages.erin] /\
  page_included Pages.page_bare_reference = [Pages.campus] /\
  iterate (Fixtures.client 3 (Fixtures.replay
             [Pages.page_response Pages.page_bare_reference]))
          4 5 "/people/v2/people" 0 2 [] initial_world
  = ([Fetch 0 2], Raise (KeyError "data"), advance 1 initial_world).
Proof. repeat split. Qed.

(** C6, as the code has it.  The server answers the GET request that
    carries [offset] and [per_page] in front of the other query parameters
    (none of which is named like a parameter of the request methods) with a
    well-formed page.  Then the records yielded carry the items of the page
    in order; when the page's links hold no [next] the generator ends after
    them, one request made; when they hold [next] it goes on with the
    offset advanced by [per_page].  So when the first page has a [next]
    link and the GET request at the advanced offset is answered with a
    well-formed page that has none, the generator yields the records of the
    first page, then those of the second, and ends: two calls of the
    session, none after. *)
Theorem iterate_pagination (self : PCO) (inner : nat) (url : string)
        (offset per_page : Z) (params : list (string * json)) (w : world)
        (r1 : response) (page1 : json) :
  (1 <= inner)%nat ->
  (forall k x, In (k, x) params ->
               ~ In k ["self"; "method"; "url"; "payload"; "upload"]) ->
  session self (transport_calls w)
    {| s_method := "GET"; s_url := Url.clean_url (api_base self) url;
       s_headers := [("User-Agent", "pypco"); ("Authorization", auth_header self)];
       s_params := ("offset", JNum offset) :: ("per_page", JNum per_page) :: params;
       s_json := None; s_timeout := timeout self; s_files := None |} = Ok r1 ->
  passes r1 = true ->
  json_body r1 = Some page1 ->
  well_formed_page page1 = true ->
  map data (page_records page1) = page_items page1 /\
  (has_next page1 = false ->
   forall fuel,
     iterate self inner (S fuel) url offset per_page params w
     = (Fetch offset per_page :: map Yield (page_records page1), Return tt,
        advance 1 w)) /\
  (has_next page1 = true ->
   (forall fuel,
       iterate self inner (S fuel) url offset per_page params w
       = prepend (Fetch offset per_page :: map Yield (page_records page1))
                 (iterate self inner fuel url (offset + per_page) per_page params
                          (advance 1 w))) /\
   (forall (r2 : response) (page2 : json) (fuel : nat),
       session self (S (transport_calls w))
         {| s_method := "GET"; s_url := Url.clean_url (api_base self) url;
            s_headers := [("User-Agent", "pypco"); ("Authorization", auth_header self)];
            s_params := ("offset", JNum (offset + per_page))
                          :: ("per_page", JNum per_page) :: params;
            s_json := None; s_timeout := timeout self; s_files := None |} = Ok r2 ->
       passes r2 = true ->
       json_body r2 = Some page2 ->
       well_formed_page page2 = true ->
       has_next page2 = false ->
       (2 <= fuel)%nat ->
       iterate self inner fuel url offset per_page params w
       = (Fetch offset per_page :: map Yield (page_records page1)
            ++ Fetch (offset + per_page) per_page :: map Yield (page_records page2),
          Return tt, advance 2 w)
       /\ map data (page_records page2) = page_items page2)).
Proof.
  intros Hinner Hfree Hs1 Hp1 Hb1 Hwf.
  assert (Hfree' : forall offset' k x,
             In (k, x) (page_params offset' per_page params) ->
             ~ In k ["self"; "method"; "url"; "payload"; "upload"]).
  { intros offset' k x [[= <- _]|[[= <- _]|Hin]].
    - cbn. intros H. repeat (destruct H as [H|H]; [discriminate H|]). exact H.
    - cbn. intros H. repeat (destruct H as [H|H]; [discriminate H|]). exact H.
    - now apply (Hfree k x). }
  assert (Hget : get self inner url (page_params offset per_page params) w
                 = (Return page1, advance 1 w))
    by (apply get_answered with (r := r1); first [assumption | apply Hfree']).
  destruct (well_formed_page_round page1 Hwf) as (Hdata & Hemit & Hnext).
  split; [now apply emit_all_data with (response := page1)|].
  split.
  - intros Hn fuel. rewrite Hn in Hnext.
    now apply iterate_stop with (page := page1) (items := page_items page1).
  - intros Hn. rewrite Hn in Hnext. split.
    + intros fuel.
      now apply iterate_continue with (page := page1) (items := page_items page1).
    + intros r2 page2 fuel Hs2 Hp2 Hb2 Hwf2 Hn2 Hfuel.
      destruct (well_formed_page_round page2 Hwf2) as (Hdata2 & Hemit2 & Hnext2).
      rewrite Hn2 in Hnext2.
      split; [|now apply emit_all_data with (response := page2)].
      assert (Hget2 : get self inner url
                          (page_params (offset + per_page) per_page params) (advance 1 w)
                      = (Return page2, advance 2 w)).
      { rewrite (get_answered self inner url _ (advance 1 w) r2 page2);
          first [assumption | apply Hfree' | idtac].
        - now rewrite advance_advance.
        - cbn [advance transport_calls].
          replace (transport_calls w + 1)%nat with (S (transport_calls w)) by lia.
          exact Hs2. }
      destruct fuel as [|[|fuel]]; [lia | lia |].
      rewrite (iterate_continue self inner _ url offset per_page params w (advance 1 w)
                 page1 _ _ Hget Hdata Hemit Hnext).
      rewrite (iterate_stop self inner _ url (offset + per_page) per_page params
                 (advance 1 w) (advance 2 w) page2 _ _ Hget2 Hdata2 Hemit2 Hnext2).
      reflexivity.
Qed.

Lemma iterate_pagination_witness :
  iterate (Fixtures.client 3 Pages.by_offset)
          4 5 "/people/v2/people" 0 2 [("include", JStr "emails")] initial_world
  = (Fetch 0 2 :: map Yield (page_records Pages.page_one)
       ++ Fetch (0 + 2) 2 :: map Yield (page_records Pages.page_two),
     Return tt, advance 2 initial_world)
  /\ map data (page_records Pages.page_two) = page_items Pages.page_two.
Proof.
  refine (proj2 (proj2 (proj2
    (iterate_pagination
       (Fixtures.client 3 Pages.by_offset)
       4 "/people/v2/people" 0 2 [("include", JStr "emails")]
       initial_world (Pages.page_response Pages.page_one) Pages.page_one
       _ _ _ _ _ _)) _)
    (Pages.page_response Pages.page_two) Pages.page_two 5%nat _ _ _ _ _ _);
    first [reflexivity | lia | idtac].
  intros k x [[= <- <-]|[]] Hk. cbn in Hk.
  repeat (destruct Hk as [Hk|Hk]; [discriminate Hk|]). exact Hk.
Defined.

(** C6 as stated fails: when the first page has a [next] link and no
    [meta], the generator raises [KeyError] at the first item, having
    yielded nothing, and never asks for the second page; and a query
    parameter named [method] makes it raise [TypeError] before any
    request. *)
Lemma iterate_stops_without_meta :
  has_next Pages.page_without_meta = true /\
  page_items Pages.page_without_meta = [Pages.carol] /\
  iterate (Fixtures.client 3 (Fixtures.replay
             [Pages.page_response Pages.page_without_meta;
              Pages.page_response Pages.page_two]))
          4 5 "/people/v2/people" 0 2 [] initial_world
  = ([Fetch 0 2], Raise (KeyError "meta"), advance 1 initial_world) /\
  exists msg,
    iterate (Fixtures.client 3 Pages.by_offset)
            4 5 "/people/v2/people" 0 2 [("method", JStr "GET")] initial_world
    = ([Fetch 0 2], Raise (TypeError msg), initial_world).
Proof. repeat split. eexists. reflexivity. Qed.

(** The records of the two pages of the example, spelled out. *)
Example page_records_example :
  page_records Pages.page_one
  = [ {| data := Pages.alice;
         included := [Pages.email_b; Pages.email_a; Pages.campus];
         meta := [] |};
      {| data := Pages.bob; included := [Pages.email_b]; meta := [] |} ] /\
  page_records Pages.page_two
  = [ {| data := Pages.carol; included := []; meta := [] |} ].
Proof. split; reflexivity. Qed.

End IterateFacts.

(** * Further properties of the URL clean-up *)

Module UrlMore.
Import PyStr Url UrlAux UrlFacts.

Lemma app_inv_length (a b c d : string) :
  a +:+ b = c +:+ d -> String.length a = String.length c -> a = c /\ b = d.
Proof.
  revert c. induction a as [|x a IH]; intros [|y c] H Hl; try discriminate.
  - now split.
  - rewrite !app_cons in H. injection H as -> H. cbn in Hl.
    destruct (IH c H ltac:(lia)) as [-> ->]. now split.
Qed.

Lemma length_app (a b : string) :
  String.length (a +:+ b) = (String.length a + String.length b)%nat.
Proof.
  induction a as [|x a IH]; [reflexivity|].
  rewrite app_cons. cbn [String.length]. now rewrite IH.
Qed.

(** A text that the filter leaves alone splits into parts that the filter
    leaves alone. *)
Lemma squeeze_fixed_split (a s : string) (b : nat) :
  squeeze b (a +:+ s) = a +:+ s ->
  squeeze b a = a /\ squeeze (budget_after b a) s = s.
Proof.
  rewrite squeeze_app. intros H.
  pose proof (squeeze_length a b) as La.
  pose proof (squeeze_length s (budget_after b a)) as Ls.
  pose proof (f_equal String.length H) as Hl. rewrite !length_app in Hl.
  apply app_inv_length; [exact H | lia].
Qed.

Lemma budget_after_two (pre : string) :
  forall b, (b <= 2)%nat -> (2 <= budget_after b pre)%nat ->
            (pre = EmptyString /\ (2 <= b)%nat) \/ last_char pre = Some colon.
Proof.
  induction pre as [|c t IH]; intros b Hb H; [now left|]. right.
  cbn [budget_after] in H.
  set (b1 := if Ascii.eqb c slash then Nat.pred b
             else if Ascii.eqb c colon then 2%nat else 1%nat) in *.
  assert (Hb1 : (b1 <= 2)%nat)
    by (subst b1; destruct (Ascii.eqb c slash); [lia|];
        destruct (Ascii.eqb c colon); lia).
  destruct (IH b1 Hb1 H) as [[-> H2]|Hl].
  - cbn [last_char]. subst b1.
    destruct (Ascii.eqb c slash); [lia|].
    destruct (Ascii.eqb_spec c colon) as [->|]; [reflexivity | lia].
  - destruct t as [|d t']; [discriminate|]. exact Hl.
Qed.

Lemma budget_after_le2 (p : string) :
  forall b, (b <= 2)%nat -> (budget_after b p <= 2)%nat.
Proof.
  induction p as [|c t IH]; intros b Hb; [exact Hb|].
  cbn [budget_after]. apply IH.
  destruct (Ascii.eqb c slash); [lia|]. destruct (Ascii.eqb c colon); lia.
Qed.

Lemma squeeze_slash_fixed (b : nat) (t : string) :
  squeeze b (String slash t) = String slash t -> (1 <= b)%nat /\ squeeze (Nat.pred b) t = t.
Proof.
  cbn [squeeze]. rewrite Ascii.eqb_refl. destruct b as [|b].
  - intros H. pose proof (squeeze_length t 0) as L.
    apply (f_equal String.length) in H. cbn [String.length] in H. lia.
  - intros [= H]. split; [lia | exact H].
Qed.

(** X1.  The slash substitution is idempotent on every string. *)
Theorem collapse_slashes_idempotent (s : string) :
  collapse_slashes (collapse_slashes s) = collapse_slashes s.
Proof. rewrite !collapse_squeeze. apply squeeze_idem. Qed.

(** X2.  In a string that went through the substitution, two slashes in a
    row come only straight after a colon, and no third slash follows them. *)
Theorem collapse_slashes_no_double (s pre post : string) :
  collapse_slashes s = pre +:+ String slash (String slash post) ->
  last_char pre = Some colon /\ first_char post <> Some slash.
Proof.
  intros H.
  assert (Hfix : squeeze 1 (pre +:+ String slash (String slash post))
                 = pre +:+ String slash (String slash post)).
  { rewrite <- H, collapse_squeeze. apply squeeze_idem. }
  apply squeeze_fixed_split in Hfix as [_ Hrest].
  apply squeeze_slash_fixed in Hrest as [Hb1 Hrest].
  apply squeeze_slash_fixed in Hrest as [Hb2 Hrest].
  assert (Hle : (budget_after 1 pre <= 2)%nat) by (apply budget_after_le2; lia).
  split.
  - destruct (budget_after_two pre 1) as [[_ Hbad]|Hl]; [lia | lia | lia | exact Hl].
  - assert (Hz : Nat.pred (Nat.pred (budget_after 1 pre)) = 0%nat) by lia.
    rewrite Hz in Hrest. intros Hp.
    destruct post as [|c t]; [discriminate|]. injection Hp as ->.
    apply squeeze_slash_fixed in Hrest as [Hbad _]. lia.
Qed.

Lemma collapse_slashes_no_double_witness :
  last_char "https:" = Some colon /\ first_char "host/a/b" <> Some slash.
Proof.
  apply (collapse_slashes_no_double "https:////host//a///b" "https:" "host/a/b").
  reflexivity.
Defined.

Lemma strip_squeeze (s : string) :
  forall b, strip_slashes (squeeze b s) = strip_slashes s.
Proof.
  induction s as [|c t IH]; intros b; [reflexivity|].
  cbn [squeeze strip_slashes]. destruct (Ascii.eqb c slash) eqn:Hc.
  - destruct b as [|b]; [apply IH|].
    cbn [strip_slashes]. rewrite Hc. apply IH.
  - cbn [strip_slashes]. rewrite Hc. now rewrite IH.
Qed.

(** X3.  The substitution only ever drops slashes: the other characters
    come out unchanged and in order, the result is never longer than the
    argument, and a string without two slashes in a row is left as it is. *)
Theorem collapse_slashes_only_drops_slashes (s : string) :
  strip_slashes (collapse_slashes s) = strip_slashes s /\
  (String.length (collapse_slashes s) <= String.length s)%nat /\
  (has_double_slash s = false -> collapse_slashes s = s).
Proof.
  rewrite collapse_squeeze. split; [apply strip_squeeze|].
  split; [apply squeeze_length|].
  intros H. apply squeeze_no_double; [exact H | left; lia].
Qed.

Lemma collapse_slashes_only_drops_slashes_witness :
  collapse_slashes "/people/v2/people?per_page=5" = "/people/v2/people?per_page=5".
Proof.
  exact (proj2 (proj2 (collapse_slashes_only_drops_slashes
                         "/people/v2/people?per_page=5")) eq_refl).
Defined.

(** X4.  With the default base URL, cleaning is the base URL followed by
    the substitution applied to the rest: to the whole argument when it does
    not start with the base URL (no slash is put between the two), to what
    follows the base URL when it does. *)
Theorem clean_url_default_shape (u : string) :
  (startswith u default_api_base = false ->
   clean_url default_api_base u = default_api_base +:+ collapse_slashes u) /\
  clean_url default_api_base (default_api_base +:+ u)
  = default_api_base +:+ collapse_slashes u.
Proof.
  assert (H : forall r, collapse_slashes (default_api_base +:+ r)
                        = default_api_base +:+ collapse_slashes r).
  { intros r. rewrite !collapse_squeeze.
    now rewrite squeeze_fixed_app by reflexivity. }
  split.
  - intros Hs. unfold clean_url, absolute. rewrite Hs. apply H.
  - unfold clean_url, absolute, startswith. rewrite prefix_app. apply H.
Qed.

Lemma clean_url_default_shape_witness :
  clean_url default_api_base "people//v2" = default_api_base +:+ collapse_slashes "people//v2".
Proof.
  exact (proj1 (clean_url_default_shape "people//v2") eq_refl).
Defined.

(** A path given without its leading slash is glued to the host name. *)
Example clean_url_no_leading_slash :
  clean_url default_api_base "people//v2"
  = "https://api.planningcenteronline.compeople/v2".
Proof. reflexivity. Qed.

End UrlMore.

(** * Further properties of the request pipeline *)

Module PcoMore.
Import PyStr Py Pco Verbs PcoFacts.

(** X5.  An exception of the transport that is not a timeout is not
    retried: after [k] timeouts that stay below the ceiling (or with a
    ceiling of zero or less) it reaches the caller unchanged, after [k + 1]
    calls of the transport. *)
Theorem timeout_wrapper_propagates (self : PCO) (c : call) (w : world)
        (k fuel : nat) (e : exn) :
  Z.of_nat k < timeout_retries self \/ timeout_retries self <= 0 ->
  (forall i, (i < k)%nat ->
             exists m, _do_request self (transport_calls w + i) c = Err (Timeout m)) ->
  _do_request self (transport_calls w + k) c = Err e ->
  is_timeout e = false ->
  (k < fuel)%nat ->
  _do_timeout_managed_request self fuel c w = (Raise e, advance (S k) w).
Proof.
  intros Hk Hto He Hne Hfuel. unfold _do_timeout_managed_request.
  replace fuel with (k + S (fuel - S k))%nat by lia.
  rewrite timeout_loop_skip; [|exact Hto|intros i Hi; lia].
  rewrite (timeout_loop_other self _ _ c (advance k w) e He Hne).
  rewrite advance_advance. do 2 f_equal. lia.
Qed.

Lemma timeout_wrapper_propagates_witness :
  _do_timeout_managed_request
    (Fixtures.client 3 (fun n _ => if (n <? 1)%nat then Err (Timeout "read timed out")
                                   else Err (Builtin "ConnectionError" "refused")))
    4 Fixtures.people initial_world
  = (Raise (Builtin "ConnectionError" "refused"), advance 2 initial_world).
Proof.
  apply (timeout_wrapper_propagates _ Fixtures.people initial_world 1 4).
  - left. cbn. lia.
  - intros i Hi. exists "read timed out". destruct i; [reflexivity | lia].
  - reflexivity.
  - reflexivity.
  - lia.
Defined.

Lemma timeout_loop_bounded (self : PCO) (c : call) (fuel : nat) :
  forall (tc : Z) (w : world),
    0 <= tc < timeout_retries self ->
    Z.of_nat fuel >= timeout_retries self - tc ->
    exists (o : outcome response) (k : nat),
      timeout_loop self fuel tc c w = (o, advance k w) /\
      finished o = true /\
      (1 <= k)%nat /\ Z.of_nat k <= timeout_retries self - tc.
Proof.
  induction fuel as [|fuel IH]; intros tc w Htc Hfuel; [lia|].
  cbn [timeout_loop]. cbv zeta.
  assert (Hw : {| transport_calls := S (transport_calls w); slept := slept w |}
               = advance 1 w)
    by (unfold advance; f_equal; lia).
  rewrite Hw.
  destruct (_do_request self (transport_calls w) c) as [r|e].
  - exists (Return r), 1%nat. repeat split; lia.
  - destruct e as [m| m | cls m | m cause | m cause | st m body cause];
      try (eexists _, 1%nat; repeat split; lia).
    destruct (Z.eqb_spec (tc + 1) (timeout_retries self)) as [He|Hne].
    + eexists _, 1%nat. repeat split; lia.
    + destruct (IH (tc + 1) (advance 1 w)) as (o & k & Hrun & Hfin & Hk1 & Hk2);
        [lia | lia |].
      exists o, (S k). rewrite Hrun, advance_advance.
      split; [reflexivity|]. split; [exact Hfin|]. lia.
Qed.

(** X6.  With a ceiling of at least one the wrapper ends whatever the
    transport does: given as many iterations as the ceiling, it returns or
    raises after at least one and at most [timeout_retries] calls of the
    transport, and it has slept for nothing. *)
Theorem timeout_wrapper_terminates (self : PCO) (c : call) (w : world) (fuel : nat) :
  1 <= timeout_retries self ->
  Z.of_nat fuel >= timeout_retries self ->
  exists (o : outcome response) (k : nat),
    _do_timeout_managed_request self fuel c w = (o, advance k w) /\
    finished o = true /\
    (1 <= k)%nat /\ Z.of_nat k <= timeout_retries self.
Proof.
  intros Hpos Hfuel.
  destruct (timeout_loop_bounded self c fuel 0 w) as (o & k & H & Hf & Hk1 & Hk2);
    [lia | lia |].
  exists o, k. repeat split; [exact H | exact Hf | lia | lia].
Qed.

Lemma timeout_wrapper_terminates_witness :
  exists (o : outcome response) (k : nat),
    _do_timeout_managed_request (Fixtures.client 3 (Fixtures.timeouts_then_ok 1))
                                3 Fixtures.people initial_world
    = (o, advance k initial_world) /\
    finished o = true /\ (1 <= k)%nat /\ Z.of_nat k <= 3.
Proof.
  apply (timeout_wrapper_terminates (Fixtures.client 3 (Fixtures.timeouts_then_ok 1))
           Fixtures.people initial_world 3); cbn; lia.
Defined.

Lemma timeout_loop_return_inv (self : PCO) (c : call) (fuel : nat) :
  forall (tc : Z) (w w' : world) (r : response),
    timeout_loop self fuel tc c w = (Return r, w') ->
    exists k,
      w' = advance (S k) w /\
      _do_request self (transport_calls w + k) c = Ok r /\
      (forall i, (i < k)%nat ->
                 exists m, _do_request self (transport_calls w + i) c = Err (Timeout m)).
Proof.
  induction fuel as [|fuel IH]; intros tc w w' r H; [discriminate|].
  cbn [timeout_loop] in H.
  destruct (_do_request self (transport_calls w) c) as [r0|e] eqn:Hreq.
  - injection H as <- <-. exists 0%nat. rewrite Nat.add_0_r.
    split; [unfold advance; f_equal; lia|]. split; [exact Hreq|]. intros i Hi. lia.
  - destruct e as [m| m | cls m | m cause | m cause | st m body cause];
      try discriminate.
    destruct (Z.eqb_spec (tc + 1) (timeout_retries self)); [discriminate|].
    apply IH in H as (k & -> & Hok & Hto). exists (S k).
    split; [unfold advance; cbn; f_equal; lia|].
    split; [cbn in Hok; rewrite <- Hok; f_equal; lia|].
    intros i Hi. destruct i as [|i].
    + exists m. now rewrite Nat.add_0_r.
    + destruct (Hto i ltac:(lia)) as [m' Hm']. exists m'.
      cbn in Hm'. rewrite <- Hm'. f_equal. lia.
Qed.

(** X7.  A response that the timeout wrapper returns is the response of
    the last call of the transport, and every call before it timed out. *)
Theorem timeout_wrapper_returns_last (self : PCO) (c : call) (fuel : nat)
        (w w' : world) (r : response) :
  _do_timeout_managed_request self fuel c w = (Return r, w') ->
  exists k,
    w' = advance (S k) w /\
    _do_request self (transport_calls w + k) c = Ok r /\
    (forall i, (i < k)%nat ->
               exists m, _do_request self (transport_calls w + i) c = Err (Timeout m)).
Proof. apply timeout_loop_return_inv. Qed.

Lemma timeout_wrapper_returns_last_witness :
  exists k,
    advance 3 initial_world = advance (S k) initial_world /\
    _do_request (Fixtures.client 3 (Fixtures.timeouts_then_ok 2))
                (transport_calls initial_world + k) Fixtures.people
    = Ok Fixtures.ok_response /\
    (forall i, (i < k)%nat ->
               exists m, _do_request (Fixtures.client 3 (Fixtures.timeouts_then_ok 2))
                                     (transport_calls initial_world + i) Fixtures.people
                         = Err (Timeout m)).
Proof.
  apply (timeout_wrapper_returns_last
           (Fixtures.client 3 (Fixtures.timeouts_then_ok 2)) Fixtures.people 5).
  reflexivity.
Defined.

Lemma ratelimit_loop_never_429 (self : PCO) (c : call) (inner fuel : nat) :
  forall (w w' : world) (r : response),
    ratelimit_loop self inner fuel c w = (Return r, w') ->
    (status_code r =? 429) = false.
Proof.
  induction fuel as [|fuel IH]; intros w w' r H; [discriminate|].
  cbn [ratelimit_loop] in H.
  destruct (_do_timeout_managed_request self inner c w) as [[r0|e|] w1];
    try discriminate.
  destruct (status_code r0 =? 429) eqn:Hs.
  - destruct (retry_after r0) as [secs|e]; [|discriminate].
    destruct (sleep self secs w1) as [w2|e]; [|discriminate].
    now apply IH in H.
  - now injection H as <- <-.
Qed.

(** X8.  Whatever the network does, the rate-limit wrapper never returns a
    response of status 429. *)
Theorem ratelimit_wrapper_never_returns_429 (self : PCO) (c : call) (fuel : nat)
        (w w' : world) (r : response) :
  _do_ratelimit_managed_request self fuel c w = (Return r, w') ->
  (status_code r =? 429) = false.
Proof. apply ratelimit_loop_never_429. Qed.

Lemma ratelimit_wrapper_never_returns_429_witness :
  (status_code Fixtures.ok_response =? 429) = false.
Proof.
  apply (ratelimit_wrapper_never_returns_429
           (Fixtures.client 3 (Fixtures.replay [Fixtures.throttled "1"]))
           Fixtures.people 4 initial_world
           {| transport_calls := 2; slept := [1] |}).
  reflexivity.
Defined.

(** X9.  A 429 whose [Retry-After] cannot be slept for ends the wrapper
    with the exception of the failing step, in the world that the call of
    the layer below left and without any sleep: [KeyError] when the header
    is missing, [ValueError] when [int()] rejects its value, [ValueError]
    from [time.sleep] when the value is negative, [OverflowError] from
    [time.sleep] when the value is more than 9223372036 seconds either
    way. *)
Theorem ratelimit_wrapper_bad_retry_after (self : PCO) (c : call) (w w1 : world)
        (fuel : nat) (r : response) :
  _do_timeout_managed_request self fuel c w = (Return r, w1) ->
  status_code r = 429 ->
  (headers r !! "retry-after" = None ->
   _do_ratelimit_managed_request self fuel c w
   = (Raise (KeyError "retry-after"), w1)) /\
  (forall v, headers r !! "retry-after" = Some v -> py_int v = None ->
   exists msg,
     _do_ratelimit_managed_request self fuel c w = (Raise (ValueError msg), w1)) /\
  (forall v n, headers r !! "retry-after" = Some v -> py_int v = Some n ->
   - 9223372036 <= n < 0 ->
   _do_ratelimit_managed_request self fuel c w
   = (Raise (ValueError "sleep length must be non-negative"), w1)) /\
  (forall v n, headers r !! "retry-after" = Some v -> py_int v = Some n ->
   n < - 9223372036 \/ 9223372036 < n ->
   exists msg,
     _do_ratelimit_managed_request self fuel c w
     = (Raise (Builtin "OverflowError" msg), w1)).
Proof.
  intros Hlow Hs.
  destruct fuel as [|fuel]; [discriminate|].
  unfold _do_ratelimit_managed_request. cbn [ratelimit_loop].
  rewrite Hlow, Hs, Z.eqb_refl.
  unfold retry_after, int_of_str, py_int. split; [|split; [|split]].
  - intros ->. reflexivity.
  - intros v ->. destruct (parse_int v); [discriminate| |]; intros _; now eexists.
  - intros v n ->. destruct (parse_int v); [|discriminate..]. intros [= ->] Hn.
    now rewrite sleep_negative by (unfold sleep_limit; lia).
  - intros v n ->. destruct (parse_int v); [|discriminate..]. intros [= ->] Hn.
    destruct (sleep_overflow self n w1) as [msg ->]; [unfold sleep_limit; lia|].
    now exists msg.
Qed.

Lemma ratelimit_wrapper_bad_retry_after_witness :
  _do_ratelimit_managed_request
    (Fixtures.client 3 (Fixtures.replay [Fixtures.throttled "-3"]))
    2 Fixtures.people initial_world
  = (Raise (ValueError "sleep length must be non-negative"), advance 1 initial_world).
Proof.
  refine (proj1 (proj2 (proj2 (ratelimit_wrapper_bad_retry_after
            (Fixtures.client 3 (Fixtures.replay [Fixtures.throttled "-3"]))
            Fixtures.people initial_world (advance 1 initial_world) 2
            (Fixtures.throttled "-3") _ _)))
            "-3" (-3) _ _ _);
    first [reflexivity | lia].
Defined.

(** X10.  The count of timeouts starts afresh with every retry after a
    429: [n] timeouts, a 429, [n] more timeouts and then a response are
    recovered whenever [n] alone is below the ceiling, although the two
    rounds together may well reach it. *)
Theorem ratelimit_wrapper_fresh_timeout_count (self : PCO) (c : call) (w : world)
        (n fuel : nat) (r1 r2 : response) (secs : Z) :
  Z.of_nat n < timeout_retries self ->
  (forall i, (i < n)%nat ->
             exists m, _do_request self (transport_calls w + i) c = Err (Timeout m)) ->
  _do_request self (transport_calls w + n) c = Ok r1 ->
  status_code r1 = 429 ->
  (exists v, headers r1 !! "retry-after" = Some v /\ py_int v = Some secs) ->
  0 <= secs <= 9223372036 ->
  sleep_error self (advance (S n) w) secs = None ->
  (forall i, (i < n)%nat ->
             exists m, _do_request self (transport_calls w + S n + i) c = Err (Timeout m)) ->
  _do_request self (transport_calls w + S n + n) c = Ok r2 ->
  status_code r2 <> 429 ->
  (n < fuel)%nat -> (2 <= fuel)%nat ->
  _do_ratelimit_managed_request self fuel c w
  = (Return r2,
     {| transport_calls := transport_calls w + 2 * S n; slept := slept w ++ [secs] |}).
Proof.
  intros Hn Hto1 Hr1 Hs1 (v & Hv & Hint) Hsecs Hos Hto2 Hr2 Hs2 Hfuel Hfuel2.
  pose proof (retry_after_reads r1 v secs Hv Hint) as Hra.
  unfold _do_ratelimit_managed_request.
  destruct fuel as [|[|f]]; [lia | lia |].
  rewrite (ratelimit_loop_sleep self _ _ c w (advance (S n) w) r1 secs);
    [| now apply timeout_loop_recovers with (k := n) | exact Hs1 | exact Hra
     | exact Hsecs | exact Hos].
  set (w2 := {| transport_calls := transport_calls (advance (S n) w);
                slept := slept (advance (S n) w) ++ [secs] |}).
  rewrite (ratelimit_loop_pass self _ _ c w2 (advance (S n) w2) r2).
  - unfold w2, advance. cbn. do 2 f_equal; lia.
  - apply timeout_loop_recovers with (k := n); [exact Hn| | |lia].
    + intros i Hi. destruct (Hto2 i Hi) as [m Hm]. exists m.
      unfold w2, advance. cbn. rewrite <- Hm. f_equal; lia.
    + unfold w2, advance. cbn. rewrite <- Hr2. f_equal; lia.
  - exact Hs2.
Qed.

Lemma ratelimit_wrapper_fresh_timeout_count_witness :
  _do_ratelimit_managed_request
    (Fixtures.client 3
       (fun n _ => match n with
                   | 2%nat => Ok (Fixtures.throttled "4")
                   | 5%nat => Ok Fixtures.ok_response
                   | _ => Err (Timeout "read timed out")
                   end))
    3 Fixtures.people initial_world
  = (Return Fixtures.ok_response, {| transport_calls := 6; slept := [4] |}).
Proof.
  apply (ratelimit_wrapper_fresh_timeout_count _ Fixtures.people initial_world 2 3
           (Fixtures.throttled "4") Fixtures.ok_response 4);
    try (intros i Hi; exists "read timed out";
         destruct i as [|[|i]]; [reflexivity | reflexivity | lia]);
    first [reflexivity | lia | cbn; lia | (exists "4"; split; reflexivity)].
Defined.

Lemma ratelimit_loop_world (self : PCO) (c : call) (inner fuel : nat) :
  forall (w w' : world) (o : outcome response),
    ratelimit_loop self inner fuel c w = (o, w') ->
    (exists l, slept w' = slept w ++ l /\ Forall (fun secs => 0 <= secs) l) /\
    (transport_calls w <= transport_calls w')%nat.
Proof.
  induction fuel as [|fuel IH]; intros w w' o H.
  - injection H as <- <-. split; [|lia]. exists []. now rewrite app_nil_r.
  - cbn [ratelimit_loop] in H.
    destruct (_do_timeout_managed_request self inner c w) as [o1 w1] eqn:Hlow.
    apply timeout_loop_world in Hlow as [Hs Ht].
    assert (Hsame : (exists l, slept w1 = slept w ++ l /\ Forall (fun secs => 0 <= secs) l)
                    /\ (transport_calls w <= transport_calls w1)%nat).
    { split; [|exact Ht]. exists []. now rewrite app_nil_r. }
    destruct o1 as [r|e|]; try (injection H as <- <-; exact Hsame).
    destruct (status_code r =? 429); [|injection H as <- <-; exact Hsame].
    destruct (retry_after r) as [secs|e]; [|injection H as <- <-; exact Hsame].
    destruct (sleep self secs w1) as [w2|e] eqn:Hsl; [|injection H as <- <-; exact Hsame].
    apply sleep_inv in Hsl as [Hsecs ->].
    apply IH in H as [(l & Hl & Hpos) Ht']. cbn in Hl, Ht'.
    split; [|lia]. exists (secs :: l). split.
    + rewrite Hl, Hs, <- app_assoc. reflexivity.
    + constructor; [lia | exact Hpos].
Qed.

(** X11.  A managed request only ever adds to what has happened: whatever
    the outcome of [request_json], the calls of the transport are counted
    upwards and the sleeps recorded before are still there, followed by
    sleeps of durations that are not negative. *)
Theorem request_json_history (self : PCO) (fuel : nat) (c : call)
        (w w' : world) (o : outcome json) :
  request_json self fuel c w = (o, w') ->
  (exists l, slept w' = slept w ++ l /\ Forall (fun secs => 0 <= secs) l) /\
  (transport_calls w <= transport_calls w')%nat.
Proof.
  unfold request_json, request_response, _do_url_managed_request,
    _do_ratelimit_managed_request.
  intros H.
  destruct (ratelimit_loop self fuel fuel _ w) as [o1 w1] eqn:Hr.
  apply ratelimit_loop_world in Hr.
  destruct o1 as [r|e|].
  - destruct (raise_for_status r).
    + now injection H as <- <-.
    + destruct (json_body r); now injection H as <- <-.
  - destruct (is_Exception e); now injection H as <- <-.
  - now injection H as <- <-.
Qed.

Lemma request_json_history_witness :
  (exists l, slept {| transport_calls := 4; slept := [2; 0; 1] |}
             = slept initial_world ++ l /\ Forall (fun secs => 0 <= secs) l) /\
  (transport_calls initial_world <= 4)%nat.
Proof.
  apply (request_json_history
           (Fixtures.client 3 (Fixtures.replay
              [Fixtures.throttled "2"; Fixtures.throttled "0"; Fixtures.throttled "1"]))
           4 Fixtures.people initial_world
           {| transport_calls := 4; slept := [2; 0; 1] |} (Return (JDict []))).
  reflexivity.
Defined.

(** X12.  Every exception that [request_response] raises is of one of
    three kinds: [PCOUnexpectedRequestException] built around an [Exception]
    of the layers below, with that exception's [str()] as message;
    [PCORequestException] for a response of status 400 to 599, with that
    status and the body of the response; or an exception that is not an
    [Exception] (such as [KeyboardInterrupt]), passed on as it is. *)
Theorem request_response_raises (self : PCO) (fuel : nat) (c : call)
        (w w' : world) (e : exn) :
  request_response self fuel c w = (Raise e, w') ->
  (exists cause,
      e = PCOUnexpectedRequestException (str_exn cause) cause /\
      is_Exception cause = true /\
      _do_url_managed_request self fuel c w = (Raise cause, w')) \/
  (exists r msg,
      e = PCORequestException (status_code r) msg (text r) (HTTPError msg) /\
      400 <= status_code r < 600 /\
      _do_url_managed_request self fuel c w = (Return r, w')) \/
  (is_Exception e = false /\
   _do_url_managed_request self fuel c w = (Raise e, w')).
Proof.
  unfold request_response. intros H.
  destruct (_do_url_managed_request self fuel c w) as [[r|cause|] w1];
    [| |discriminate].
  - right. left. destruct (passes r) eqn:Hp.
    + rewrite (proj1 (raise_for_status_passes r) Hp) in H. discriminate.
    + destruct (proj2 (raise_for_status_passes r) Hp) as (Hs & msg & Hm).
      rewrite Hm in H. injection H as <- <-. now exists r, msg.
  - destruct (is_Exception cause) eqn:Hc; injection H as <- <-.
    + left. now exists cause.
    + right. right. now split.
Qed.

Lemma request_response_raises_witness :
  (exists cause,
      PCOUnexpectedRequestException "refused" (Builtin "ConnectionError" "refused")
      = PCOUnexpectedRequestException (str_exn cause) cause /\
      is_Exception cause = true /\
      _do_url_managed_request
        (Fixtures.client 3 (fun _ _ => Err (Builtin "ConnectionError" "refused")))
        2 Fixtures.people initial_world
      = (Raise cause, advance 1 initial_world)) \/
  (exists r msg,
      PCOUnexpectedRequestException "refused" (Builtin "ConnectionError" "refused")
      = PCORequestException (status_code r) msg (text r) (HTTPError msg) /\
      400 <= status_code r < 600 /\
      _do_url_managed_request
        (Fixtures.client 3 (fun _ _ => Err (Builtin "ConnectionError" "refused")))
        2 Fixtures.people initial_world
      = (Return r, advance 1 initial_world)) \/
  (is_Exception
     (PCOUnexpectedRequestException "refused" (Builtin "ConnectionError" "refused"))
   = false /\
   _do_url_managed_request
     (Fixtures.client 3 (fun _ _ => Err (Builtin "ConnectionError" "refused")))
     2 Fixtures.people initial_world
   = (Raise (PCOUnexpectedRequestException "refused"
               (Builtin "ConnectionError" "refused")),
      advance 1 initial_world)).
Proof.
  apply (request_response_raises
           (Fixtures.client 3 (fun _ _ => Err (Builtin "ConnectionError" "refused")))
           2 Fixtures.people initial_world).
  reflexivity.
Defined.

(** X13.  A response that [request_response] returns is the response that
    the layers below returned, and its status is neither 429 nor in the
    range 400 to 599; any other status, 3xx and 600 and above included,
    counts as success. *)
Theorem request_response_returns (self : PCO) (fuel : nat) (c : call)
        (w w' : world) (r : response) :
  request_response self fuel c w = (Return r, w') ->
  _do_url_managed_request self fuel c w = (Return r, w') /\
  passes r = true /\ (status_code r =? 429) = false.
Proof.
  unfold request_response. intros H.
  destruct (_do_url_managed_request self fuel c w) as [[r0|cause|] w1] eqn:Hlow;
    [| destruct (is_Exception cause); discriminate | discriminate].
  destruct (passes r0) eqn:Hp.
  - rewrite (proj1 (raise_for_status_passes r0) Hp) in H. injection H as <- <-.
    split; [reflexivity|]. split; [exact Hp|].
    unfold _do_url_managed_request in Hlow.
    now apply ratelimit_loop_never_429 in Hlow.
  - destruct (proj2 (raise_for_status_passes r0) Hp) as (_ & msg & Hm).
    rewrite Hm in H. discriminate.
Qed.

Lemma request_response_returns_witness :
  _do_url_managed_request (Fixtures.client 3 (Fixtures.replay []))
                          2 Fixtures.people initial_world
  = (Return Fixtures.ok_response, advance 1 initial_world) /\
  passes Fixtures.ok_response = true /\
  (status_code Fixtures.ok_response =? 429) = false.
Proof.
  apply (request_response_returns (Fixtures.client 3 (Fixtures.replay []))
           2 Fixtures.people initial_world).
  reflexivity.
Defined.

(** X14.  Each verb method, given query parameters none of which is
    named like a parameter of the request methods, makes one call of the
    session when the answer passes: with its own method name, the cleaned
    URL, the payload given (none for [get] and [delete]), the query
    parameters, the plain timeout and no file.  [get], [post] and [patch]
    return the parsed body, [delete] the response itself, parsed or not. *)
Theorem verbs_send (self : PCO) (fuel : nat) (url : string)
        (payload : option json) (params : list (string * json)) (w : world)
        (r : response) :
  (1 <= fuel)%nat ->
  (forall k x, In (k, x) params ->
               ~ In k ["self"; "method"; "url"; "payload"; "upload"]) ->
  passes r = true ->
  (forall v,
      session self (transport_calls w)
        {| s_method := "GET"; s_url := Url.clean_url (api_base self) url;
           s_headers := [("User-Agent", "pypco"); ("Authorization", auth_header self)];
           s_params := params; s_json := None; s_timeout := timeout self;
           s_files := None |} = Ok r ->
      json_body r = Some v ->
      get self fuel url params w = (Return v, advance 1 w)) /\
  (forall v,
      session self (transport_calls w)
        {| s_method := "POST"; s_url := Url.clean_url (api_base self) url;
           s_headers := [("User-Agent", "pypco"); ("Authorization", auth_header self)];
           s_params := params; s_json := payload; s_timeout := timeout self;
           s_files := None |} = Ok r ->
      json_body r = Some v ->
      post self fuel url payload params w = (Return v, advance 1 w)) /\
  (forall v,
      session self (transport_calls w)
        {| s_method := "PATCH"; s_url := Url.clean_url (api_base self) url;
           s_headers := [("User-Agent", "pypco"); ("Authorization", auth_header self)];
           s_params := params; s_json := payload; s_timeout := timeout self;
           s_files := None |} = Ok r ->
      json_body r = Some v ->
      patch self fuel url payload params w = (Return v, advance 1 w)) /\
  (session self (transport_calls w)
     {| s_method := "DELETE"; s_url := Url.clean_url (api_base self) url;
        s_headers := [("User-Agent", "pypco"); ("Authorization", auth_header self)];
        s_params := params; s_json := None; s_timeout := timeout self;
        s_files := None |} = Ok r ->
   delete self fuel url params w = (Return r, advance 1 w)).
Proof.
  intros Hf Hfree Hp.
  assert (Htaken : forall taken,
             incl taken ["self"; "method"; "url"; "payload"] ->
             incl taken ["self"; "method"; "url"; "payload"; "upload"])
    by (intros taken H k Hk; specialize (H k Hk); cbn in H |- *; tauto).
  split; [|split; [|split]].
  - intros v Hs Hv. now apply get_answered with (r := r).
  - intros v Hs Hv. unfold post.
    rewrite bind_keywords_plain by (first [exact Hfree | apply Htaken, incl_refl]).
    now apply request_json_plain with (r := r).
  - intros v Hs Hv. unfold patch.
    rewrite bind_keywords_plain by (first [exact Hfree | apply Htaken, incl_refl]).
    now apply request_json_plain with (r := r).
  - intros Hs. unfold delete.
    rewrite bind_keywords_plain
      by (first [exact Hfree | intros k Hk; cbn in Hk |- *; tauto]).
    now apply request_response_plain.
Qed.

Lemma verbs_send_witness :
  delete (Fixtures.client 3 (Fixtures.replay [Fixtures.respond 204 ∅ "" None]))
         1 "/people/v2/people/1" [("include", JStr "emails")] initial_world
  = (Return (Fixtures.respond 204 ∅ "" None), advance 1 initial_world).
Proof.
  refine (proj2 (proj2 (proj2 (verbs_send
            (Fixtures.client 3 (Fixtures.replay [Fixtures.respond 204 ∅ "" None]))
            1 "/people/v2/people/1" None [("include", JStr "emails")] initial_world
            (Fixtures.respond 204 ∅ "" None) _ _ _))) _);
    first [reflexivity | lia | idtac].
  intros k x [[= <- <-]|[]] Hk. cbn in Hk.
  repeat (destruct Hk as [Hk|Hk]; [discriminate Hk|]). exact Hk.
Defined.

(** X15.  When the answer passes but its body does not parse, [get]
    (given query parameters none of which is named like a parameter of the
    request methods) raises the decoding error of [response.json()] as it
    is: it is none of the three exceptions of pypco, and it is not wrapped
    in one. *)
Theorem get_undecodable_body (self : PCO) (fuel : nat) (url : string)
        (params : list (string * json)) (w : world) (r : response) :
  (1 <= fuel)%nat ->
  (forall k x, In (k, x) params ->
               ~ In k ["self"; "method"; "url"; "payload"; "upload"]) ->
  session self (transport_calls w)
    {| s_method := "GET"; s_url := Url.clean_url (api_base self) url;
       s_headers := [("User-Agent", "pypco"); ("Authorization", auth_header self)];
       s_params := params; s_json := None; s_timeout := timeout self;
       s_files := None |} = Ok r ->
  passes r = true ->
  json_body r = None ->
  exists msg,
    get self fuel url params w
    = (Raise (Builtin "JSONDecodeError" msg), advance 1 w).
Proof.
  intros Hf Hfree Hs Hp Hv. unfold get.
  rewrite bind_keywords_plain
    by (first [exact Hfree | intros k Hk; cbn in Hk |- *; tauto]).
  unfold request_json.
  erewrite (request_response_plain self fuel _ w r Hf);
    [rewrite Hv; now eexists | reflexivity | exact Hs | exact Hp].
Qed.

Lemma get_undecodable_body_witness :
  exists msg,
    get (Fixtures.client 3 (Fixtures.replay [Fixtures.respond 204 ∅ "" None]))
        1 "/people/v2/people/1" [] initial_world
    = (Raise (Builtin "JSONDecodeError" msg), advance 1 initial_world).
Proof.
  apply (get_undecodable_body _ 1 "/people/v2/people/1" [] initial_world
           (Fixtures.respond 204 ∅ "" None));
    first [reflexivity | lia | intros k x []].
Defined.

(** What [upload] hands on when its params are only query parameters. *)
Lemma upload_binds (self : PCO) (fuel : nat) (path : string)
      (params : list (string * json)) (w : world) :
  (forall k x, In (k, x) params ->
               ~ In k ["self"; "method"; "url"; "payload"; "upload"]) ->
  upload self fuel path params w
  = request_json self fuel
      {| method := "POST"; url := upload_url self; payload := None;
         Pco.upload := JStr path; params := params |} w.
Proof.
  intros Hfree. unfold upload.
  rewrite dict_get_absent by (intros v Hin; apply (Hfree _ _ Hin); cbn; tauto).
  now rewrite bind_keywords_plain
    by (first [exact Hfree | intros k Hk; cbn in Hk |- *; tauto]).
Qed.

(** X16.  [upload] of a file that opens, given query parameters none of
    which is named like a parameter of the request methods, posts it in
    one call of the session to the upload URL exactly as configured (the
    URL is not cleaned), with the upload timeout and the file attached, and
    returns the parsed body of an answer that passes. *)
Theorem upload_sends (self : PCO) (fuel : nat) (path : string)
        (params : list (string * json)) (w : world) (r : response) (v : json) :
  (1 <= fuel)%nat ->
  (forall k x, In (k, x) params ->
               ~ In k ["self"; "method"; "url"; "payload"; "upload"]) ->
  path <> EmptyString ->
  open_error self (JStr path) = None ->
  session self (transport_calls w)
    {| s_method := "POST"; s_url := upload_url self;
       s_headers := [("User-Agent", "pypco"); ("Authorization", auth_header self)];
       s_params := params; s_json := None; s_timeout := upload_timeout self;
       s_files := Some (JStr path) |} = Ok r ->
  passes r = true ->
  json_body r = Some v ->
  upload self fuel path params w = (Return v, advance 1 w).
Proof.
  intros Hf Hfree Hne Hopen Hs Hp Hv.
  assert (Ht : truthy (JStr path) = true) by (destruct path; [contradiction|reflexivity]).
  rewrite upload_binds by exact Hfree.
  unfold request_json, request_response, _do_url_managed_request.
  cbn [Pco.upload Pco.url]. rewrite Ht. cbn [negb].
  rewrite (ratelimit_single self fuel _ w r Hf).
  - rewrite (proj1 (raise_for_status_passes r) Hp). now rewrite Hv.
  - rewrite _do_request_upload by exact Ht.
    unfold with_url. cbn [Pco.upload Pco.method Pco.url Pco.payload Pco.params].
    rewrite Hopen. exact Hs.
  - now apply passes_not_429.
Qed.

Lemma upload_sends_witness :
  upload (Fixtures.client 3 (Fixtures.replay [])) 1 "/tmp/photo.png" [] initial_world
  = (Return (JDict []), advance 1 initial_world).
Proof.
  apply (upload_sends _ 1 "/tmp/photo.png" [] initial_world Fixtures.ok_response);
    first [reflexivity | lia | discriminate | intros k x []].
Defined.

(** X17.  [upload] of a file that does not open never reaches the session:
    whatever the session would answer, the caller gets
    [PCOUnexpectedRequestException] built around the exception of [open],
    whichever it is ([FileNotFoundError], [IsADirectoryError],
    [PermissionError], ...). *)
Theorem upload_unopened_file (self : PCO) (fuel : nat) (path : string)
        (params : list (string * json)) (w : world) (e : exn) :
  (1 <= fuel)%nat ->
  (forall k x, In (k, x) params ->
               ~ In k ["self"; "method"; "url"; "payload"; "upload"]) ->
  path <> EmptyString ->
  open_error self (JStr path) = Some e ->
  is_timeout e = false ->
  is_Exception e = true ->
  upload self fuel path params w
  = (Raise (PCOUnexpectedRequestException (str_exn e) e), advance 1 w).
Proof.
  intros Hf Hfree Hne Hopen Hnt Hex.
  assert (Ht : truthy (JStr path) = true) by (destruct path; [contradiction|reflexivity]).
  destruct fuel as [|fuel]; [lia|].
  rewrite upload_binds by exact Hfree.
  unfold request_json, request_response, _do_url_managed_request,
    _do_ratelimit_managed_request.
  cbn [Pco.upload Pco.url]. rewrite Ht. cbn [negb].
  rewrite (ratelimit_loop_raise self _ _ _ w (advance 1 w) e).
  - now rewrite Hex.
  - unfold _do_timeout_managed_request. apply timeout_loop_other; [|exact Hnt].
    rewrite _do_request_upload by exact Ht.
    unfold with_url. cbn [Pco.upload]. now rewrite Hopen.
Qed.

Lemma upload_unopened_file_witness :
  upload {| auth_header := ""; api_base := Url.default_api_base; timeout := 60;
            upload_url := "https://upload.planningcenteronline.com/v2/files";
            upload_timeout := 300; timeout_retries := 3;
            session := Fixtures.replay [];
            open_error := fun _ => Some (Builtin "IsADirectoryError"
                                           "[Errno 21] Is a directory: '/tmp'");
            sleep_error := fun _ _ => None |}
         1 "/tmp" [] initial_world
  = (Raise (PCOUnexpectedRequestException
              "[Errno 21] Is a directory: '/tmp'"
              (Builtin "IsADirectoryError" "[Errno 21] Is a directory: '/tmp'")),
     advance 1 initial_world).
Proof.
  apply (upload_unopened_file _ 1 "/tmp" [] initial_world
           (Builtin "IsADirectoryError" "[Errno 21] Is a directory: '/tmp'"));
    first [reflexivity | lia | discriminate | intros k x []].
Defined.

(** X18.  [upload] of the empty path is an ordinary POST: the empty
    string counts as no upload, so the upload URL goes through the clean-up
    (which puts the base URL in front of it unless it starts with it), the
    plain timeout applies and no file is attached.  The params are query
    parameters none of which is named like a parameter of the request
    methods. *)
Theorem upload_empty_path (self : PCO) (fuel : nat)
        (params : list (string * json)) (w : world) (r : response) (v : json) :
  (1 <= fuel)%nat ->
  (forall k x, In (k, x) params ->
               ~ In k ["self"; "method"; "url"; "payload"; "upload"]) ->
  session self (transport_calls w)
    {| s_method := "POST";
       s_url := Url.clean_url (api_base self) (upload_url self);
       s_headers := [("User-Agent", "pypco"); ("Authorization", auth_header self)];
       s_params := params; s_json := None; s_timeout := timeout self;
       s_files := None |} = Ok r ->
  passes r = true ->
  json_body r = Some v ->
  upload self fuel EmptyString params w = (Return v, advance 1 w).
Proof.
  intros Hf Hfree Hs Hp Hv. rewrite upload_binds by exact Hfree.
  now apply request_json_plain with (r := r).
Qed.

Lemma upload_empty_path_witness :
  Url.clean_url Url.default_api_base "https://upload.planningcenteronline.com/v2/files"
  = "https://api.planningcenteronline.comhttps://upload.planningcenteronline.com/v2/files"
  /\ upload (Fixtures.client 3 (Fixtures.replay [])) 1 EmptyString [] initial_world
     = (Return (JDict []), advance 1 initial_world).
Proof.
  split; [reflexivity|].
  apply (upload_empty_path _ 1 [] initial_world Fixtures.ok_response);
    first [reflexivity | lia | intros k x []].
Defined.

(** X31.  Keywords named like a parameter of [request_json] do not reach
    the query string of [get]: a keyword [method] makes the call raise
    [TypeError] before any request is made, and a keyword [payload] is sent
    as the JSON body of the GET request, the other keywords being the
    query parameters. *)
Theorem get_keyword_capture (self : PCO) (fuel : nat) (url : string)
        (params : list (string * json)) (w : world) :
  (forall k x, In (k, x) params ->
               ~ In k ["self"; "method"; "url"; "payload"; "upload"]) ->
  (forall v,
      exists msg,
        get self fuel url (params ++ [("method", v)]) w = (Raise (TypeError msg), w)) /\
  (forall v r body,
      (1 <= fuel)%nat ->
      v <> JNull ->
      session self (transport_calls w)
        {| s_method := "GET"; s_url := Url.clean_url (api_base self) url;
           s_headers := [("User-Agent", "pypco"); ("Authorization", auth_header self)];
           s_params := params; s_json := Some v; s_timeout := timeout self;
           s_files := None |} = Ok r ->
      passes r = true ->
      json_body r = Some body ->
      get self fuel url (params ++ [("payload", v)]) w = (Return body, advance 1 w)).
Proof.
  intros Hfree.
  assert (Hnamed : forall names kv,
             incl names ["self"; "method"; "url"; "payload"; "upload"] ->
             In kv params -> named names kv = false).
  { intros names [k x] Hn Hin. apply named_absent. intros Hk.
    exact (Hfree k x Hin (Hn k Hk)). }
  assert (Hfind : forall names tail,
             incl names ["self"; "method"; "url"; "payload"; "upload"] ->
             List.find (named names) (params ++ tail) = List.find (named names) tail).
  { intros names tail Hn. apply find_app_absent. intros kv Hin. now apply Hnamed. }
  assert (Hget : forall key tail,
             In key ["payload"; "upload"] ->
             dict_get key (params ++ tail) = dict_get key tail).
  { intros key tail Hkey. apply dict_get_app_absent. intros v Hin.
    apply (Hfree _ _ Hin). cbn in Hkey |- *. tauto. }
  assert (Hfilter : forall tail,
             List.filter (fun kv => negb (named ["payload"; "upload"] kv)) (params ++ tail)
             = params ++ List.filter (fun kv => negb (named ["payload"; "upload"] kv)) tail).
  { intros tail. rewrite List.filter_app. f_equal. apply filter_all.
    intros kv Hin. apply negb_true_iff, Hnamed; [|exact Hin].
    intros k Hk. cbn in Hk |- *. tauto. }
  split.
  - intros v. unfold get, bind_keywords.
    rewrite Hfind by (intros k Hk; cbn in Hk |- *; tauto).
    eexists. reflexivity.
  - intros v r body Hf Hv Hs Hp Hb. unfold get, bind_keywords.
    rewrite Hfind by (intros k Hk; cbn in Hk |- *; tauto).
    cbn [List.find named fst existsb String.eqb Ascii.eqb Bool.eqb orb].
    rewrite !Hget by (cbn; tauto). rewrite Hfilter.
    cbn [dict_get String.eqb Ascii.eqb Bool.eqb List.filter named fst existsb orb negb].
    rewrite app_nil_r.
    assert (Hpay : payload_of v = Some v) by (now destruct v).
    rewrite Hpay.
    now apply request_json_plain with (r := r).
Qed.

Lemma get_keyword_capture_witness :
  exists msg,
    get (Fixtures.client 3 (Fixtures.replay [])) 1 "/people/v2/people"
        ([("include", JStr "emails")] ++ [("method", JStr "POST")]) initial_world
    = (Raise (TypeError msg), initial_world).
Proof.
  refine (proj1 (get_keyword_capture (Fixtures.client 3 (Fixtures.replay [])) 1
                   "/people/v2/people" [("include", JStr "emails")] initial_world _)
                (JStr "POST")).
  intros k x [[= <- <-]|[]] Hk. cbn in Hk.
  repeat (destruct Hk as [Hk|Hk]; [discriminate Hk|]). exact Hk.
Defined.

End PcoMore.

(** * Further properties of [iterate] *)

Module IterateMore.
Import PyStr Py Pco Iterate Paging Verbs PcoFacts IterateFacts.

Lemma prepend_app {A : Type} (a b : list event)
      (x : list event * outcome A * world) :
  prepend a (prepend b x) = prepend (a ++ b) x.
Proof. destruct x as [[evs o] w]. cbn. now rewrite app_assoc. Qed.

Lemma flat_map_seq_shift {A : Type} (f : nat -> list A) (n : nat) :
  forall start, flat_map f (seq (S start) n) = flat_map (fun i => f (S i)) (seq start n).
Proof.
  induction n as [|n IH]; intros start; [reflexivity|].
  cbn [seq flat_map]. now rewrite IH.
Qed.

(** The first [n] pages, all well formed and all with a [next] link, are
    requested and yielded one after the other; the generator then goes on
    from page [n]. *)
Lemma iterate_pages (self : PCO) (inner : nat) (url : string) (per_page : Z)
      (params : list (string * json)) (n : nat) :
  forall (fuel : nat) (offset : Z) (pages : nat -> json) (ws : nat -> world),
    (forall i, (i < n)%nat ->
               get self inner url
                   (page_params (page_offset offset per_page i) per_page params) (ws i)
               = (Return (pages i), ws (S i))) ->
    (forall i, (i < n)%nat -> well_formed_page (pages i) = true) ->
    (forall i, (i < n)%nat -> has_next (pages i) = true) ->
    iterate self inner (n + fuel) url offset per_page params (ws O)
    = prepend (flat_map (page_events offset per_page pages) (seq 0 n))
              (iterate self inner fuel url (page_offset offset per_page n)
                       per_page params (ws n)).
Proof.
  induction n as [|n IH]; intros fuel offset pages ws Hget Hwf Hnext.
  - cbn [Nat.add seq flat_map]. unfold page_offset, prepend.
    replace (offset + Z.of_nat 0 * per_page) with offset by lia.
    now destruct (iterate self inner fuel url offset per_page params (ws O))
      as [[evs o] w].
  - cbn [Nat.add].
    destruct (well_formed_page_round (pages O) (Hwf O ltac:(lia)))
      as (Hdata & Hemit & Hn).
    rewrite (Hnext O ltac:(lia)) in Hn.
    pose proof (Hget O ltac:(lia)) as Hget0. unfold page_offset in Hget0.
    replace (offset + Z.of_nat 0 * per_page) with offset in Hget0 by lia.
    rewrite (iterate_continue self inner _ url offset per_page params (ws O) (ws 1%nat)
               (pages O) _ _ Hget0 Hdata Hemit Hn).
    rewrite (IH fuel (offset + per_page) (fun i => pages (S i)) (fun i => ws (S i))).
    + rewrite prepend_app. cbn [seq flat_map].
      rewrite (flat_map_seq_shift (page_events offset per_page pages)).
      assert (Hev : forall i, page_events (offset + per_page) per_page
                                (fun i => pages (S i)) i
                              = page_events offset per_page pages (S i)).
      { intros i. unfold page_events, page_offset.
        now replace (offset + per_page + Z.of_nat i * per_page)
          with (offset + Z.of_nat (S i) * per_page) by lia. }
      rewrite (flat_map_ext _ _ Hev).
      unfold page_events at 2, page_offset.
      replace (offset + Z.of_nat 0 * per_page) with offset by lia.
      replace (offset + per_page + Z.of_nat n * per_page)
        with (offset + Z.of_nat (S n) * per_page) by lia.
      reflexivity.
    + intros i Hi. specialize (Hget (S i) ltac:(lia)). unfold page_offset in *.
      now replace (offset + per_page + Z.of_nat i * per_page)
        with (offset + Z.of_nat (S i) * per_page) by lia.
    + intros i Hi. apply Hwf. lia.
    + intros i Hi. apply Hnext. lia.
Qed.

(** The pages that the session returns for the requests at the offsets
    [offset], [offset + per_page], ..., seen from [get]. *)
Lemma pages_answered (self : PCO) (inner : nat) (url : string)
      (offset per_page : Z) (params : list (string * json)) (w : world)
      (rs : nat -> response) (pages : nat -> json) (i : nat) :
  (1 <= inner)%nat ->
  (forall k x, In (k, x) params ->
               ~ In k ["self"; "method"; "url"; "payload"; "upload"]) ->
  session self (transport_calls w + i)
    {| s_method := "GET"; s_url := Url.clean_url (api_base self) url;
       s_headers := [("User-Agent", "pypco"); ("Authorization", auth_header self)];
       s_params := ("offset", JNum (offset + Z.of_nat i * per_page))
                     :: ("per_page", JNum per_page) :: params;
       s_json := None; s_timeout := timeout self; s_files := None |} = Ok (rs i) ->
  passes (rs i) = true ->
  json_body (rs i) = Some (pages i) ->
  get self inner url (page_params (page_offset offset per_page i) per_page params)
      (advance i w)
  = (Return (pages i), advance (S i) w).
Proof.
  intros Hinner Hfree Hs Hp Hb.
  rewrite (get_answered self inner url _ (advance i w) (rs i) (pages i));
    first [assumption | idtac].
  - rewrite advance_advance. do 2 f_equal. lia.
  - intros k x [[= <- _]|[[= <- _]|Hin]].
    + cbn. intros H. repeat (destruct H as [H|H]; [discriminate H|]). exact H.
    + cbn. intros H. repeat (destruct H as [H|H]; [discriminate H|]). exact H.
    + now apply (Hfree k x).
Qed.

(** X19.  Over any number of pages: when the session answers the GET
    requests that carry the offsets [offset], [offset + per_page],
    [offset + 2 * per_page], ... (with [per_page] and the other query
    parameters, none of which is named like a parameter of the request
    methods) with well-formed pages, the first [n] with a [next] link and
    the one after them without, the generator makes [n + 1] calls of the
    session, yields the records of each page after its request, and
    ends. *)
Theorem iterate_all_pages (self : PCO) (inner fuel : nat) (url : string)
        (offset per_page : Z) (params : list (string * json)) (n : nat)
        (rs : nat -> response) (pages : nat -> json) (w : world) :
  (1 <= inner)%nat ->
  (forall k x, In (k, x) params ->
               ~ In k ["self"; "method"; "url"; "payload"; "upload"]) ->
  (forall i, (i <= n)%nat ->
             session self (transport_calls w + i)
               {| s_method := "GET"; s_url := Url.clean_url (api_base self) url;
                  s_headers := [("User-Agent", "pypco");
                                ("Authorization", auth_header self)];
                  s_params := ("offset", JNum (offset + Z.of_nat i * per_page))
                                :: ("per_page", JNum per_page) :: params;
                  s_json := None; s_timeout := timeout self; s_files := None |}
             = Ok (rs i) /\
             passes (rs i) = true /\
             json_body (rs i) = Some (pages i) /\
             well_formed_page (pages i) = true) ->
  (forall i, (i < n)%nat -> has_next (pages i) = true) ->
  has_next (pages n) = false ->
  (n < fuel)%nat ->
  iterate self inner fuel url offset per_page params w
  = (flat_map (fun i => Fetch (offset + Z.of_nat i * per_page) per_page
                          :: map Yield (page_records (pages i)))
              (seq 0 (S n)),
     Return tt, advance (S n) w).
Proof.
  intros Hinner Hfree Hans Hnext Hlast Hfuel.
  assert (Hget : forall i, (i <= n)%nat ->
             get self inner url
                 (page_params (page_offset offset per_page i) per_page params)
                 (advance i w)
             = (Return (pages i), advance (S i) w)).
  { intros i Hi. destruct (Hans i Hi) as (Hs & Hp & Hb & _).
    now apply pages_answered with (rs := rs). }
  rewrite <- (advance_0 w) at 1.
  replace fuel with (n + S (fuel - S n))%nat by lia.
  rewrite (iterate_pages self inner url per_page params _ _ offset pages
             (fun i => advance i w));
    [|intros i Hi; apply Hget; lia
     |intros i Hi; apply (Hans i); lia
     |exact Hnext].
  destruct (well_formed_page_round (pages n) (proj2 (proj2 (proj2 (Hans n ltac:(lia))))))
    as (Hdata & Hemit & Hn).
  rewrite Hlast in Hn.
  rewrite (iterate_stop self inner _ url _ per_page params (advance n w)
             (advance (S n) w) (pages n) _ _ (Hget n ltac:(lia)) Hdata Hemit Hn).
  cbn [prepend]. rewrite seq_S, flat_map_app. cbn [flat_map Nat.add].
  now rewrite app_nil_r.
Qed.

Lemma iterate_all_pages_witness :
  iterate (Fixtures.client 3 Pages.by_offset)
          1 4 "/people/v2/people" 0 2 [] initial_world
  = (flat_map (fun i => Fetch (0 + Z.of_nat i * 2) 2
                          :: map Yield (page_records
                                          (nth i [Pages.page_one] Pages.page_two)))
              (seq 0 2),
     Return tt, advance 2 initial_world).
Proof.
  apply (iterate_all_pages _ 1 4 "/people/v2/people" 0 2 [] 1
           (fun i => Pages.page_response (nth i [Pages.page_one] Pages.page_two))
           (fun i => nth i [Pages.page_one] Pages.page_two)
           initial_world).
  - lia.
  - intros k x [].
  - intros i Hi. destruct i as [|[|i]]; [repeat split.. | lia].
  - intros i Hi. destruct i as [|i]; [reflexivity | lia].
  - reflexivity.
  - lia.
Defined.

(** X20.  The generator relies on the server to end: when the session
    answers every GET request of the series (offsets [offset],
    [offset + per_page], ..., with [per_page] and the other query
    parameters, none of which is named like a parameter of the request
    methods) with a well-formed page that has a [next] link, the generator
    is still running after any number of pages, one call of the session per
    page. *)
Theorem iterate_endless (self : PCO) (inner : nat) (url : string)
        (offset per_page : Z) (params : list (string * json))
        (rs : nat -> response) (pages : nat -> json) (w : world) :
  (1 <= inner)%nat ->
  (forall k x, In (k, x) params ->
               ~ In k ["self"; "method"; "url"; "payload"; "upload"]) ->
  (forall i,
      session self (transport_calls w + i)
        {| s_method := "GET"; s_url := Url.clean_url (api_base self) url;
           s_headers := [("User-Agent", "pypco"); ("Authorization", auth_header self)];
           s_params := ("offset", JNum (offset + Z.of_nat i * per_page))
                         :: ("per_page", JNum per_page) :: params;
           s_json := None; s_timeout := timeout self; s_files := None |}
      = Ok (rs i) /\
      passes (rs i) = true /\
      json_body (rs i) = Some (pages i) /\
      well_formed_page (pages i) = true /\
      has_next (pages i) = true) ->
  forall fuel,
    iterate self inner fuel url offset per_page params w
    = (flat_map (fun i => Fetch (offset + Z.of_nat i * per_page) per_page
                            :: map Yield (page_records (pages i)))
                (seq 0 fuel),
       Unfinished, advance fuel w).
Proof.
  intros Hinner Hfree Hans fuel.
  rewrite <- (advance_0 w) at 1.
  replace fuel with (fuel + 0)%nat at 1 by lia.
  rewrite (iterate_pages self inner url per_page params _ _ offset pages
             (fun i => advance i w)).
  - cbn [iterate prepend]. now rewrite app_nil_r.
  - intros i _. destruct (Hans i) as (Hs & Hp & Hb & _).
    now apply pages_answered with (rs := rs).
  - intros i _. apply (Hans i).
  - intros i _. apply (Hans i).
Qed.

Lemma iterate_endless_witness :
  iterate (Fixtures.client 3 (fun _ _ => Ok (Pages.page_response Pages.page_one)))
          1 5 "/people/v2/people" 0 0 [] initial_world
  = (flat_map (fun i => Fetch (0 + Z.of_nat i * 0) 0
                          :: map Yield (page_records Pages.page_one))
              (seq 0 5),
     Unfinished, advance 5 initial_world).
Proof.
  apply (iterate_endless _ 1 "/people/v2/people" 0 0 []
           (fun _ => Pages.page_response Pages.page_one) (fun _ => Pages.page_one)
           initial_world).
  - lia.
  - intros k x [].
  - intros i. repeat split.
Defined.

(** X21.  A failure of a request ends the sequence with that failure, after
    everything that came before it: when [n] pages came with a [next] link
    and the request for the next page raises, the consumer has seen the
    records of the [n] pages and then gets the exception. *)
Theorem iterate_failure (self : PCO) (inner fuel : nat) (url : string)
        (offset per_page : Z) (params : list (string * json)) (n : nat)
        (pages : nat -> json) (ws : nat -> world) (e : exn) :
  (forall i, (i < n)%nat ->
             get self inner url
                 (page_params (page_offset offset per_page i) per_page params) (ws i)
             = (Return (pages i), ws (S i))) ->
  (forall i, (i < n)%nat -> well_formed_page (pages i) = true) ->
  (forall i, (i < n)%nat -> has_next (pages i) = true) ->
  get self inner url (page_params (page_offset offset per_page n) per_page params) (ws n)
  = (Raise e, ws (S n)) ->
  (n < fuel)%nat ->
  iterate self inner fuel url offset per_page params (ws O)
  = (flat_map (page_events offset per_page pages) (seq 0 n)
       ++ [Fetch (page_offset offset per_page n) per_page],
     Raise e, ws (S n)).
Proof.
  intros Hget Hwf Hnext Hfail Hfuel.
  replace fuel with (n + S (fuel - S n))%nat by lia.
  rewrite (iterate_pages self inner url per_page params _ _ offset pages ws); [|exact Hget|exact Hwf|exact Hnext].
  cbn [iterate]. now rewrite Hfail.
Qed.

Lemma iterate_failure_witness :
  iterate (Fixtures.client 3 (Fixtures.replay
             [Pages.page_response Pages.page_one; Fixtures.not_found]))
          1 4 "/people/v2/people" 0 2 [] initial_world
  = (flat_map (page_events 0 2 (fun _ => Pages.page_one)) (seq 0 1)
       ++ [Fetch (page_offset 0 2 1) 2],
     Raise (PCORequestException 404
              "404 Client Error: Not Found for url: https://api.planningcenteronline.com/nope"
              "{errors: []}"
              (HTTPError
                 "404 Client Error: Not Found for url: https://api.planningcenteronline.com/nope")),
     advance 2 initial_world).
Proof.
  apply (iterate_failure _ 1 4 "/people/v2/people" 0 2 [] 1
           (fun _ => Pages.page_one) (fun i => advance i initial_world)).
  - intros i Hi. destruct i; [reflexivity | lia].
  - intros i Hi. reflexivity.
  - intros i Hi. reflexivity.
  - reflexivity.
  - lia.
Defined.

Lemma emit_meta_empty (response : json) (items : list json) :
  forall (rs : list record) (e : option exn),
    emit response items = (rs, e) -> Forall (fun r => meta r = []) rs.
Proof.
  intros rs e H. apply List.Forall_forall. intros r Hr.
  apply In_nth_error in Hr as [i Hi].
  destruct (emit_nth response items rs e H i r Hi) as (cur & _ & Hb).
  now destruct (build_record_fields _ _ _ Hb) as (_ & Hm & _).
Qed.

(** X22.  No record that [iterate] yields carries any of the page's
    metadata: whatever the pages hold and however the run ends, the [meta]
    of every record yielded is empty. *)
Theorem iterate_yields_empty_meta (self : PCO) (inner fuel : nat) (url : string)
        (offset per_page : Z) (params : list (string * json)) (w w' : world)
        (evs : list event) (o : outcome unit) :
  iterate self inner fuel url offset per_page params w = (evs, o, w') ->
  Forall (fun r => meta r = []) (yields evs).
Proof.
  revert offset w w' evs o.
  induction fuel as [|fuel IH]; intros offset w w' evs o H.
  - injection H as <- _ _. constructor.
  - cbn [iterate] in H.
    destruct (get self inner url (page_params offset per_page params) w)
      as [[response|e|] w1]; try (injection H as <- _ _; constructor).
    destruct (bind (item response "data") py_iter) as [items|e];
      [|injection H as <- _ _; constructor].
    destruct (emit response items) as [rs oe] eqn:Hemit.
    pose proof (emit_meta_empty _ _ _ _ Hemit) as Hrs.
    assert (Hhere : Forall (fun r => meta r = [])
                           (yields (Fetch offset per_page :: map Yield rs)))
      by (cbn; change (flat_map _ (map Yield rs)) with (yields (map Yield rs));
          now rewrite yields_map_Yield).
    destruct oe as [e|]; [injection H as <- _ _; exact Hhere|].
    destruct (bind (item response "links") (py_in "next")) as [[|]|e];
      try (injection H as <- _ _; exact Hhere).
    destruct (iterate self inner fuel url (offset + per_page) per_page params w1)
      as [[evs' o'] w2] eqn:Hrest.
    cbn [prepend] in H. injection H as <- _ _.
    change (Forall (fun r => meta r = [])
                   (yields ((Fetch offset per_page :: map Yield rs) ++ evs'))).
    rewrite yields_app. apply Forall_app. split; [exact Hhere|].
    now apply IH in Hrest.
Qed.

Lemma iterate_yields_empty_meta_witness :
  Forall (fun r => meta r = [])
         (yields (Fetch 0 2 :: map Yield (page_records Pages.page_one)
                    ++ Fetch (0 + 2) 2 :: map Yield (page_records Pages.page_two))).
Proof.
  apply (iterate_yields_empty_meta
           (Fixtures.client 3 (Fixtures.replay
              [Pages.page_response Pages.page_one; Pages.page_response Pages.page_two]))
           4 5 "/people/v2/people" 0 2 [] initial_world (advance 2 initial_world)
           _ (Return tt)).
  reflexivity.
Defined.

(** X23.  A page without [meta] fails at its first item, before anything
    is yielded, with [KeyError]; a page without [meta] and without items
    does not fail. *)
Theorem iterate_page_without_meta (self : PCO) (inner fuel : nat) (url : string)
        (offset per_page : Z) (params : list (string * json)) (w w1 : world)
        (p : list (string * json)) (items : list json) :
  get self inner url (page_params offset per_page params) w = (Return (JDict p), w1) ->
  dict_get "meta" p = None ->
  dict_get "data" p = Some (JList items) ->
  (items <> [] ->
   iterate self inner (S fuel) url offset per_page params w
   = ([Fetch offset per_page], Raise (KeyError "meta"), w1)) /\
  (items = [] ->
   forall links,
     dict_get "links" p = Some (JDict links) ->
     dict_get "next" links = None ->
     iterate self inner (S fuel) url offset per_page params w
     = ([Fetch offset per_page], Return tt, w1)).
Proof.
  intros Hget Hmeta Hdata. split.
  - intros Hne. cbn [iterate]. rewrite Hget. unfold item at 1. cbn [py_getitem bind].
    rewrite Hdata. cbn [bind py_iter].
    destruct items as [|cur rest]; [contradiction|].
    cbn [emit]. unfold build_record, item at 1. cbn [py_getitem]. rewrite Hmeta.
    reflexivity.
  - intros -> links Hlinks Hnext. cbn [iterate]. rewrite Hget.
    unfold item. cbn [py_getitem bind]. rewrite Hdata, Hlinks. cbn [bind py_iter emit py_in].
    now rewrite Hnext.
Qed.

Lemma iterate_page_without_meta_witness :
  iterate (Fixtures.client 3 (Fixtures.replay
             [Pages.page_response
                (JDict [("data", JList [Pages.carol]); ("links", JDict [])])]))
          1 1 "/people/v2/people" 0 25 [] initial_world
  = ([Fetch 0 25], Raise (KeyError "meta"), advance 1 initial_world).
Proof.
  refine (proj1 (iterate_page_without_meta _ 1 0 "/people/v2/people" 0 25 []
                   initial_world (advance 1 initial_world)
                   [("data", JList [Pages.carol]); ("links", JDict [])]
                   [Pages.carol] _ _ _) _);
    first [reflexivity | discriminate].
Defined.

(** The relationships of a well-formed item on a page without [included]:
    the loop goes on as long as there is no reference to resolve and stops
    with [KeyError] at the first one. *)
Lemma relationship_loop_without_included (p d rels : list (string * json)) :
  dict_get "included" p = None ->
  dict_get "relationships" d = Some (JDict rels) ->
  forallb (fun kv => well_formed_relationship (snd kv)) rels = true ->
  forall (some : list (string * json)),
    incl some rels ->
    forall r,
      relationship_loop (JDict p) (JDict d) (map (fun kv => JStr (fst kv)) some) r
      = match flat_map references_of
                (flat_map (key_data (JDict d)) (map (fun kv => JStr (fst kv)) some)) with
        | [] => Ok r
        | _ :: _ => Err (KeyError "included")
        end.
Proof.
  intros Hinc Hrels Hwf some.
  induction some as [|[k v] rest IH]; intros Hsub r; [reflexivity|].
  destruct (dict_get_key k v rels (Hsub _ (or_introl eq_refl))) as [v' Hv'].
  pose proof (dict_get_In _ _ _ Hv') as Hin'.
  pose proof Hwf as Hwf'. rewrite forallb_forall in Hwf'.
  specialize (Hwf' _ Hin'). cbn [snd] in Hwf'.
  destruct v' as [| | | | |e]; try discriminate. cbn in Hwf'.
  destruct (dict_get "data" e) as [dd|] eqn:Hdd; [|discriminate].
  assert (Hkey : key_data (JDict d) (JStr k) = [dd]).
  { unfold key_data, item. cbn [py_getitem]. rewrite Hrels. cbn [bind py_getitem].
    rewrite Hv'. cbn [bind py_getitem]. now rewrite Hdd. }
  assert (Hstep : relationship_step (JDict p) (JDict d) (JStr k) r
                  = match references_of dd with
                    | [] => Ok r
                    | _ :: _ => Err (KeyError "included")
                    end).
  { unfold relationship_step, item. cbn [py_getitem]. rewrite Hrels. cbn [bind py_getitem].
    rewrite Hv'. cbn [bind py_getitem]. rewrite Hdd. cbn [bind].
    destruct dd as [| | | |l|dd]; try reflexivity.
    - destruct l as [|x l]; [reflexivity|].
      cbn [resolve_all references_of]. unfold resolve, item. cbn [py_getitem].
      now rewrite Hinc.
    - cbn [references_of]. unfold resolve, item. cbn [py_getitem]. now rewrite Hinc. }
  cbn [map relationship_loop fst flat_map]. rewrite Hstep, Hkey.
  cbn [app flat_map].
  destruct (references_of dd) as [|x l]; [|reflexivity].
  cbn [bind app]. apply IH. intros y Hy. apply Hsub. now right.
Qed.

(** X30.  On a page that has no [included] key, a well-formed item gives a
    record exactly when there is nothing to resolve: with no reference in
    its relationships the record is built with an empty included list, with
    at least one the item fails with [KeyError]. *)
Theorem build_record_without_included (p m : list (string * json)) (cur : json) :
  dict_get "meta" p = Some (JDict m) ->
  dict_get "included" p = None ->
  well_formed_item cur = true ->
  build_record (JDict p) cur
  = match references cur with
    | [] => Ok {| data := cur; included := []; meta := [] |}
    | _ :: _ => Err (KeyError "included")
    end.
Proof.
  intros Hm Hinc Hcur. unfold build_record, item at 1 2. cbn [py_getitem].
  rewrite Hm. cbn [bind py_in].
  assert (Hrec : forall (b : bool) rec key,
             (if b then annotate_meta rec key else rec) = rec)
    by (now intros []).
  rewrite !Hrec.
  destruct cur as [| | | | |d]; try discriminate. cbn in Hcur.
  unfold references, relationship_data. cbn [py_in bind].
  destruct (dict_get "relationships" d) as [rels|] eqn:Hrels; [|reflexivity].
  destruct rels as [| | | | |rels]; try discriminate.
  unfold item. cbn [py_getitem]. rewrite Hrels. cbn [bind py_iter].
  rewrite (relationship_loop_without_included p d rels Hinc Hrels Hcur rels
             (incl_refl rels)).
  unfold key_data, item. cbn [py_getitem]. rewrite Hrels. reflexivity.
Qed.

Lemma build_record_without_included_witness :
  build_record (JDict [("data", JList [Pages.bob]); ("meta", JDict [])]) Pages.bob
  = match references Pages.bob with
    | [] => Ok {| data := Pages.bob; included := []; meta := [] |}
    | _ :: _ => Err (KeyError "included")
    end.
Proof.
  apply (build_record_without_included
           [("data", JList [Pages.bob]); ("meta", JDict [])] []);
    reflexivity.
Defined.

(** The item of the example has a reference, so it fails; one without
    relationships does not. *)
Example build_record_without_included_cases :
  build_record (JDict [("data", JList [Pages.bob]); ("meta", JDict [])]) Pages.bob
  = Err (KeyError "included") /\
  build_record (JDict [("data", JList [Pages.carol]); ("meta", JDict [])]) Pages.carol
  = Ok {| data := Pages.carol; included := []; meta := [] |}.
Proof. split; reflexivity. Qed.

End IterateMore.

(** * Properties of the helpers *)

Module HelpersFacts.
Import PyStr Py Pco Iterate Paging Helpers IterateFacts IterateMore.

Lemma run_body_app {A : Type} (body : A -> record -> result A) (rs rs' : list record) :
  forall acc,
    run_body body acc (rs ++ rs')
    = bind (run_body body acc rs) (fun a => run_body body a rs').
Proof.
  induction rs as [|r rs IH]; intros acc; [reflexivity|].
  cbn [app run_body]. destruct (body acc r) as [a|e]; [cbn [bind]; apply IH | reflexivity].
Qed.

Lemma consume_items_emit {A : Type} (body : A -> record -> result A)
      (response : json) (items : list json) :
  forall (rs : list record) (acc : A),
    emit response items = (rs, None) ->
    consume_items response items body acc = run_body body acc rs.
Proof.
  induction items as [|cur rest IH]; intros rs acc H.
  - cbn in H. now injection H as <-.
  - cbn [emit] in H. cbn [consume_items].
    destruct (build_record response cur) as [r|e]; [|discriminate].
    destruct (emit response rest) as [rs' oe] eqn:Hrest.
    injection H as <- ->. cbn [bind run_body].
    destruct (body acc r) as [a|e]; [cbn [bind]; now apply IH | reflexivity].
Qed.

(** X24.  A [for] loop over the generator whose body never raises does
    what the body does to the yielded records taken in order, and leaves the
    world as the exhausted generator leaves it. *)
Theorem for_each_fold {A : Type} (self : PCO) (inner fuel : nat) (url : string)
        (per_page : Z) (params : list (string * json))
        (body : A -> record -> result A) :
  forall (offset : Z) (acc a : A) (w w' : world) (evs : list event),
    iterate self inner fuel url offset per_page params w = (evs, Return tt, w') ->
    run_body body acc (yields evs) = Ok a ->
    for_each self inner fuel url offset per_page params body acc w = (Return a, w').
Proof.
  induction fuel as [|fuel IH]; intros offset acc a w w' evs H Hbody; [discriminate|].
  cbn [iterate] in H. cbn [for_each].
  destruct (get self inner url (page_params offset per_page params) w)
    as [[response|e|] w1]; try discriminate.
  destruct (bind (item response "data") py_iter) as [items|e]; [|discriminate].
  destruct (emit response items) as [rs oe] eqn:Hemit.
  destruct oe as [e|]; [discriminate|].
  rewrite (consume_items_emit body response items rs acc Hemit).
  destruct (bind (item response "links") (py_in "next")) as [[|]|e]; [| |discriminate].
  - destruct (iterate self inner fuel url (offset + per_page) per_page params w1)
      as [[evs' o'] w2] eqn:Hrest.
    cbn [prepend] in H. injection H as <- -> ->.
    change (run_body body acc
              (yields ((Fetch offset per_page :: map Yield rs) ++ evs')) = Ok a)
      in Hbody.
    rewrite yields_app, run_body_app in Hbody.
    change (yields (Fetch offset per_page :: map Yield rs))
      with (yields (map Yield rs)) in Hbody.
    rewrite yields_map_Yield in Hbody.
    destruct (run_body body acc rs) as [a1|e]; [|discriminate].
    cbn [bind] in Hbody. now apply (IH _ _ _ _ _ _ Hrest).
  - injection H as <- <-.
    change (yields (Fetch offset per_page :: map Yield rs))
      with (yields (map Yield rs)) in Hbody.
    rewrite yields_map_Yield in Hbody. now rewrite Hbody.
Qed.

Lemma for_each_fold_witness :
  for_each (Fixtures.client 3 (Fixtures.replay
              [Pages.page_response Pages.page_one; Pages.page_response Pages.page_two]))
           1 3 "/people/v2/people" 0 2 []
           (fun (n : nat) (_ : record) => Ok (S n)) O initial_world
  = (Return 3%nat, advance 2 initial_world).
Proof.
  apply (for_each_fold _ 1 3 "/people/v2/people" 2 [] _ 0 O 3%nat initial_world
           (advance 2 initial_world)
           (Fetch 0 2 :: map Yield (page_records Pages.page_one)
              ++ Fetch (0 + 2) 2 :: map Yield (page_records Pages.page_two)));
    reflexivity.
Defined.

Lemma run_collect_person (rs : list record) :
  Forall (fun r => has_type_id (data r) = true) rs ->
  forall l, run_body collect_person l rs = Ok (l ++ person_ids rs).
Proof.
  induction rs as [|r rs IH]; intros Hall l.
  - cbn. now rewrite app_nil_r.
  - apply Forall_cons in Hall as [Hr Hrs].
    destruct (has_type_id_items _ Hr) as (t & x & Ht & Hx).
    cbn [run_body person_ids flat_map]. unfold collect_person at 1.
    rewrite Ht, Hx. cbn [bind].
    destruct (py_eq t (JStr "Person")); cbn [bind].
    + rewrite (IH Hrs). now rewrite <- app_assoc.
    + now rewrite (IH Hrs).
Qed.

(** X25.  [get_team_members] and [get_group_members] return, when the
    generator over their URL ends and every item has a type and an id, the
    ids of the items of type [Person] in the order in which the pages give
    them. *)
Theorem members_are_person_ids (self : PCO) (inner fuel : nat) (id : Z)
        (w w' : world) (evs : list event) :
  Forall (fun r => has_type_id (data r) = true) (yields evs) ->
  (iterate self inner fuel ("/services/v2/teams/" +:+ pretty id +:+ "/people")
           0 100 [] w = (evs, Return tt, w') ->
   get_team_members self inner fuel id w = (Return (person_ids (yields evs)), w')) /\
  (iterate self inner fuel ("/groups/v2/groups/" +:+ pretty id +:+ "/people")
           0 100 [] w = (evs, Return tt, w') ->
   get_group_members self inner fuel id w = (Return (person_ids (yields evs)), w')).
Proof.
  intros Hall.
  pose proof (run_collect_person (yields evs) Hall []) as Hrun. cbn [app] in Hrun.
  split; intros Hit.
  - unfold get_team_members. now apply for_each_fold with (evs := evs).
  - unfold get_group_members. now apply for_each_fold with (evs := evs).
Qed.

Lemma members_are_person_ids_witness :
  get_team_members
    (Fixtures.client 3 (Fixtures.replay
       [Pages.page_response Pages.page_one; Pages.page_response Pages.page_two]))
    1 3 7 initial_world
  = (Return [JStr "1"; JStr "2"; JStr "3"], advance 2 initial_world).
Proof.
  refine (proj1 (members_are_person_ids _ 1 3 7 initial_world (advance 2 initial_world)
            (Fetch 0 100 :: map Yield (page_records Pages.page_one)
               ++ Fetch (0 + 100) 100 :: map Yield (page_records Pages.page_two)) _) _).
  - repeat constructor.
  - reflexivity.
Defined.

Lemma consume_items_keeps {A : Type} (body : A -> record -> result A)
      (response : json) (items : list json) :
  (forall acc r a, body acc r = Ok a -> a = acc) ->
  forall acc a, consume_items response items body acc = Ok a -> a = acc.
Proof.
  intros Hbody. induction items as [|cur rest IH]; intros acc a H.
  - cbn in H. now injection H as <-.
  - cbn [consume_items] in H.
    destruct (build_record response cur) as [r|e]; [|discriminate].
    cbn [bind] in H. destruct (body acc r) as [a1|e] eqn:Hb; [|discriminate].
    cbn [bind] in H. apply Hbody in Hb as ->. now apply IH.
Qed.

Lemma for_each_keeps {A : Type} (self : PCO) (inner fuel : nat) (url : string)
      (per_page : Z) (params : list (string * json))
      (body : A -> record -> result A) :
  (forall acc r a, body acc r = Ok a -> a = acc) ->
  forall (offset : Z) (acc a : A) (w w' : world),
    for_each self inner fuel url offset per_page params body acc w = (Return a, w') ->
    a = acc.
Proof.
  intros Hbody. induction fuel as [|fuel IH]; intros offset acc a w w' H;
    [discriminate|].
  cbn [for_each] in H.
  destruct (get self inner url (page_params offset per_page params) w)
    as [[response|e|] w1]; try discriminate.
  destruct (bind (item response "data") py_iter) as [items|e]; [|discriminate].
  destruct (consume_items response items body acc) as [acc'|e] eqn:Hc; [|discriminate].
  apply (consume_items_keeps body response items Hbody) in Hc as ->.
  destruct (bind (item response "links") (py_in "next")) as [[|]|e]; [| |discriminate].
  - now apply IH in H.
  - now injection H as <- _.
Qed.

(** X26.  [get_list_members], [get_teams] and [get_groups] never return
    anything but the empty list: for a record of the type they look for,
    their loop body calls a name that is not defined and raises, so nothing
    is ever appended. *)
Theorem broken_helpers_return_nothing (self : PCO) (inner fuel : nat) (id : Z)
        (w w' : world) (l : list json) :
  (get_list_members self inner fuel id w = (Return l, w') -> l = []) /\
  (get_teams self inner fuel w = (Return l, w') -> l = []) /\
  (get_groups self inner fuel w = (Return l, w') -> l = []).
Proof.
  assert (Hstep : forall type missing acc r a,
             members_step type missing acc r = Ok a -> a = acc).
  { intros type missing acc r a. unfold members_step.
    destruct (item (data r) "type") as [t|e]; [cbn [bind]|discriminate].
    destruct (py_eq t (JStr type)); [discriminate|]. now intros [= <-]. }
  split; [|split].
  - apply for_each_keeps. intros acc r a. unfold list_member_step.
    destruct (item (data r) "type") as [t|e]; [cbn [bind]|discriminate].
    destruct (py_eq t (JStr "Person")); [|now intros [= <-]].
    destruct (item (data r) "id"); [cbn [bind]|discriminate].
    destruct (bind (item (data r) "attributes") (fun a0 => item a0 "name"));
      discriminate.
  - apply for_each_keeps. apply Hstep.
  - apply for_each_keeps. apply Hstep.
Qed.

Lemma broken_helpers_return_nothing_witness : @nil json = [].
Proof.
  refine (proj1 (proj2 (broken_helpers_return_nothing
            (Fixtures.client 3 (Fixtures.replay [Pages.page_response Pages.page_two]))
            1 2 0 initial_world (advance 1 initial_world) [])) _).
  reflexivity.
Defined.

(** What happens at the first record of the wanted type. *)
Example get_list_members_name_error :
  get_list_members
    (Fixtures.client 3 (Fixtures.replay
       [Pages.page_response
          (JDict [("links", JDict []);
                  ("data", JList [Pages.resource "Person" "1" "Ann"]);
                  ("included", JList []);
                  ("meta", JDict [])])]))
    1 2 5 initial_world
  = (Raise (NameError "get_person_email"), advance 1 initial_world) /\
  get_teams
    (Fixtures.client 3 (Fixtures.replay
       [Pages.page_response
          (JDict [("links", JDict []);
                  ("data", JList [Pages.resource "Team" "1" "Band"]);
                  ("included", JList []);
                  ("meta", JDict [])])]))
    1 2 initial_world
  = (Raise (NameError "get_pco_team_members"), advance 1 initial_world).
Proof. split; reflexivity. Qed.

Lemma first_primary_none (type field : string) (finish : json -> result json)
      (items : list json) :
  forallb (passed_over type) items = true ->
  first_primary type field finish items = Ok JNull.
Proof.
  induction items as [|i rest IH]; intros H; [reflexivity|].
  cbn [forallb] in H. apply andb_prop in H as [Hi Hrest].
  cbn [first_primary]. unfold passed_over in Hi.
  destruct (item i "type") as [t|e]; [cbn [bind]|discriminate].
  destruct (py_eq t (JStr type)); [|now apply IH].
  destruct (bind (item i "attributes") (fun a => item a "primary")) as [p|e];
    [cbn [bind]|discriminate].
  destruct (py_truthy p); [discriminate | now apply IH].
Qed.

Lemma first_primary_found (type field : string) (finish : json -> result json)
      (pre rest : list json) (i v : json) :
  forallb (passed_over type) pre = true ->
  primary_with type field v i ->
  first_primary type field finish (pre ++ i :: rest) = finish v.
Proof.
  intros Hpre ((t & Ht & Heq) & (p & Hp & Htrue) & Hv).
  induction pre as [|j pre IH].
  - cbn [app first_primary]. rewrite Ht. cbn [bind]. rewrite Heq, Hp. cbn [bind].
    rewrite Htrue, Hv. reflexivity.
  - cbn [forallb] in Hpre. apply andb_prop in Hpre as [Hj Hpre].
    cbn [app first_primary]. unfold passed_over in Hj.
    destruct (item j "type") as [tj|e]; [cbn [bind]|discriminate].
    destruct (py_eq tj (JStr type)); [|now apply IH].
    destruct (bind (item j "attributes") (fun a => item a "primary")) as [pj|e];
      [cbn [bind]|discriminate].
    destruct (py_truthy pj); [discriminate | now apply IH].
Qed.

Lemma primary_of_result (self : PCO) (inner : nat) (url type field : string)
      (finish : json -> result json) (w w1 : world) (d : json) :
  get self inner url [] w = (Return d, w1) ->
  (py_truthy d = false ->
   primary_of self inner url type field finish w = (Return JNull, w1)) /\
  (py_truthy d = true ->
   forall items,
     bind (item d "data") py_iter = Ok items ->
     (forallb (passed_over type) items = true ->
      primary_of self inner url type field finish w = (Return JNull, w1)) /\
     (forall pre i rest v out,
         items = pre ++ i :: rest ->
         forallb (passed_over type) pre = true ->
         primary_with type field v i ->
         finish v = Ok out ->
         primary_of self inner url type field finish w = (Return out, w1))).
Proof.
  intros Hget. unfold primary_of. rewrite Hget. split.
  - intros ->. reflexivity.
  - intros -> items ->. cbn [bind]. split.
    + intros H. now rewrite first_primary_none.
    + intros pre i rest v out -> Hpre Hi Hout.
      now rewrite (first_primary_found type field finish pre rest i v Hpre Hi), Hout.
Qed.

(** X28.  [get_person_email] returns the address, in lower case, of the
    first item of the answer that is of type [Email] and marked primary;
    it returns [None] when the loop passes over every item, and when the
    answer is an empty document. *)
Theorem get_person_email_result (self : PCO) (inner : nat) (id : Z) (w w1 : world)
        (d : json) :
  get self inner ("/people/v2/people/" +:+ pretty id +:+ "/emails") [] w
  = (Return d, w1) ->
  (py_truthy d = false -> get_person_email self inner id w = (Return JNull, w1)) /\
  (py_truthy d = true ->
   forall items,
     bind (item d "data") py_iter = Ok items ->
     (forallb (passed_over "Email") items = true ->
      get_person_email self inner id w = (Return JNull, w1)) /\
     (forall pre i rest address,
         items = pre ++ i :: rest ->
         forallb (passed_over "Email") pre = true ->
         primary_with "Email" "address" (JStr address) i ->
         get_person_email self inner id w = (Return (JStr (py_lower address)), w1))).
Proof.
  intros Hget. unfold get_person_email.
  destruct (primary_of_result self inner _ "Email" "address" lower_method w w1 d Hget)
    as [Hfalse Htrue].
  split; [exact Hfalse|]. intros Ht items Hitems.
  destruct (Htrue Ht items Hitems) as [Hnone Hfound]. split; [exact Hnone|].
  intros pre i rest address Hsplit Hpre Hi.
  now apply (Hfound pre i rest (JStr address)).
Qed.

Lemma get_person_email_result_witness :
  get_person_email
    (Fixtures.client 3 (Fixtures.replay
       [Pages.page_response
          (JDict [("data", JList [email_item "Old@Example.com" false;
                                  email_item "Ann.Lee@Example.COM" true;
                                  email_item "Third@Example.com" true])])]))
    1 42 initial_world
  = (Return (JStr "ann.lee@example.com"), advance 1 initial_world).
Proof.
  refine (proj2 (proj2 (get_person_email_result _ 1 42 initial_world
            (advance 1 initial_world)
            (JDict [("data", JList [email_item "Old@Example.com" false;
                                    email_item "Ann.Lee@Example.COM" true;
                                    email_item "Third@Example.com" true])]) _) _ _ _)
            [email_item "Old@Example.com" false]
            (email_item "Ann.Lee@Example.COM" true)
            [email_item "Third@Example.com" true] "Ann.Lee@Example.COM" _ _ _);
    try reflexivity.
  split; [eexists; split; reflexivity|].
  split; [eexists; split; reflexivity | reflexivity].
Defined.

Lemma join_digit_runs (s : string) :
  forall run, join (digit_runs run s) = run +:+ keep_digits s.
Proof.
  induction s as [|c t IH]; intros run.
  - cbn [digit_runs keep_digits]. destruct run as [|x run]; [reflexivity|].
    reflexivity.
  - cbn [digit_runs keep_digits]. destruct (is_digit c).
    + rewrite IH. rewrite UrlFacts.app_assoc_str. reflexivity.
    + destruct run as [|x run].
      * rewrite IH. reflexivity.
      * cbn [join fold_right]. fold (join (digit_runs EmptyString t)).
        rewrite IH. reflexivity.
Qed.

(** X29.  [get_person_phone_number] returns the digits of the number of
    the first item that is of type [PhoneNumber] and marked primary, in
    order and with everything else dropped: joining the matches of [\d+]
    keeps exactly the digits. *)
Theorem get_person_phone_number_result (self : PCO) (inner : nat) (id : Z)
        (w w1 : world) (d : json) (items pre rest : list json) (i : json)
        (number : string) :
  get self inner ("/people/v2/people/" +:+ pretty id +:+ "/phone_numbers") [] w
  = (Return d, w1) ->
  py_truthy d = true ->
  bind (item d "data") py_iter = Ok items ->
  items = pre ++ i :: rest ->
  forallb (passed_over "PhoneNumber") pre = true ->
  primary_with "PhoneNumber" "number" (JStr number) i ->
  get_person_phone_number self inner id w = (Return (JStr (keep_digits number)), w1) /\
  findall_digits (JStr number) = Ok (digit_runs EmptyString number) /\
  join (digit_runs EmptyString number) = keep_digits number.
Proof.
  intros Hget Ht Hitems Hsplit Hpre Hi.
  assert (Hjoin : join (digit_runs EmptyString number) = keep_digits number)
    by (now rewrite join_digit_runs).
  split; [|split; [reflexivity | exact Hjoin]].
  unfold get_person_phone_number.
  destruct (primary_of_result self inner _ "PhoneNumber" "number"
              (fun n => bind (findall_digits n) (fun l => Ok (JStr (join l))))
              w w1 d Hget) as [_ Htrue].
  destruct (Htrue Ht items Hitems) as [_ Hfound].
  apply (Hfound pre i rest (JStr number)); try assumption.
  cbn [findall_digits bind]. now rewrite Hjoin.
Qed.

Lemma get_person_phone_number_result_witness :
  get_person_phone_number
    (Fixtures.client 3 (Fixtures.replay
       [Pages.page_response
          (JDict [("data", JList [phone_item "555 0100" false;
                                  phone_item "+1 (201) 555-0199 x2" true])])]))
    1 42 initial_world
  = (Return (JStr "120155501992"), advance 1 initial_world).
Proof.
  refine (proj1 (get_person_phone_number_result _ 1 42 initial_world
            (advance 1 initial_world)
            (JDict [("data", JList [phone_item "555 0100" false;
                                    phone_item "+1 (201) 555-0199 x2" true])])
            _ [phone_item "555 0100" false] [] (phone_item "+1 (201) 555-0199 x2" true)
            "+1 (201) 555-0199 x2" _ _ _ _ _ _));
    try reflexivity.
  split; [eexists; split; reflexivity|].
  split; [eexists; split; reflexivity | reflexivity].
Defined.

End HelpersFacts.
